(** * EDOPro HD Pics Downloader: the download engine, embedded and verified

    A shallow embedding of the engine of [EDOPro-HD-Pics-Downloader.py]:
    task derivation from the catalog, the existing-file filter, the JPEG
    integrity check, fetch-with-retry, the per-task worker, the
    coordinator loop with its shared counters, and the [/api/start]
    handler.  Every definition follows the Python function of the same
    name; the properties proved about them come last. *)

From Stdlib Require Import ZArith DecimalString Ascii String Strings.Byte.
From stdpp Require Import gmap strings list.

Set Warnings "-register-all".

(** ** Python strings

    A string is held as its UTF-8 bytes, on which concatenation,
    equality, [in], [startswith] and [endswith] are those of the code
    points.  [lower] is written out for ASCII text; what it gives on text
    with other characters is left to the instance of [Unicode]. *)

Class Unicode := { lower_other : string -> string }.

Definition ascii_lower (c : ascii) : ascii :=
  let n := nat_of_ascii c in
  if (65 <=? n)%nat && (n <=? 90)%nat then ascii_of_nat (n + 32) else c.

Fixpoint lower_ascii (s : string) : string :=
  match s with
  | EmptyString => EmptyString
  | String c r => String (ascii_lower c) (lower_ascii r)
  end.

Definition is_ascii (s : string) : bool :=
  forallb (fun c => (nat_of_ascii c <? 128)%nat) (list_ascii_of_string s).

(** [s.lower()] *)
Definition str_lower {unicode : Unicode} (s : string) : string :=
  if is_ascii s then lower_ascii s else lower_other s.

(** [s.startswith(p)] *)
Definition startswith (p s : string) : bool := String.prefix p s.

(** [s.endswith(p)] *)
Definition endswith (p s : string) : bool :=
  String.prefix (String.rev p) (String.rev s).

(** [needle in hay] on two strings *)
Fixpoint str_in (needle hay : string) : bool :=
  String.prefix needle hay ||
  match hay with
  | EmptyString => false
  | String _ r => str_in needle r
  end.

(** [str(n)] for an integer *)
Definition str_of_Z (z : Z) : string := NilZero.string_of_int (Z.to_int z).

(** ** JSON values, as [json.loads] delivers them

    A float is kept as what [int()] and truthiness need of it: not a
    number, an infinity, or a finite value [num/den]. *)

Inductive pyfloat :=
| FNan
| FInf (negative : bool)
| FFinite (num : Z) (den : positive).

Inductive jval :=
| JNull
| JBool (b : bool)
| JInt (z : Z)
| JFloat (f : pyfloat)
| JStr (s : string)
| JArr (l : list jval)
| JObj (d : gmap string jval).

(** Python truthiness *)
Definition truthy (v : jval) : bool :=
  match v with
  | JNull => false
  | JBool b => b
  | JInt z => negb (z =? 0)%Z
  | JFloat (FFinite n _) => negb (n =? 0)%Z
  | JFloat _ => true
  | JStr s => negb (String.eqb s "")
  | JArr l => match l with [] => false | _ => true end
  | JObj d => negb (bool_decide (d = ∅))
  end.

(** [d.get(k)] and [d.get(k, dflt)] *)
Definition dict_get (d : gmap string jval) (k : string) : jval :=
  default JNull (d !! k).

Definition dict_get_default (d : gmap string jval) (k : string) (dflt : jval) : jval :=
  default dflt (d !! k).

(** [a or b] *)
Definition py_or (a b : jval) : jval := if truthy a then a else b.

(** ** Exceptions and results

    The classes the engine's handlers tell apart.  [HTTPError] and
    [URLError] are urllib's; [HTTPException] stands for what the HTTP
    client raises outside them (an incomplete read, say), which no
    handler of [download_file] names. *)

Inductive exn_class :=
| AttributeError | TypeError | ValueError | OverflowError
| URLError | HTTPError | OSError | InterruptedError
| HTTPException.

Record exn := Exn { e_class : exn_class; e_msg : string }.

(** A call either returns a value or raises. *)
Inductive outcome (A : Type) :=
| Ret (a : A)
| Raise (e : exn).
Arguments Ret {A} a.
Arguments Raise {A} e.

Definition bind {A B} (m : outcome A) (k : A -> outcome B) : outcome B :=
  match m with
  | Ret a => k a
  | Raise e => Raise e
  end.

Notation "'do' x <- m ; k" := (bind m (fun x => k))
  (at level 10, x name, m at level 100, k at level 200).

(** ** Download tasks

    The dict built by [build_download_tasks], with its five keys. *)

Record task := Task {
  t_card_id : jval;
  t_name : jval;
  t_image_id : jval;
  t_url : jval;
  t_subfolder : string
}.

(** *** [build_download_tasks] *)

(** What [<kind>.get] raises when the value is not a dict. *)
Definition no_get : exn := Exn AttributeError "object has no attribute 'get'".

(** The standard-art task of one image dict, appended to [tasks] when
    both [id] and [image_url] are truthy. *)
Definition append_image_task (card_id name : jval) (img : gmap string jval)
    (tasks : list task) : list task :=
  let img_id := dict_get img "id" in
  let img_url := dict_get img "image_url" in
  if truthy img_id && truthy img_url
  then tasks ++ [Task card_id name img_id img_url ""]
  else tasks.

(** [for img in images: ...] *)
Fixpoint images_loop (card_id name : jval) (images : list jval)
    (tasks : list task) : outcome (list task) :=
  match images with
  | [] => Ret tasks
  | JObj img :: rest =>
      images_loop card_id name rest (append_image_task card_id name img tasks)
  | _ :: _ => Raise no_get
  end.

(** [images = card.get("card_images") or []], as the list the [for] loop
    walks.  A truthy value that is not a list makes the loop raise on its
    first element (a character or a key has no [get]) or at once (a
    number is not iterable). *)
Definition card_images (card : gmap string jval) : outcome (list jval) :=
  match py_or (dict_get card "card_images") (JArr []) with
  | JArr l => Ret l
  | JStr _ | JObj _ => Raise no_get
  | _ => Raise (Exn TypeError "object is not iterable")
  end.

(** [needle in v] for a string [needle] *)
Definition py_in (needle : string) (v : jval) : outcome bool :=
  match v with
  | JStr s => Ret (str_in needle s)
  | JArr l =>
      Ret (existsb (fun x => match x with JStr s => String.eqb needle s | _ => false end) l)
  | JObj d => Ret (bool_decide (is_Some (d !! needle)))
  | _ => Raise (Exn TypeError "argument is not iterable")
  end.

(** [if "Field" in card_type and "Spell" in card_type] *)
Definition is_field_spell (card_type : jval) : outcome bool :=
  do f <- py_in "Field" card_type;
  if f then py_in "Spell" card_type else Ret false.

(** The field-crop task of a card, appended when the first image has a
    truthy [image_url_cropped]. *)
Definition append_field_task (card_id name : jval) (images : list jval)
    (tasks : list task) : outcome (list task) :=
  match images with
  | [] => Ret tasks
  | first_img :: _ =>
      if truthy first_img then
        match first_img with
        | JObj img =>
            let cropped_url := dict_get img "image_url_cropped" in
            if truthy cropped_url
            then Ret (tasks ++ [Task card_id name card_id cropped_url "field"])
            else Ret tasks
        | _ => Raise no_get
        end
      else Ret tasks
  end.

(** The body of [for card in cards]. *)
Definition card_step (card : jval) (tasks : list task) : outcome (list task) :=
  match card with
  | JObj c =>
      let card_id := dict_get c "id" in
      let name := dict_get_default c "name" (JStr "Unknown") in
      do images <- card_images c;
      let card_type := dict_get_default c "type" (JStr "") in
      do tasks1 <- images_loop card_id name images tasks;
      do fs <- is_field_spell card_type;
      if fs then append_field_task card_id name images tasks1 else Ret tasks1
  | _ => Raise no_get
  end.

Fixpoint cards_loop (cards : list jval) (tasks : list task) : outcome (list task) :=
  match cards with
  | [] => Ret tasks
  | card :: rest => do tasks1 <- card_step card tasks; cards_loop rest tasks1
  end.

Definition build_download_tasks (cards : list jval) : outcome (list task) :=
  cards_loop cards [].

(** *** The tasks of one card, in the specification's words *)

(** The standard-art task of one image of a card, when it has one. *)
Definition image_task (card_id name : jval) (img : gmap string jval) : option task :=
  if truthy (dict_get img "id") && truthy (dict_get img "image_url")
  then Some (Task card_id name (dict_get img "id") (dict_get img "image_url") "")
  else None.

(** The standard-art tasks of a card whose images are [imgs]. *)
Definition standard_tasks (card : gmap string jval) (imgs : list (gmap string jval))
    : list task :=
  omap (image_task (dict_get card "id") (dict_get_default card "name" (JStr "Unknown"))) imgs.

(** The field-crop task of a card whose images are [imgs]: taken from the
    first image, if it has a cropped-art URL. *)
Definition field_crop_tasks (card : gmap string jval) (imgs : list (gmap string jval))
    : list task :=
  match imgs with
  | first_img :: _ =>
      let cropped_url := dict_get first_img "image_url_cropped" in
      if truthy cropped_url
      then [Task (dict_get card "id") (dict_get_default card "name" (JStr "Unknown"))
              (dict_get card "id") cropped_url "field"]
      else []
  | [] => []
  end.

(** ** The file system

    Paths are used as the program builds them, with POSIX separators (no
    normalisation, no symbolic links).  A regular file carries its bytes,
    whether it can be opened for reading, and whether it is locked: a
    locked file can be neither overwritten, removed nor replaced (a
    read-only or in-use file). *)

Inductive node :=
| Dir
| File (data : list byte) (readable : bool) (locked : bool).

Abbreviation filesystem := (gmap string node).

#[global] Instance byte_eq_dec : EqDecision byte := Byte.byte_eq_dec.

(** [os.path.join(a, b)] *)
Definition os_path_join (a b : string) : string :=
  if startswith "/" b then b
  else if String.eqb a "" || endswith "/" a then a +:+ b
  else a +:+ "/" +:+ b.

(** [os.path.dirname(p)]: up to the last separator, trailing separators
    dropped unless nothing else is left. *)
Fixpoint drop_last_component (rev_p : list ascii) : list ascii :=
  match rev_p with
  | [] => []
  | c :: r => if Ascii.eqb c "/" then rev_p else drop_last_component r
  end.

Fixpoint rstrip_slashes (rev_p : list ascii) : list ascii :=
  match rev_p with
  | [] => []
  | c :: r => if Ascii.eqb c "/" then rstrip_slashes r else rev_p
  end.

Definition os_path_dirname (p : string) : string :=
  let head := drop_last_component (rev (list_ascii_of_string p)) in
  match rstrip_slashes head with
  | [] => string_of_list_ascii (rev head)
  | stripped => string_of_list_ascii (rev stripped)
  end.

Definition os_path_exists (fs : filesystem) (p : string) : bool :=
  bool_decide (is_Some (fs !! p)).

Definition os_path_isdir (fs : filesystem) (p : string) : bool :=
  match fs !! p with
  | Some Dir => true
  | _ => false
  end.

(** [p] with [prefix] removed from its front *)
Fixpoint strip_prefix (prefix p : string) : option string :=
  match prefix, p with
  | EmptyString, _ => Some p
  | String a prefix', String b p' =>
      if Ascii.eqb a b then strip_prefix prefix' p' else None
  | String _ _, EmptyString => None
  end.

(** The name under which [p] is an entry of [directory], if it is one:
    [p = os.path.join(directory, name)] for a non-empty [name] without
    separator. *)
Definition entry_name (directory p : string) : option string :=
  match strip_prefix (os_path_join directory "") p with
  | Some name => if String.eqb name "" || str_in "/" name then None else Some name
  | None => None
  end.

(** [os.listdir(directory)]; [None] when it raises. *)
Definition os_listdir (fs : filesystem) (directory : string) : option (list string) :=
  if os_path_isdir fs directory
  then Some (omap (entry_name directory) (elements (dom fs)))
  else None.

(** [name] is an entry of the directory [directory]: a name without
    separator under which the directory holds something. *)
Definition dir_entry (fs : filesystem) (directory name : string) : Prop :=
  os_path_isdir fs directory = true /\ name ≠ "" /\ str_in "/" name = false
  /\ is_Some (fs !! os_path_join directory name).

(** [open(p, 'rb').read()]; [None] when [open] raises. *)
Definition open_rb (fs : filesystem) (p : string) : option (list byte) :=
  match fs !! p with
  | Some (File data true _) => Some data
  | _ => None
  end.

(** ** [verify_jpeg] *)

Definition verify_jpeg (fs : filesystem) (path : string) : bool :=
  match open_rb fs path with
  | None => false                                  (* [open] raises *)
  | Some data =>
      (* [f.read(2) != b'\xff\xd8'] *)
      if negb (bool_decide (take 2 data = [xff; xd8])) then false
      (* [f.seek(-2, 2)] raises before the start of the file *)
      else if (length data <? 2)%nat then false
      (* [f.read(2) != b'\xff\xd9'] *)
      else if negb (bool_decide (take 2 (drop (length data - 2) data) = [xff; xd9]))
      then false
      (* [f.seek(0, 2); f.tell() < 1024] *)
      else if (length data <? 1024)%nat then false
      else true
  end.

Section Program.

Context {unicode : Unicode}.

(** ** [list_existing_images] *)

Definition list_existing_images (fs : filesystem) (directory : string) : gset string :=
  match os_listdir fs directory with
  | Some names =>
      list_to_set
        (map str_lower (List.filter (fun name => endswith ".jpg" (str_lower name)) names))
  | None => ∅
  end.

(** ** [filter_tasks] *)

Section Formatting.

(** How Python renders a float, a list or a dict inside an f-string; the
    scalar cases are spelled out in [py_str]. *)
Variable repr_other : jval -> string.

Definition py_str (v : jval) : string :=
  match v with
  | JNull => "None"
  | JBool true => "True"
  | JBool false => "False"
  | JInt z => str_of_Z z
  | JStr s => s
  | _ => repr_other v
  end.

(** [f"{t['image_id']}.jpg"] *)
Definition task_filename (t : task) : string := py_str (t_image_id t) +:+ ".jpg".

(** [os.path.join(picsdir, sub) if sub else picsdir] *)
Definition task_target_dir (picsdir : string) (t : task) : string :=
  let sub := t_subfolder t in
  if String.eqb sub "" then picsdir else os_path_join picsdir sub.

Definition task_outpath (picsdir : string) (t : task) : string :=
  os_path_join (task_target_dir picsdir t) (task_filename t).

(** [fname in (existing_field if sub == "field" else existing_base)] *)
Definition task_listed (existing_base existing_field : gset string) (t : task) : bool :=
  let fname := str_lower (task_filename t) in
  bool_decide (fname ∈ (if String.eqb (t_subfolder t) "field"
                        then existing_field else existing_base)).

Fixpoint filter_tasks_loop (fs : filesystem) (picsdir : string)
    (only_missing validate_existing : bool)
    (existing_base existing_field : gset string)
    (tasks new_tasks : list task) : list task :=
  match tasks with
  | [] => new_tasks
  | t :: rest =>
      let continue := filter_tasks_loop fs picsdir only_missing validate_existing
                        existing_base existing_field rest in
      if negb (task_listed existing_base existing_field t)
      then continue (new_tasks ++ [t])
      else if validate_existing then
        if negb (verify_jpeg fs (task_outpath picsdir t))
        then continue (new_tasks ++ [t])
        else continue new_tasks
      else if negb only_missing then continue (new_tasks ++ [t])
      else continue new_tasks
  end.

Definition filter_tasks (fs : filesystem) (tasks : list task) (picsdir : string)
    (only_missing validate_existing : bool) : list task :=
  if negb only_missing && negb validate_existing then tasks
  else
    let existing_base := list_existing_images fs picsdir in
    let existing_field := list_existing_images fs (os_path_join picsdir "field") in
    filter_tasks_loop fs picsdir only_missing validate_existing
      existing_base existing_field tasks [].

(** Whether the loop of [filter_tasks] keeps a task. *)
Definition task_kept (fs : filesystem) (picsdir : string)
    (only_missing validate_existing : bool)
    (existing_base existing_field : gset string) (t : task) : bool :=
  negb (task_listed existing_base existing_field t)
  || (if validate_existing
      then negb (verify_jpeg fs (task_outpath picsdir t))
      else negb only_missing).

(** Whether the task's file name is in the listing scanned for its
    subfolder. *)
Definition listed_on_disk (fs : filesystem) (picsdir : string) (t : task) : bool :=
  task_listed (list_existing_images fs picsdir)
    (list_existing_images fs (os_path_join picsdir "field")) t.



End Formatting.

(** *** Writing to the file system

    Each operation returns the new file system or raises [OSError] with
    the text Python gives it. *)

Definition os_error (text path : string) : exn :=
  Exn OSError (text +:+ ": '" +:+ path +:+ "'").

Definition parent_exists (fs : filesystem) (p : string) : bool :=
  let d := os_path_dirname p in
  String.eqb d "" || os_path_isdir fs d.

(** [open(p, "wb")]: creates or truncates the file. *)
Definition open_wb (fs : filesystem) (p : string) : outcome filesystem :=
  if negb (parent_exists fs p)
  then Raise (os_error "[Errno 2] No such file or directory" p)
  else match fs !! p with
       | None => Ret (<[p := File [] true false]> fs)
       | Some (File _ readable false) => Ret (<[p := File [] readable false]> fs)
       | Some (File _ _ true) => Raise (os_error "[Errno 13] Permission denied" p)
       | Some Dir => Raise (os_error "[Errno 21] Is a directory" p)
       end.

(** [f.write(chunk)] on the file opened at [p] *)
Definition file_write (fs : filesystem) (p : string) (chunk : list byte) : filesystem :=
  match fs !! p with
  | Some (File data readable locked) => <[p := File (data ++ chunk) readable locked]> fs
  | _ => fs
  end.

(** [os.remove(p)] *)
Definition os_remove (fs : filesystem) (p : string) : outcome filesystem :=
  match fs !! p with
  | Some (File _ _ false) => Ret (delete p fs)
  | Some (File _ _ true) => Raise (os_error "[Errno 13] Permission denied" p)
  | Some Dir => Raise (os_error "[Errno 21] Is a directory" p)
  | None => Raise (os_error "[Errno 2] No such file or directory" p)
  end.

(** [os.replace(src, dst)] *)
Definition os_replace (fs : filesystem) (src dst : string) : outcome filesystem :=
  let both := src +:+ "' -> '" +:+ dst in
  match fs !! src with
  | Some (File data readable false) =>
      match fs !! dst with
      | Some Dir => Raise (os_error "[Errno 21] Is a directory" both)
      | Some (File _ _ true) => Raise (os_error "[Errno 13] Permission denied" both)
      | _ => Ret (<[dst := File data readable false]> (delete src fs))
      end
  | Some (File _ _ true) => Raise (os_error "[Errno 13] Permission denied" both)
  | Some Dir => Raise (os_error "[Errno 21] Is a directory" both)
  | None => Raise (os_error "[Errno 2] No such file or directory" both)
  end.

(** The path is free, or holds a regular file that is not locked. *)
Definition removable (fs : filesystem) (p : string) : Prop :=
  match fs !! p with
  | None | Some (File _ _ false) => True
  | _ => False
  end.

(** ** [DownloadState] *)

Record log_entry := LogEntry { log_type : string; log_message : string }.

Record error_detail := ErrorDetail {
  ed_id : jval;
  ed_name : jval;
  ed_url : jval;
  ed_error : string
}.

Record DownloadState := mkState {
  running : bool;
  total : Z;
  processed : Z;
  skipped : Z;
  errors : Z;
  logs : list log_entry;
  cancel_flag : bool;
  pause_flag : bool;
  start_time : option nat;
  error_details : list error_detail;
  api_error : option string;
  report : option (string * string)
}.

(** [DownloadState.__init__] and [reset] leave the same field values. *)
Definition initial_state : DownloadState :=
  mkState false 0 0 0 0 [] false false None [] None None.

Definition reset (st : DownloadState) : DownloadState := initial_state.

(** [[-n:]] on a list *)
Definition last_n {A} (n : nat) (l : list A) : list A := drop (length l - n) l.

(** [add_log]; the wall-clock prefix and timestamp of an entry are left
    out. *)
Definition add_log (message type : string) (st : DownloadState) : DownloadState :=
  let logs1 := logs st ++ [LogEntry type message] in
  let logs2 := if (100 <? length logs1)%nat then last_n 100 logs1 else logs1 in
  mkState (running st) (total st) (processed st) (skipped st) (errors st) logs2
    (cancel_flag st) (pause_flag st) (start_time st) (error_details st)
    (api_error st) (report st).

(** The counter fields [increment] is called on. *)
Inductive counter := FProcessed | FSkipped | FErrors.

(** [increment(field)] *)
Definition increment (field : counter) (st : DownloadState) : DownloadState :=
  mkState (running st) (total st)
    (processed st + (match field with FProcessed => 1 | _ => 0 end))%Z
    (skipped st + (match field with FSkipped => 1 | _ => 0 end))%Z
    (errors st + (match field with FErrors => 1 | _ => 0 end))%Z
    (logs st) (cancel_flag st) (pause_flag st) (start_time st) (error_details st)
    (api_error st) (report st).

(** The tasks accounted for so far. *)
Definition counted (st : DownloadState) : Z := (processed st + skipped st + errors st)%Z.

(** [st'] accounts for the same tasks out of the same total as [st]. *)
Definition same_counts (st st' : DownloadState) : Prop :=
  counted st' = counted st /\ total st' = total st.

Definition set_flags (cancel pause : bool) (st : DownloadState) : DownloadState :=
  mkState (running st) (total st) (processed st) (skipped st) (errors st) (logs st)
    cancel pause (start_time st) (error_details st) (api_error st) (report st).

Definition set_running (b : bool) (st : DownloadState) : DownloadState :=
  mkState b (total st) (processed st) (skipped st) (errors st) (logs st)
    (cancel_flag st) (pause_flag st) (start_time st) (error_details st)
    (api_error st) (report st).

Definition set_total (n : Z) (st : DownloadState) : DownloadState :=
  mkState (running st) n (processed st) (skipped st) (errors st) (logs st)
    (cancel_flag st) (pause_flag st) (start_time st) (error_details st)
    (api_error st) (report st).

Definition set_start_time (t : nat) (st : DownloadState) : DownloadState :=
  mkState (running st) (total st) (processed st) (skipped st) (errors st) (logs st)
    (cancel_flag st) (pause_flag st) (Some t) (error_details st)
    (api_error st) (report st).

Definition add_error_detail (d : error_detail) (st : DownloadState) : DownloadState :=
  mkState (running st) (total st) (processed st) (skipped st) (errors st) (logs st)
    (cancel_flag st) (pause_flag st) (start_time st) (error_details st ++ [d])
    (api_error st) (report st).

Definition set_api_error (e : string) (st : DownloadState) : DownloadState :=
  mkState (running st) (total st) (processed st) (skipped st) (errors st) (logs st)
    (cancel_flag st) (pause_flag st) (start_time st) (error_details st)
    (Some e) (report st).

Definition set_report (r : option (string * string)) (st : DownloadState) : DownloadState :=
  mkState (running st) (total st) (processed st) (skipped st) (errors st) (logs st)
    (cancel_flag st) (pause_flag st) (start_time st) (error_details st)
    (api_error st) r.

(** ** Control requests

    The state changes of [/api/pause], [/api/resume] and [/api/cancel] in
    [RequestHandler.do_POST]. *)

Inductive control := CtlPause | CtlResume | CtlCancel.

Definition apply_control (c : control) (st : DownloadState) : DownloadState :=
  match c with
  | CtlPause => set_flags (cancel_flag st) true st
  | CtlResume => set_flags (cancel_flag st) false st
  | CtlCancel =>
      add_log "⚠️  Cancellation requested by user" "warning" (set_flags true false st)
  end.

(** ** The world a run executes in

    The coordinator and its workers share the state and the file system
    with the request handler's threads and the network.  A run is given
    an environment: which control requests are served before each of its
    reads of a flag (numbered by [w_tick]), and what the network answers
    to each request.  The workers run one after the other. *)

Inductive read_event :=
| Chunk (data : list byte)
| ReadError (e : exn).

Inductive response :=
| ConnError (e : exn)
| Response (content_type : option string) (body : list read_event).

Record environment := Env {
  controls : nat -> list control;
  network : nat -> string -> response
}.

Record world := World {
  w_state : DownloadState;
  w_fs : filesystem;
  w_tick : nat;
  w_requests : list string
}.

Definition with_state (f : DownloadState -> DownloadState) (w : world) : world :=
  World (f (w_state w)) (w_fs w) (w_tick w) (w_requests w).

Definition with_fs (fs : filesystem) (w : world) : world :=
  World (w_state w) fs (w_tick w) (w_requests w).

Section Engine.

Variable repr_other : jval -> string.
Variable env : environment.

(** The control requests due at this tick are served, then the clock
    advances. *)
Definition checkpoint (w : world) : world :=
  World (foldl (fun st c => apply_control c st) (w_state w) (controls env (w_tick w)))
        (w_fs w) (S (w_tick w)) (w_requests w).

(** A read of [state.cancel_flag] *)
Definition read_cancel (w : world) : bool * world :=
  let w1 := checkpoint w in (cancel_flag (w_state w1), w1).

(** A read of [state.pause_flag] *)
Definition read_pause (w : world) : bool * world :=
  let w1 := checkpoint w in (pause_flag (w_state w1), w1).

(** ** [download_file] *)

(** [if os.path.exists(temp): try: os.remove(temp) except Exception: pass] *)
Definition cleanup_temp (temp : string) (w : world) : world :=
  if os_path_exists (w_fs w) temp then
    match os_remove (w_fs w) temp with
    | Ret fs1 => with_fs fs1 w
    | Raise _ => w
    end
  else w.

(** [while state.pause_flag: state.pause_cond.wait(0.5); if
    state.cancel_flag: raise ...].  Returns whether the wait ended in a
    cancellation; [fuel] bounds the number of polls, [None] is a pause
    that outlasts it. *)
Fixpoint pause_wait (fuel : nat) (w : world) : option (world * bool) :=
  match fuel with
  | O => None
  | S fuel' =>
      let '(paused, w1) := read_pause w in
      if paused then
        let '(cancelled, w2) := read_cancel w1 in
        if cancelled then Some (w2, true) else pause_wait fuel' w2
      else Some (w1, false)
  end.

(** The [while True] loop that streams the body into the open temp file.
    Returns the exception that ended it, if one did.  The rate limiter
    only sleeps and is left out. *)
Fixpoint stream_body (fuel : nat) (temp : string) (body : list read_event)
    (w : world) : option (world * option exn) :=
  let '(cancelled, w1) := read_cancel w in
  if cancelled
  then Some (w1, Some (Exn InterruptedError "Cancelled during download"))
  else
    match pause_wait fuel w1 with
    | None => None
    | Some (w2, true) => Some (w2, Some (Exn InterruptedError "Cancelled during pause"))
    | Some (w2, false) =>
        match body with
        | [] => Some (w2, None)
        | ReadError e :: _ => Some (w2, Some e)
        | Chunk [] :: _ => Some (w2, None)
        | Chunk chunk :: rest =>
            stream_body fuel temp rest (with_fs (file_write (w_fs w2) temp chunk) w2)
        end
    end.

(** The body of the [try] of one attempt. *)
Definition try_download (fuel : nat) (url temp outpath : string) (w : world)
    : option (world * outcome unit) :=
  let w1 := World (w_state w) (w_fs w) (w_tick w) (w_requests w ++ [url]) in
  match network env (length (w_requests w)) url with
  | ConnError e => Some (w1, Raise e)
  | Response content_type body =>
      let ctype := str_lower (default "" content_type) in
      if negb (startswith "image/jpeg" ctype)
      then Some (w1, Raise (Exn ValueError ("Unsupported content type: " +:+ ctype)))
      else
        match open_wb (w_fs w1) temp with
        | Raise e => Some (w1, Raise e)
        | Ret fs1 =>
            match stream_body fuel temp body (with_fs fs1 w1) with
            | None => None
            | Some (w2, Some e) => Some (w2, Raise e)
            | Some (w2, None) =>
                if negb (verify_jpeg (w_fs w2) temp)
                then Some (w2, Raise (Exn ValueError "Downloaded file is not a valid JPEG"))
                else
                  match os_replace (w_fs w2) temp outpath with
                  | Raise e => Some (w2, Raise e)
                  | Ret fs3 => Some (with_fs fs3 w2, Ret tt)
                  end
            end
        end
  end.

(** [for attempt in range(1, max_retries + 1)], with [remaining]
    iterations to go; the code after the loop is the [O] case.  The
    back-off [time.sleep(2 ** (attempt - 1))] only sleeps. *)
Fixpoint download_attempts (fuel : nat) (url outpath : string) (max_retries : Z)
    (remaining : nat) (attempt : Z) (w : world)
    : option (world * outcome (bool * option string)) :=
  let temp := outpath +:+ ".part" in
  match remaining with
  | O => Some (w, Ret (false, Some "Max retries exceeded"))
  | S remaining' =>
      let '(cancelled, w1) := read_cancel w in
      if cancelled
      then Some (cleanup_temp temp w1, Ret (false, Some "Cancelled by user"))
      else
        match try_download fuel url temp outpath w1 with
        | None => None
        | Some (w2, Ret _) => Some (w2, Ret (true, None))
        | Some (w2, Raise e) =>
            match e_class e with
            | InterruptedError =>
                Some (cleanup_temp temp w2, Ret (false, Some (e_msg e)))
            | URLError | HTTPError | ValueError | OSError =>
                if (attempt =? max_retries)%Z
                then Some (cleanup_temp temp w2,
                           Ret (false, Some ("After " +:+ str_of_Z max_retries
                                             +:+ " attempts: " +:+ e_msg e)))
                else download_attempts fuel url outpath max_retries remaining'
                       (attempt + 1)%Z w2
            | _ => Some (w2, Raise e)
            end
        end
  end.

Definition download_file (fuel : nat) (url outpath : string) (timeout max_retries
    rate_limit_kbps : Z) (w : world) : option (world * outcome (bool * option string)) :=
  download_attempts fuel url outpath max_retries (Z.to_nat max_retries) 1%Z w.

(** ** [download_worker_task] *)

Inductive status := Success | Skipped | Error | Cancelled.

(** The dict a worker returns: [status], [task] and, for an error, [error]. *)
Record worker_result := WorkerResult {
  r_status : status;
  r_task : task;
  r_error : option string
}.

Definition download_worker_task (fuel : nat) (t : task) (picsdir : string)
    (force : bool) (timeout retry_count : Z) (validate_existing : bool)
    (rate_limit_kbps : Z) (w : world) : option (world * outcome worker_result) :=
  let '(cancelled, w1) := read_cancel w in
  if cancelled then Some (w1, Ret (WorkerResult Cancelled t None))
  else
    let target_dir := task_target_dir picsdir t in
    if negb (os_path_isdir (w_fs w1) target_dir)
    then Some (w1, Ret (WorkerResult Error t
                          (Some ("Target directory not found: " +:+ target_dir))))
    else
      let fname := task_filename repr_other t in
      let outpath := os_path_join target_dir fname in
      if os_path_exists (w_fs w1) outpath && negb force
         && (negb validate_existing || verify_jpeg (w_fs w1) outpath)
      then Some (w1, Ret (WorkerResult Skipped t None))
      else
        match download_file fuel (py_str repr_other (t_url t)) outpath timeout
                retry_count rate_limit_kbps w1 with
        | None => None
        | Some (w2, Raise e) => Some (w2, Raise e)
        | Some (w2, Ret (ok, err)) =>
            if ok then Some (w2, Ret (WorkerResult Success t None))
            else if str_in "Cancelled" (default "None" err)
            then Some (w2, Ret (WorkerResult Cancelled t None))
            else Some (w2, Ret (WorkerResult Error t err))
        end.

End Engine.

(** ** Reading the configuration

    The part of [download_worker_main] that turns the request's JSON
    parameters into the values the run uses. *)

Section Config.

(** [int(s)] on a string: the integer it spells, or [None] for
    [ValueError]. *)
Variable int_of_str : string -> option Z.

(** [int(v)] *)
Definition py_int (v : jval) : outcome Z :=
  match v with
  | JInt z => Ret z
  | JBool b => Ret (if b then 1 else 0)%Z
  | JFloat FNan => Raise (Exn ValueError "cannot convert float NaN to integer")
  | JFloat (FInf _) => Raise (Exn OverflowError "cannot convert float infinity to integer")
  | JFloat (FFinite num den) => Ret (Z.quot num (Z.pos den))
  | JStr s =>
      match int_of_str s with
      | Some z => Ret z
      | None => Raise (Exn ValueError ("invalid literal for int() with base 10: '" +:+ s +:+ "'"))
      end
  | JNull | JArr _ | JObj _ =>
      Raise (Exn TypeError "int() argument must be a string, a bytes-like object or a real number")
  end.

(** [try: x = int(x) / except (ValueError, TypeError): x = dflt] *)
Definition int_or_default (v : jval) (dflt : Z) : outcome Z :=
  match py_int v with
  | Ret z => Ret z
  | Raise e =>
      match e_class e with
      | ValueError | TypeError => Ret dflt
      | _ => Raise e
      end
  end.

Record config := Config {
  cfg_picsdir : jval;
  cfg_force : bool;
  cfg_only_missing : bool;
  cfg_validate_existing : bool;
  cfg_concurrency : Z;
  cfg_timeout : Z;
  cfg_retry : Z;
  cfg_rate_limit_kbps : Z;
  cfg_type_filter : jval;
  cfg_set_filter : jval
}.

Definition read_config (params : gmap string jval) : outcome config :=
  let picsdir := dict_get_default params "picsdir" (JStr "./pics") in
  let force := dict_get_default params "force" (JBool false) in
  let only_missing := dict_get_default params "onlyMissing" (JBool false) in
  let validate_existing := truthy (dict_get_default params "validateExisting" (JBool false)) in
  let concurrency := dict_get_default params "concurrency" (JInt 12) in
  let timeout := dict_get_default params "timeout" (JInt 30) in
  let retry := dict_get_default params "retry" (JInt 3) in
  let rate_limit_kbps := dict_get_default params "maxKbps" (JInt 0) in
  let type_filter := dict_get_default params "typeFilter" (JStr "") in
  let set_filter := dict_get_default params "setFilter" (JStr "") in
  let only_missing := if truthy force then false else truthy only_missing in
  do concurrency <- int_or_default concurrency 12;
  let concurrency := Z.max 1 (Z.min 50 concurrency) in
  do timeout <- int_or_default timeout 30;
  let timeout := Z.max 10 (Z.min 120 timeout) in
  do retry <- int_or_default retry 3;
  let retry := Z.max 1 (Z.min 10 retry) in
  do rate_limit_kbps <- int_or_default rate_limit_kbps 0;
  let rate_limit_kbps := if (rate_limit_kbps <? 0)%Z then 0%Z else rate_limit_kbps in
  Ret (Config picsdir (truthy force) only_missing validate_existing
         concurrency timeout retry rate_limit_kbps type_filter set_filter).

End Config.

(** ** [filter_cards] *)

(** The string of the given bytes *)
Definition utf8 (bytes : list nat) : string :=
  string_of_list_ascii (ascii_of_nat <$> bytes).

(** The white space [str.strip()] removes, as UTF-8: the controls 9-13
    and 28-31, the space, U+0085, U+00A0, U+1680, U+2000 to U+200A,
    U+2028, U+2029, U+202F, U+205F and U+3000. *)
Definition space_seqs : list string :=
  (utf8 <$> [[9]; [10]; [11]; [12]; [13]; [28]; [29]; [30]; [31]; [32];
             [194; 133]; [194; 160]; [225; 154; 128]])
  ++ ((fun b => utf8 [226; 128; b]) <$> List.seq 128 11)
  ++ (utf8 <$> [[226; 128; 168]; [226; 128; 169]; [226; 128; 175]; [226; 129; 159];
                [227; 128; 128]]).

(** The string without one leading white-space character, if it has one. *)
Fixpoint drop_space (seqs : list string) (s : string) : option string :=
  match seqs with
  | [] => None
  | space :: seqs' =>
      match strip_prefix space s with
      | Some rest => Some rest
      | None => drop_space seqs' s
      end
  end.

(** A string loses a byte with every round, so its length bounds them. *)
Fixpoint lstrip_loop (seqs : list string) (fuel : nat) (s : string) : string :=
  match fuel with
  | O => s
  | S fuel' =>
      match drop_space seqs s with
      | Some rest => lstrip_loop seqs fuel' rest
      | None => s
      end
  end.

(** [s.lstrip()] *)
Definition lstrip (s : string) : string := lstrip_loop space_seqs (String.length s) s.

(** [s.rstrip()] *)
Definition rstrip (s : string) : string :=
  String.rev (lstrip_loop (String.rev <$> space_seqs) (String.length s) (String.rev s)).

(** [s.strip()] *)
Definition str_strip (s : string) : string := rstrip (lstrip s).

(** [(v or "")], when a string method is then called on it *)
Definition str_or_empty (v : jval) : outcome string :=
  match py_or v (JStr "") with
  | JStr s => Ret s
  | _ => Raise (Exn AttributeError "object has no attribute 'lower'")
  end.

(** [for s in sets: ...] up to the first match *)
Fixpoint sets_match (set_filter : string) (sets : list jval) : outcome bool :=
  match sets with
  | [] => Ret false
  | JObj s :: rest =>
      do name <- str_or_empty (dict_get s "set_name");
      do code <- str_or_empty (dict_get s "set_code");
      if str_in set_filter (str_lower name) || str_in set_filter (str_lower code)
      then Ret true
      else sets_match set_filter rest
  | _ :: _ => Raise no_get
  end.

(** [card.get("card_sets") or []], as the list the loop walks *)
Definition card_sets (card : gmap string jval) : outcome (list jval) :=
  match py_or (dict_get card "card_sets") (JArr []) with
  | JArr l => Ret l
  | JStr _ | JObj _ => Raise no_get
  | _ => Raise (Exn TypeError "object is not iterable")
  end.

(** Whether the loop body appends [card] to [filtered]. *)
Definition card_passes (type_filter set_filter : string) (card : jval) : outcome bool :=
  do type_ok <-
    (if String.eqb type_filter "" then Ret true
     else match card with
          | JObj c =>
              do ctype <- str_or_empty (dict_get c "type");
              Ret (str_in type_filter (str_lower ctype))
          | _ => Raise no_get
          end);
  if negb type_ok then Ret false
  else if String.eqb set_filter "" then Ret true
  else match card with
       | JObj c => do sets <- card_sets c; sets_match set_filter sets
       | _ => Raise no_get
       end.

Fixpoint filter_cards_loop (type_filter set_filter : string) (cards filtered : list jval)
    : outcome (list jval) :=
  match cards with
  | [] => Ret filtered
  | card :: rest =>
      do keep <- card_passes type_filter set_filter card;
      filter_cards_loop type_filter set_filter rest
        (if keep then filtered ++ [card] else filtered)
  end.

Definition filter_cards (cards : list jval) (type_filter set_filter : jval)
    : outcome (list jval) :=
  if negb (truthy type_filter) && negb (truthy set_filter) then Ret cards
  else
    do type_filter <- str_or_empty type_filter;
    let type_filter := str_lower (str_strip type_filter) in
    do set_filter <- str_or_empty set_filter;
    let set_filter := str_lower (str_strip set_filter) in
    filter_cards_loop type_filter set_filter cards [].

(** ** Normal paths

    The file system is keyed by absolute, normal paths, and paths are
    taken to be so: they start at the root, their components are
    non-empty and none is "." or "..", and only the root ends in a
    separator.  On such a path [os.path.abspath] and
    [os.path.expanduser] change nothing, and they are left out below;
    a property that depends on it says so with [normal_path]. *)

(** [p.split("/")] *)
Fixpoint path_components (p : string) : list string :=
  match p with
  | EmptyString => [EmptyString]
  | String c rest =>
      if Ascii.eqb c "/" then EmptyString :: path_components rest
      else match path_components rest with
           | first :: others => String c first :: others
           | [] => [String c EmptyString]
           end
  end.

Definition normal_component (c : string) : bool :=
  negb (String.eqb c "") && negb (String.eqb c ".") && negb (String.eqb c "..").

Definition normal_path (p : string) : bool :=
  match p with
  | String "/" EmptyString => true
  | String "/" rest => forallb normal_component (path_components rest)
  | _ => false
  end.

(** ** [analyze_pics_path] *)

Record path_info := PathInfo {
  pi_exists : bool;
  pi_is_pics_folder : bool;
  pi_path : option string;
  pi_suggested_path : option string
}.

(** [os.path.basename(p)] *)
Fixpoint last_component (rev_p : list ascii) : list ascii :=
  match rev_p with
  | [] => []
  | c :: r => if Ascii.eqb c "/" then [] else c :: last_component r
  end.

Definition os_path_basename (p : string) : string :=
  string_of_list_ascii (rev (last_component (rev (list_ascii_of_string p)))).

Definition analyze_pics_path (fs : filesystem) (path : string) : path_info :=
  if String.eqb path "" then PathInfo false false None None
  else
    let candidate := str_strip path in
    if negb (os_path_exists fs candidate)
    then PathInfo false false (Some candidate) None
    else if os_path_isdir fs candidate
            && String.eqb (str_lower (os_path_basename candidate)) "pics"
    then PathInfo true true (Some candidate) None
    else
      let pics_sub := os_path_join candidate "pics" in
      if os_path_isdir fs pics_sub
      then PathInfo true false (Some candidate) (Some pics_sub)
      else PathInfo true false (Some candidate) None.

(** ** The coordinator: [download_worker_main] *)

(** [f"{n:,}"] *)
Fixpoint group_thousands (rev_digits : list ascii) : list ascii :=
  match rev_digits with
  | a :: b :: c :: ((_ :: _) as rest) => a :: b :: c :: ","%char :: group_thousands rest
  | _ => rev_digits
  end.

Definition fmt_commas (z : Z) : string :=
  let digits := list_ascii_of_string (str_of_Z (Z.abs z)) in
  let grouped := string_of_list_ascii (rev (group_thousands (rev digits))) in
  if (z <? 0)%Z then "-" +:+ grouped else grouped.

(** [s * n] *)
Fixpoint str_repeat (s : string) (n : nat) : string :=
  match n with
  | O => ""
  | S n' => s +:+ str_repeat s n'
  end.

(** What [write_report] did: the two paths it wrote, or the exception
    that stopped it while creating the folder or while writing. *)
Inductive report_result :=
| ReportWritten (json_path md_path : string)
| ReportFolderError (e : exn)
| ReportError (e : exn).

(** What lies outside the engine, for one run: the answer of the catalog
    request, reduced to the list under its ["data"] key (or the exception
    raised while fetching and decoding it), and the fate of the report. *)
Record collaborators := Collaborators {
  catalog : outcome (list jval);
  report_outcome : report_result
}.

Section Coordinator.

Variable repr_other : jval -> string.
Variable int_of_str : string -> option Z.
Variable env : environment.
Variable ext : collaborators.

Definition log (message type : string) (w : world) : world :=
  with_state (add_log message type) w.

(** The futures, in the order [as_completed] yields them: what
    [future.result()] returns or raises. *)
Inductive future :=
| Done (r : outcome worker_result)
| CancelledFuture.

(** The [try] around [future.result()] in the completion loop. *)
Definition handle_future (f : future) (st : DownloadState) : DownloadState :=
  match f with
  | CancelledFuture => st
  | Done (Raise e) =>
      add_log ("✗ Unexpected error: " +:+ e_msg e) "error" (increment FErrors st)
  | Done (Ret result) =>
      let t := r_task result in
      match r_status result with
      | Success =>
          let st1 := increment FProcessed st in
          if (processed st1 mod 50 =? 0)%Z || (processed st1 <? 10)%Z
          then add_log ("✓ Downloaded: " +:+ fmt_commas (processed st1) +:+ "/"
                        +:+ fmt_commas (total st1)) "success" st1
          else st1
      | Skipped =>
          let st1 := increment FSkipped st in
          if (skipped st1 mod 100 =? 0)%Z
          then add_log ("⊘ Skipped: " +:+ fmt_commas (skipped st1)) "info" st1
          else st1
      | Error =>
          let st1 := increment FErrors st in
          let error_msg := default "Unknown error" (r_error result) in
          let st2 := add_log ("✗ Error in " +:+ py_str repr_other (t_name t) +:+ " (ID: "
                              +:+ py_str repr_other (t_image_id t) +:+ "): " +:+ error_msg)
                       "error" st1 in
          add_error_detail (ErrorDetail (t_image_id t) (t_name t) (t_url t) error_msg) st2
      | Cancelled => st
      end
  end.

(** [for future in as_completed(futures): ...].  With the workers run
    to completion beforehand, [f.cancel()] finds every future done and
    changes none. *)
Fixpoint completion_loop (futures : list future) (cancel_requested : bool)
    (w : world) : world :=
  match futures with
  | [] => w
  | f :: rest =>
      let '(cancelled, w1) := read_cancel env w in
      let '(w2, cancel_requested1) :=
        if cancelled && negb cancel_requested
        then (log "⚠️  Cancellation requested, stopping new downloads..." "warning" w1, true)
        else (w1, cancel_requested) in
      completion_loop rest cancel_requested1 (with_state (handle_future f) w2)
  end.

(** The submitted tasks run to completion one after the other, in the
    order of submission. *)
Fixpoint run_workers (fuel : nat) (tasks : list task) (picsdir : string) (force : bool)
    (timeout retry : Z) (validate_existing : bool) (rate_limit_kbps : Z)
    (w : world) : option (world * list future) :=
  match tasks with
  | [] => Some (w, [])
  | t :: rest =>
      match download_worker_task repr_other env fuel t picsdir force timeout retry
              validate_existing rate_limit_kbps w with
      | None => None
      | Some (w1, r) =>
          match run_workers fuel rest picsdir force timeout retry validate_existing
                  rate_limit_kbps w1 with
          | None => None
          | Some (w2, futures) => Some (w2, Done r :: futures)
          end
      end
  end.

(** The final summary, from the rule line on.  The two lines that print
    the elapsed time and the average speed are left out. *)
Definition final_summary (picsdir : string) (w : world) : world :=
  let w := log "" "info" w in
  let w := log (str_repeat "═" 60) "info" w in
  let '(cancelled, w) := read_cancel env w in
  let w := if cancelled then log "⚠️  DOWNLOAD CANCELLED" "warning" w
           else log "✅ DOWNLOAD COMPLETED" "success" w in
  let w := log (str_repeat "═" 60) "info" w in
  let st := w_state w in
  let w := log "📊 Final Statistics:" "info" w in
  let w := log ("   • Total images: " +:+ fmt_commas (total st)) "info" w in
  let w := log ("   • ✓ Downloaded: " +:+ fmt_commas (processed st)) "success" w in
  let w := log ("   • ⊘ Skipped: " +:+ fmt_commas (skipped st)) "info" w in
  let w := log ("   • ✗ Errors: " +:+ fmt_commas (errors st))
             (if (0 <? errors st)%Z then "error" else "info") w in
  let w := log "" "info" w in
  let w := log ("📁 Images saved to: " +:+ picsdir) "info" w in
  let w := if (0 <? errors st)%Z
           then log ("⚠️  " +:+ str_of_Z (errors st)
                     +:+ " errors occurred. Check details above.") "warning" w
           else w in
  match report_outcome ext with
  | ReportWritten json_path md_path =>
      let w := log ("📝 Report (JSON): " +:+ json_path) "info" w in
      let w := log ("📝 Report (MD): " +:+ md_path) "info" w in
      with_state (set_report (Some (json_path, md_path))) w
  | ReportFolderError e => log ("Report folder error: " +:+ e_msg e) "error" w
  | ReportError e => log ("Report error: " +:+ e_msg e) "error" w
  end.

(** From [state.total = len(tasks)] to the end of the [try] body. *)
Definition run_downloads (fuel : nat) (tasks : list task) (picsdir : string)
    (cfg : config) (w : world) : option world :=
  let w := with_state (set_total (Z.of_nat (length tasks))) w in
  if (total (w_state w) =? 0)%Z
  then Some (with_state (set_running false)
               (log "✅ All images already downloaded" "success" w))
  else
    let w := log ("✅ Prepared " +:+ fmt_commas (total (w_state w))
                  +:+ " images for download") "success" w in
    let w := log ("⚙️  Configuration: " +:+ str_of_Z (cfg_concurrency cfg)
                  +:+ " parallel downloads, " +:+ str_of_Z (cfg_retry cfg)
                  +:+ " retries, " +:+ str_of_Z (cfg_timeout cfg) +:+ "s timeout")
               "info" w in
    let w := log ("⚙️  Mode: " +:+ (if cfg_force cfg then "Force replace" else "Skip existing"))
               "info" w in
    let w := if negb (cfg_rate_limit_kbps cfg =? 0)%Z
             then log ("⚙️  Rate limit: " +:+ str_of_Z (cfg_rate_limit_kbps cfg)
                       +:+ " KB/s per download") "info" w
             else w in
    let w := if cfg_validate_existing cfg
             then log "⚙️  Validate existing: enabled" "info" w else w in
    let w := log "" "info" w in
    let w := log "🚀 Starting downloads..." "info" w in
    match run_workers fuel tasks picsdir (cfg_force cfg) (cfg_timeout cfg) (cfg_retry cfg)
            (cfg_validate_existing cfg) (cfg_rate_limit_kbps cfg) w with
    | None => None
    | Some (w1, futures) =>
        Some (final_summary picsdir (completion_loop futures false w1))
    end.

(** [finally: state.running = False] *)
Definition finish (w : world) : world := with_state (set_running false) w.

(** [except Exception as e: state.add_log(f"❌ FATAL ERROR: {e}", 'error')] *)
Definition fatal (e : exn) (w : world) : world :=
  finish (log ("❌ FATAL ERROR: " +:+ e_msg e) "error" w).

(** [download_worker_main(params)].  Saving the configuration file is
    left out. *)
Definition download_worker_main (fuel : nat) (params : jval) (w : world) : option world :=
  let w := with_state (fun st => set_start_time (w_tick w)
                                   (set_flags false (pause_flag st) (set_running true st))) w in
  let w := log "🚀 Starting downloader..." "info" w in
  match params with
  | JObj params =>
    match read_config int_of_str params with
    | Raise e => Some (fatal e w)
    | Ret cfg =>
      match cfg_picsdir cfg with
      | JStr picsdir0 =>
        let info0 := analyze_pics_path (w_fs w) picsdir0 in
        let '(w, picsdir, info) :=
          match pi_suggested_path info0 with
          | Some suggested =>
              (log ("ℹ️  Selected folder contains 'pics'. Using: " +:+ suggested) "info" w,
               suggested, analyze_pics_path (w_fs w) suggested)
          | None => (w, default (str_strip picsdir0) (pi_path info0), info0)
          end in
        if negb (pi_exists info) || negb (pi_is_pics_folder info)
        then Some (finish (log ("❌ Invalid pics directory: " +:+ picsdir) "error" w))
        else if negb (os_path_isdir (w_fs w) picsdir)
        then Some (finish (log ("❌ Pics directory not accessible: " +:+ picsdir) "error" w))
        else
          let w := log ("📁 Output directory: " +:+ picsdir) "info" w in
          let w := if negb (os_path_isdir (w_fs w) (os_path_join picsdir "field"))
                   then log "⚠️  Field folder not found (pics/field). It will be created by EDOPro if needed."
                          "warning" w
                   else w in
          let w := log "📡 Connecting to YGOProDeck API..." "info" w in
          match catalog ext with
          | Raise e =>
              Some (finish (log ("❌ API connection error: " +:+ e_msg e) "error"
                              (with_state (set_api_error (e_msg e)) w)))
          | Ret [] => Some (finish (log "❌ No data received from API" "error" w))
          | Ret cards =>
              let w := log ("✅ Received " +:+ fmt_commas (Z.of_nat (length cards))
                            +:+ " cards from API") "success" w in
              let w := log "🔨 Preparing download list..." "info" w in
              match filter_cards cards (cfg_type_filter cfg) (cfg_set_filter cfg) with
              | Raise e => Some (fatal e w)
              | Ret filtered_cards =>
                  match build_download_tasks filtered_cards with
                  | Raise e => Some (fatal e w)
                  | Ret tasks0 =>
                      let original_count := Z.of_nat (length tasks0) in
                      let tasks := filter_tasks repr_other (w_fs w) tasks0 picsdir
                                     (cfg_only_missing cfg) (cfg_validate_existing cfg) in
                      let filtered_out := (original_count - Z.of_nat (length tasks))%Z in
                      let w := if (0 <? filtered_out)%Z
                               then log ("ℹ️  Filtered " +:+ fmt_commas filtered_out
                                         +:+ " existing images") "info" w
                               else w in
                      match run_downloads fuel tasks picsdir cfg w with
                      | None => None
                      | Some w1 => Some (finish w1)
                      end
                  end
              end
          end
      | _ => Some (fatal (Exn AttributeError "object has no attribute 'strip'") w)
      end
    end
  | _ => Some (fatal no_get w)
  end.

End Coordinator.

(** What one future adds to the counters. *)
Definition counts_as (f : future) : Z :=
  match f with
  | CancelledFuture => 0
  | Done (Raise _) => 1
  | Done (Ret result) => match r_status result with Cancelled => 0 | _ => 1 end
  end%Z.

(** ** The request handler: [RequestHandler.do_POST]

    The four paths that drive the engine.  The server holds the shared
    state, the worker threads it has started (with their parameters) and
    the settings it last saved. *)

Inductive api_path := ApiPause | ApiResume | ApiStart | ApiCancel.

Record http_response := HttpResponse {
  http_code : Z;
  http_body : string * string
}.

Record server := Server {
  srv_state : DownloadState;
  srv_threads : list jval;
  srv_last_settings : option jval
}.

(** [body] is the request body after [json.loads], [None] when that
    raises [JSONDecodeError]. *)
Definition do_POST (path : api_path) (body : option jval) (srv : server)
    : http_response * server :=
  match path with
  | ApiPause =>
      (HttpResponse 200 ("status", "paused"),
       Server (apply_control CtlPause (srv_state srv)) (srv_threads srv)
              (srv_last_settings srv))
  | ApiResume =>
      (HttpResponse 200 ("status", "resumed"),
       Server (apply_control CtlResume (srv_state srv)) (srv_threads srv)
              (srv_last_settings srv))
  | ApiStart =>
      match body with
      | None => (HttpResponse 400 ("error", "Invalid JSON"), srv)
      | Some params =>
          if running (srv_state srv)
          then (HttpResponse 409 ("error", "Download already in progress"), srv)
          else (HttpResponse 200 ("status", "started"),
                Server (reset (srv_state srv)) (srv_threads srv ++ [params]) (Some params))
      end
  | ApiCancel =>
      (HttpResponse 200 ("status", "cancelling"),
       Server (apply_control CtlCancel (srv_state srv)) (srv_threads srv)
              (srv_last_settings srv))
  end.

(** ** The preview: [do_POST] on [/api/preview] *)

Inductive preview_response :=
| PreviewBadRequest
| PreviewError (message : string)
| PreviewCounts (total_cards total_tasks to_download : Z).

(** [body] is the request body after [json.loads], [None] when that
    raises [JSONDecodeError]; [api_answer] is what the catalog request
    gives, as for a run.  An exception the handler does not catch is
    raised.  A suggested path is a joined path and never empty, so its
    truth value is its presence. *)
Definition api_preview (repr_other : jval -> string) (fs : filesystem)
    (api_answer : outcome (list jval)) (body : option jval) : outcome preview_response :=
  match body with
  | None => Ret PreviewBadRequest
  | Some (JObj params) =>
      match dict_get_default params "picsdir" (JStr "") with
      | JStr raw =>
          let picsdir := str_strip raw in
          let force := dict_get_default params "force" (JBool false) in
          let only_missing := dict_get_default params "onlyMissing" (JBool false) in
          let validate_existing :=
            dict_get_default params "validateExisting" (JBool false) in
          let only_missing := if truthy force then false else truthy only_missing in
          let validate_existing :=
            if truthy force then false else truthy validate_existing in
          let type_filter := dict_get_default params "typeFilter" (JStr "") in
          let set_filter := dict_get_default params "setFilter" (JStr "") in
          let info0 := analyze_pics_path fs picsdir in
          let '(picsdir, info) :=
            match pi_suggested_path info0 with
            | Some suggested => (suggested, analyze_pics_path fs suggested)
            | None => (picsdir, info0)
            end in
          if negb (pi_exists info)
             || (negb (pi_is_pics_folder info)
                 && negb (bool_decide (is_Some (pi_suggested_path info))))
          then Ret (PreviewError "Invalid pics directory")
          else
            match api_answer with
            | Raise e => Ret (PreviewError ("API error: " +:+ e_msg e))
            | Ret cards =>
                do filtered_cards <- filter_cards cards type_filter set_filter;
                do tasks <- build_download_tasks filtered_cards;
                let filtered_tasks :=
                  filter_tasks repr_other fs tasks picsdir only_missing validate_existing in
                Ret (PreviewCounts (Z.of_nat (length filtered_cards))
                       (Z.of_nat (length tasks)) (Z.of_nat (length filtered_tasks)))
            end
      | _ => Raise (Exn AttributeError "object has no attribute 'strip'")
      end
  | Some _ => Raise no_get
  end.

(** ** The path check: [do_POST] on [/api/validate-path] *)

Inductive validate_response :=
| ValidateInvalidJSON
| ValidateInfo (valid exists_ is_pics_folder : bool) (path suggested_path : option string).

(** The handler catches [JSONDecodeError] only; what [get] and [strip]
    raise on a body of another shape goes through. *)
Definition api_validate_path (fs : filesystem) (body : option jval)
    : outcome validate_response :=
  match body with
  | None => Ret ValidateInvalidJSON
  | Some (JObj params) =>
      match dict_get_default params "path" (JStr "") with
      | JStr raw =>
          let info := analyze_pics_path fs (str_strip raw) in
          Ret (ValidateInfo
                 (pi_exists info
                  && (pi_is_pics_folder info
                      || bool_decide (is_Some (pi_suggested_path info))))
                 (pi_exists info) (pi_is_pics_folder info)
                 (if pi_exists info then pi_path info else None)
                 (pi_suggested_path info))
      | _ => Raise (Exn AttributeError "object has no attribute 'strip'")
      end
  | Some _ => Raise no_get
  end.

(** ** Finding a free port: [find_free_port] *)

Definition DEFAULT_PORT : Z := 8765.

Section Ports.

(** What the system lets through, port by port: creating the socket and
    setting its option without [OSError], and binding it to the port on
    localhost and closing it without [OSError]. *)
Variable can_open : Z -> bool.
Variable can_bind : Z -> bool.






End Ports.

(** ** The saved configuration

    The file at [CONFIG_FILE]: absent, unreadable as JSON (with the text
    of the exception), or holding a JSON value; and what writing it
    comes to. *)

Inductive config_content :=
| NoConfig
| BadConfig (error : string)
| StoredConfig (v : jval).

(** Writing goes through; or [open(CONFIG_FILE, 'w')] raises, and the
    file stays as it is; or [json.dump] raises after the open has emptied
    the file, which is left with a part of the text at most, unreadable
    as JSON (with the text [json.load] raises on it). *)
Inductive write_outcome :=
| Written
| OpenFails (error : string)
| DumpFails (error : string) (unreadable : string).

Record config_file := ConfigFile {
  cf_content : config_content;
  cf_write : write_outcome
}.

(** [type(v).__name__] *)
Definition type_name (v : jval) : string :=
  match v with
  | JNull => "NoneType"
  | JBool _ => "bool"
  | JInt _ => "int"
  | JFloat _ => "float"
  | JStr _ => "str"
  | JArr _ => "list"
  | JObj _ => "dict"
  end.

(** [load_config()] *)
Definition load_config (cf : config_file) : jval :=
  match cf_content cf with
  | StoredConfig v => v
  | _ => JObj ∅
  end.

(** [save_config(config)] for a dict [config]: the result, the state
    (which takes the log line of a failure) and the file. *)
Definition save_config (config : gmap string jval) (st : DownloadState)
    (cf : config_file) : bool * DownloadState * config_file :=
  let failed (error : string) :=
    (false, add_log ("Failed to save config: " +:+ error) "error" st, cf) in
  (* [current = {}], or what the file holds *)
  let current :=
    match cf_content cf with
    | NoConfig => Ret (JObj ∅)
    | BadConfig error => Raise (Exn ValueError error)
    | StoredConfig v => Ret v
    end in
  match current with
  | Raise e => failed (e_msg e)
  | Ret (JObj current) =>
      (* [current.update(config or {})] *)
      let updated := config ∪ current in
      match cf_write cf with
      | Written => (true, st, ConfigFile (StoredConfig (JObj updated)) Written)
      | OpenFails error => failed error
      | DumpFails error unreadable =>
          (false, add_log ("Failed to save config: " +:+ error) "error" st,
           ConfigFile (BadConfig unreadable) (cf_write cf))
      end
  | Ret v => failed ("'" +:+ type_name v +:+ "' object has no attribute 'update'")
  end.

(** ** Walking up to a pics folder: [find_pics_in_parents] *)

(** [while True: ...], with [fuel] iterations allowed; [None] when they
    run out. *)
Fixpoint find_pics_loop (fuel : nat) (fs : filesystem) (current : string) (levels : Z)
    (max_levels : option Z) : option (option string) :=
  match fuel with
  | O => None
  | S fuel' =>
      let candidate := os_path_join current "pics" in
      if os_path_isdir fs candidate then Some (Some candidate)
      else
        let parent := os_path_dirname current in
        if String.eqb parent current then Some None
        else
          let levels := (levels + 1)%Z in
          match max_levels with
          | Some m =>
              if (m <=? levels)%Z then Some None
              else find_pics_loop fuel' fs parent levels max_levels
          | None => find_pics_loop fuel' fs parent levels max_levels
          end
  end.

(** [find_pics_in_parents(start_dir, max_levels)], on absolute and
    normal paths as for [analyze_pics_path]: a path loses a character
    with every step up, so its length bounds the walk. *)
Definition find_pics_in_parents (fs : filesystem) (start_dir : string)
    (max_levels : option Z) : option string :=
  match find_pics_loop (S (String.length start_dir)) fs start_dir 0 max_levels with
  | Some found => found
  | None => None
  end.

(** ** The vocabulary of the properties *)

(** Whether the byte occurs in a white-space sequence after its first
    position, and whether it is its first byte. *)
Definition later_byte (b : ascii) (space : string) : bool :=
  match space with
  | String _ rest => bool_decide (b ∈ list_ascii_of_string rest)
  | EmptyString => false
  end.

Definition first_byte (b : ascii) (space : string) : bool :=
  match space with
  | String a _ => Ascii.eqb a b
  | EmptyString => false
  end.

(** The classes the retry handler of [download_file] names. *)
Definition retryable (c : exn_class) : bool :=
  match c with
  | URLError | HTTPError | ValueError | OSError => true
  | _ => false
  end.

Definition status_eqb (a b : status) : bool :=
  match a, b with
  | Success, Success | Skipped, Skipped | Error, Error | Cancelled, Cancelled => true
  | _, _ => false
  end.

(** The future returned a result with this status. *)
Definition returned_with (s : status) (f : future) : bool :=
  match f with
  | Done (Ret result) => status_eqb (r_status result) s
  | _ => false
  end.

(** The future raised an exception other than [CancelledError]. *)
Definition raised (f : future) : bool :=
  match f with
  | Done (Raise _) => true
  | _ => false
  end.

Definition count_where (p : future -> bool) (futures : list future) : Z :=
  Z.of_nat (length (List.filter p futures)).

(** The entry of [error_details] a future gives rise to, if any. *)
Definition error_detail_of (f : future) : option error_detail :=
  match f with
  | Done (Ret result) =>
      match r_status result with
      | Error =>
          let t := r_task result in
          Some (ErrorDetail (t_image_id t) (t_name t) (t_url t)
                  (default "Unknown error" (r_error result)))
      | _ => None
      end
  | _ => None
  end.

(** The counters, the total and the error list of [st'] are those of [st]. *)
Definition same_tallies (st st' : DownloadState) : Prop :=
  processed st' = processed st /\ skipped st' = skipped st /\ errors st' = errors st
  /\ total st' = total st /\ error_details st' = error_details st.

(** The card is a dict whose type, lowered, contains [needle]. *)
Definition card_matches_type (needle : string) (card : jval) : Prop :=
  exists c ty, card = JObj c
    /\ str_or_empty (dict_get c "type") = Ret ty
    /\ str_in needle (str_lower ty) = true.

(** The card is a dict one of whose sets has a name or a code that,
    lowered, contains [needle]. *)
Definition card_matches_set (needle : string) (card : jval) : Prop :=
  exists c sets s name code, card = JObj c
    /\ card_sets c = Ret sets
    /\ JObj s ∈ sets
    /\ str_or_empty (dict_get s "set_name") = Ret name
    /\ str_or_empty (dict_get s "set_code") = Ret code
    /\ str_in needle (str_lower name) || str_in needle (str_lower code) = true.

(** A task as [build_download_tasks] makes them: a truthy URL, and
    either standard art under its image's own truthy id or a field crop
    under the card's id. *)
Definition task_shape (t : task) : Prop :=
  truthy (t_url t) = true
  /\ ((t_subfolder t = "" /\ truthy (t_image_id t) = true)
      \/ (t_subfolder t = "field" /\ t_image_id t = t_card_id t)).

(** The four numeric settings: anything but an infinite number is
    accepted. *)
Definition finite_setting (params : gmap string jval) (key : string) : Prop :=
  forall negative, params !! key ≠ Some (JFloat (FInf negative)).

(** A file that is absent or holds a dict. *)
Definition config_readable (cf : config_file) : Prop :=
  cf_content cf = NoConfig \/ exists d, cf_content cf = StoredConfig (JObj d).

(** A file that is absent or holds a dict, and can be written. *)
Definition config_healthy (cf : config_file) : Prop :=
  cf_write cf = Written /\ config_readable cf.

(** [a] is [start] or one of its parents, [n] steps up. *)
Definition parent_at (n : nat) (start : string) : string :=
  Nat.iter n os_path_dirname start.

(** ** Concrete inputs *)

(** A stand-in for [lower] beyond ASCII; the inputs below are ASCII. *)
Definition plain_text : Unicode := {| lower_other := fun s => s |}.

(** A stand-in for Python's rendering of floats, lists and dicts; none of
    the inputs below formats one. *)
Definition repr_unmodelled (v : jval) : string := "".

(** [int()] on plain decimal literals, with surrounding blanks and an
    optional sign. *)
Definition int_of_decimal (s : string) : option Z :=
  match str_strip s with
  | String "+" digits => Z.of_uint <$> NilZero.uint_of_string digits
  | literal => Z.of_int <$> NilZero.int_of_string literal
  end.

(** No control request is ever served. *)
Definition no_controls : nat -> list control := fun _ => [].

Definition obj (members : list (string * jval)) : gmap string jval := list_to_map members.

(** The two catalog entries of the specification's scenarios. *)
Definition spell_card : gmap string jval :=
  obj [("id", JInt 1); ("name", JStr "X"); ("type", JStr "Spell Card");
       ("card_images", JArr [JObj (obj [("id", JInt 1); ("image_url", JStr "u1")])])].

Definition field_image : gmap string jval :=
  obj [("id", JInt 2); ("image_url", JStr "u2"); ("image_url_cropped", JStr "c2")].

Definition field_card : gmap string jval :=
  obj [("id", JInt 2); ("type", JStr "Field Spell Card");
       ("card_images", JArr [JObj field_image])].

Definition spell_task : task := Task (JInt 1) (JStr "X") (JInt 1) (JStr "u1") "".

Definition field_task : task :=
  Task (JInt 2) (JStr "Unknown") (JInt 2) (JStr "c2") "field".

(** A card with four images, of which only the second has both a truthy
    id and a URL. *)
Definition patchy_images : list (gmap string jval) :=
  [obj [("id", JInt 0); ("image_url", JStr "u0")];
   obj [("id", JInt 3); ("image_url", JStr "u3")];
   obj [("image_url", JStr "u4")];
   obj [("id", JInt 5)]].

Definition patchy_card : gmap string jval :=
  obj [("id", JInt 3); ("name", JStr "P"); ("type", JStr "Effect Monster");
       ("card_images", JArr (JObj <$> patchy_images))].

(** A well-formed JPEG of 1024 bytes and a truncated one. *)
Definition good_jpeg : list byte := [xff; xd8] ++ replicate 1020 x00 ++ [xff; xd9].
Definition truncated_jpeg : list byte := [xff; xd8; x00].

Definition task5 : task := Task (JInt 5) (JStr "Five") (JInt 5) (JStr "u5") "".
Definition task6 : task := Task (JInt 6) (JStr "Six") (JInt 6) (JStr "u6") "".

(** [pics] holding a valid [5.jpg] and a truncated [6.jpg]. *)
Definition pics_with_files : filesystem :=
  list_to_map [("/pics", Dir);
               ("/pics/5.jpg", File good_jpeg true false);
               ("/pics/6.jpg", File truncated_jpeg true false)].

(** [pics] alone, without its [field] subdirectory. *)
Definition pics_only : filesystem := {["/pics" := Dir]}.

(** [pics] with a [1.jpg.part] left behind, removable or locked. *)
Definition pics_with_part (locked : bool) : filesystem :=
  list_to_map [("/pics", Dir); ("/pics/1.jpg.part", File truncated_jpeg true locked)].

Definition fresh_world (fs : filesystem) : world := World initial_state fs 0 [].

(** The server delivers a valid image to every request. *)
Definition serving : environment :=
  Env no_controls (fun _ _ => Response (Some "image/jpeg") [Chunk good_jpeg]).

(** The server answers every request with status 503 and the reason
    phrase "Cancelled". *)
Definition refusing : environment :=
  Env no_controls (fun _ _ => ConnError (Exn HTTPError "HTTP Error 503: Cancelled")).

Definition one_spell_catalog : collaborators :=
  Collaborators (Ret [JObj spell_card]) (ReportWritten "report.json" "report.md").

Definition start_params : jval := JObj {["picsdir" := JStr "/pics"]}.

(** A server on which nothing has been started yet. *)
Definition idle_server : server := Server initial_state [] None.

Definition running_server : server :=
  Server (set_running true initial_state) [start_params] (Some start_params).

(** A game folder with its [pics] inside. *)
Definition game_folder : filesystem := list_to_map [("/game", Dir); ("/game/pics", Dir)].

(** A world in which cancellation has been requested. *)
Definition cancelled_world (fs : filesystem) : world :=
  World (set_flags true false initial_state) fs 0 [].

Definition pics_request : gmap string jval := {["picsdir" := JStr "/pics"]}.

(** A request whose numeric settings are a word, a null and a number
    out of range. *)
Definition odd_request : gmap string jval :=
  obj [("picsdir", JStr "/pics"); ("concurrency", JStr "many"); ("timeout", JNull);
       ("retry", JInt 99)].

Definition no_config_file : config_file := ConfigFile NoConfig Written.
Definition list_config_file : config_file := ConfigFile (StoredConfig (JArr [])) Written.

(** A config file on a disk that is full. *)
Definition full_disk_config_file : config_file :=
  ConfigFile (StoredConfig (JObj pics_request))
    (DumpFails "[Errno 28] No space left on device"
       "Expecting value: line 1 column 1 (char 0)").

(** A catalog of one card whose image is the valid [5.jpg] of
    [pics_with_files], and a request for it with [force] and
    [validateExisting] both set. *)
Definition five_catalog : collaborators :=
  Collaborators
    (Ret [JObj (obj [("id", JInt 5); ("name", JStr "Five"); ("type", JStr "Spell Card");
                     ("card_images",
                      JArr [JObj (obj [("id", JInt 5); ("image_url", JStr "u5")])])])])
    (ReportWritten "report.json" "report.md").

Definition forced_validation : gmap string jval :=
  obj [("picsdir", JStr "/pics"); ("force", JBool true); ("validateExisting", JBool true)].

(** * Properties *)

(** ** Task derivation *)

Lemma bind_ret {A B} (a : A) (k : A -> outcome B) : bind (Ret a) k = k a.
Proof. reflexivity. Qed.

Lemma images_loop_acc card_id name images acc :
  images_loop card_id name images acc =
  do ts <- images_loop card_id name images []; Ret (acc ++ ts).
Proof.
  revert acc. induction images as [|img rest IH]; intros acc; simpl.
  - by rewrite app_nil_r.
  - destruct img; try reflexivity.
    rewrite IH. rewrite (IH (append_image_task _ _ _ [])).
    destruct (images_loop card_id name rest []) as [ts|e]; simpl; [|done].
    unfold append_image_task. case_match; simpl; [|done].
    by rewrite <- app_assoc.
Qed.

Lemma images_loop_dicts card_id name (imgs : list (gmap string jval)) :
  images_loop card_id name (JObj <$> imgs) [] = Ret (omap (image_task card_id name) imgs).
Proof.
  induction imgs as [|img rest IH]; [done|].
  rewrite fmap_cons. cbn [images_loop omap list_omap].
  rewrite images_loop_acc, IH. simpl.
  unfold append_image_task, image_task. by case_match.
Qed.

Lemma append_field_task_dicts card (imgs : list (gmap string jval)) acc :
  append_field_task (dict_get card "id") (dict_get_default card "name" (JStr "Unknown"))
    (JObj <$> imgs) acc = Ret (acc ++ field_crop_tasks card imgs).
Proof.
  destruct imgs as [|first_img rest]; simpl.
  - by rewrite app_nil_r.
  - destruct (bool_decide (first_img = ∅)) eqn:He; simpl.
    + apply bool_decide_eq_true in He. subst first_img.
      unfold dict_get. rewrite lookup_empty. simpl. by rewrite app_nil_r.
    + case_match; [done|]. by rewrite app_nil_r.
Qed.

Lemma card_step_acc card acc :
  card_step card acc = do ts <- card_step card []; Ret (acc ++ ts).
Proof.
  destruct card; try reflexivity. simpl.
  destruct (card_images d) as [images|e]; simpl; [|done].
  rewrite images_loop_acc.
  destruct (images_loop _ _ images []) as [ts|e]; simpl; [|done].
  destruct (is_field_spell _) as [[|]|e]; simpl; try done.
  destruct images as [|first_img rest]; simpl; [done|].
  destruct (truthy first_img); [|done].
  destruct first_img; try done.
  case_match; simpl; [|done]. by rewrite <- app_assoc.
Qed.

Lemma cards_loop_acc cards acc :
  cards_loop cards acc = do ts <- cards_loop cards []; Ret (acc ++ ts).
Proof.
  revert acc. induction cards as [|card rest IH]; intros acc; simpl.
  - by rewrite app_nil_r.
  - rewrite card_step_acc.
    destruct (card_step card []) as [ts|e]; simpl; [|done].
    rewrite IH, (IH ts).
    destruct (cards_loop rest []) as [ts'|e]; simpl; [|done].
    by rewrite <- app_assoc.
Qed.

Lemma build_download_tasks_cons card rest :
  build_download_tasks (card :: rest) =
  do ts <- card_step card []; do ts' <- build_download_tasks rest; Ret (ts ++ ts').
Proof.
  unfold build_download_tasks. simpl.
  destruct (card_step card []) as [ts|e]; simpl; [|done].
  by rewrite cards_loop_acc.
Qed.

Lemma build_download_tasks_app cards1 cards2 :
  build_download_tasks (cards1 ++ cards2) =
  do ts <- build_download_tasks cards1;
  do ts' <- build_download_tasks cards2; Ret (ts ++ ts').
Proof.
  induction cards1 as [|card rest IH]; simpl.
  - change (build_download_tasks []) with (Ret (@nil task)).
    by destruct (build_download_tasks cards2).
  - rewrite !build_download_tasks_cons, IH.
    destruct (card_step card []) as [ts|e]; simpl; [|done].
    destruct (build_download_tasks rest) as [ts1|e]; simpl; [|done].
    destruct (build_download_tasks cards2) as [ts2|e]; simpl; [|done].
    by rewrite <- app_assoc.
Qed.

(** A card whose images are all dicts and whose type can be tested
    contributes its standard-art tasks, then its field-crop task if it is
    a field spell; the tasks of the cards before and after it stay in
    place. *)
Lemma build_download_tasks_card before card (imgs : list (gmap string jval)) after
    tasks_before tasks_after (field_spell : bool) :
  build_download_tasks before = Ret tasks_before ->
  build_download_tasks after = Ret tasks_after ->
  card_images card = Ret (JObj <$> imgs) ->
  is_field_spell (dict_get_default card "type" (JStr "")) = Ret field_spell ->
  build_download_tasks (before ++ JObj card :: after) =
  Ret (tasks_before ++ standard_tasks card imgs
       ++ (if field_spell then field_crop_tasks card imgs else [])
       ++ tasks_after).
Proof.
  intros Hb Ha Himgs Hfs.
  rewrite build_download_tasks_app, Hb, build_download_tasks_cons, Ha. simpl.
  rewrite Himgs. simpl. rewrite images_loop_dicts. simpl. rewrite Hfs. simpl.
  destruct field_spell.
  - rewrite append_field_task_dicts. simpl. by rewrite <- !app_assoc.
  - done.
Qed.

Lemma image_task_inv card_id name img t :
  image_task card_id name img = Some t ->
  truthy (dict_get img "id") = true /\ truthy (dict_get img "image_url") = true /\
  t = Task card_id name (dict_get img "id") (dict_get img "image_url") "".
Proof.
  unfold image_task. destruct (truthy (dict_get img "id")); simpl; [|done].
  destruct (truthy (dict_get img "image_url")); [|done].
  intros [= <-]. done.
Qed.

Lemma omap_length_filter {A B} (f : A -> option B) (l : list A) :
  length (omap f l) = length (List.filter (fun a => bool_decide (is_Some (f a))) l).
Proof.
  induction l as [|a l IH]; simpl; [done|].
  destruct (f a) as [b|]; simpl.
  - f_equal. apply IH.
  - apply IH.
Qed.

(** C5: a card whose type string contains both "Field" and "Spell" gets,
    after its standard-art tasks, one more task when its first image has
    a cropped-art URL: that URL, subfolder "field", and the card's own id
    as image id.  The tasks of the other cards stay where the catalog
    order puts them and nothing is deduplicated. *)
Theorem build_download_tasks_field_spell before card (imgs : list (gmap string jval))
    after tasks_before tasks_after card_type :
  build_download_tasks before = Ret tasks_before ->
  build_download_tasks after = Ret tasks_after ->
  card_images card = Ret (JObj <$> imgs) ->
  card !! "type" = Some (JStr card_type) ->
  str_in "Field" card_type = true ->
  str_in "Spell" card_type = true ->
  build_download_tasks (before ++ JObj card :: after) =
    Ret (tasks_before ++ standard_tasks card imgs ++ field_crop_tasks card imgs
         ++ tasks_after)
  /\ field_crop_tasks card imgs =
       match imgs with
       | first_img :: _ =>
           if truthy (dict_get first_img "image_url_cropped")
           then [Task (dict_get card "id") (dict_get_default card "name" (JStr "Unknown"))
                   (dict_get card "id") (dict_get first_img "image_url_cropped") "field"]
           else []
       | [] => []
       end
  /\ (forall t, t ∈ field_crop_tasks card imgs ->
        t_subfolder t = "field" /\ t_image_id t = dict_get card "id").
Proof.
  intros Hb Ha Himgs Hty HF HS. split; [|split].
  - apply (build_download_tasks_card before card imgs after _ _ true); try done.
    unfold dict_get_default. rewrite Hty. simpl.
    unfold is_field_spell. simpl. rewrite HF. simpl. by rewrite HS.
  - done.
  - intros t. unfold field_crop_tasks. destruct imgs as [|first_img rest].
    + by intros ?%elem_of_nil.
    + case_match.
      * intros ->%list_elem_of_singleton. done.
      * by intros ?%elem_of_nil.
Qed.

(** C9: among the tasks of a card, the standard-art ones are exactly one
    per image whose [id] and [image_url] are both truthy; an image with
    no id, no URL or the id 0 yields no task, and the call still returns
    normally, with fewer standard-art tasks than images. *)
Theorem build_download_tasks_standard before card (imgs : list (gmap string jval))
    after tasks_before tasks_after (field_spell : bool) :
  build_download_tasks before = Ret tasks_before ->
  build_download_tasks after = Ret tasks_after ->
  card_images card = Ret (JObj <$> imgs) ->
  is_field_spell (dict_get_default card "type" (JStr "")) = Ret field_spell ->
  build_download_tasks (before ++ JObj card :: after) =
    Ret (tasks_before ++ standard_tasks card imgs
         ++ (if field_spell then field_crop_tasks card imgs else [])
         ++ tasks_after)
  /\ (forall t, t ∈ standard_tasks card imgs <->
        exists img, img ∈ imgs
          /\ truthy (dict_get img "id") = true
          /\ truthy (dict_get img "image_url") = true
          /\ t = Task (dict_get card "id") (dict_get_default card "name" (JStr "Unknown"))
                   (dict_get img "id") (dict_get img "image_url") "")
  /\ (forall img card_id name,
        img !! "id" = None \/ img !! "id" = Some (JInt 0) \/ img !! "image_url" = None ->
        image_task card_id name img = None)
  /\ length (standard_tasks card imgs) =
       length (List.filter (fun img => truthy (dict_get img "id")
                                       && truthy (dict_get img "image_url")) imgs)
  /\ (length (standard_tasks card imgs) <= length imgs)%nat.
Proof.
  intros Hb Ha Himgs Hfs. split; [|split; [|split; [|split]]].
  - by apply build_download_tasks_card.
  - intros t. unfold standard_tasks. rewrite list_elem_of_omap. split.
    + intros (img & Hin & Ht). exists img. split; [done|].
      by apply image_task_inv.
    + intros (img & Hin & Hid & Hurl & ->). exists img. split; [done|].
      unfold image_task. by rewrite Hid, Hurl.
  - intros img card_id name H. unfold image_task, dict_get.
    destruct H as [-> | [-> | ->]]; simpl; [done|done|].
    by rewrite andb_false_r.
  - unfold standard_tasks. rewrite omap_length_filter. f_equal.
    apply List.filter_ext. intros img. unfold image_task.
    destruct (truthy (dict_get img "id") && truthy (dict_get img "image_url")).
    + by rewrite bool_decide_eq_true_2 by eauto.
    + by rewrite bool_decide_eq_false_2 by (intros [? ?]; done).
  - unfold standard_tasks. rewrite omap_length_filter. apply List.filter_length_le.
Qed.

(** ** The integrity check *)

(** C4: [verify_jpeg] accepts a path exactly when the file there can be
    read, holds at least 1024 bytes, starts with FF D8 and ends with
    FF D9. *)
Theorem verify_jpeg_accepts_iff (fs : filesystem) (path : string) :
  verify_jpeg fs path = true <->
  exists data,
    open_rb fs path = Some data
    /\ (1024 <= length data)%nat
    /\ take 2 data = [xff; xd8]
    /\ drop (length data - 2) data = [xff; xd9].
Proof.
  unfold verify_jpeg. split.
  - destruct (open_rb fs path) as [data|]; [|done].
    destruct (bool_decide (take 2 data = [xff; xd8])) eqn:Hsoi; simpl; [|done].
    destruct (length data <? 2)%nat eqn:Hshort; [done|].
    destruct (bool_decide (take 2 (drop (length data - 2) data) = [xff; xd9])) eqn:Heoi;
      simpl; [|done].
    destruct (length data <? 1024)%nat eqn:Hsize; [done|]. intros _.
    apply bool_decide_eq_true in Hsoi, Heoi.
    apply Nat.ltb_ge in Hshort, Hsize.
    exists data. repeat split; try done.
    rewrite <- Heoi. symmetry. apply take_ge. rewrite length_drop. lia.
  - intros (data & -> & Hsize & Hsoi & Heoi).
    rewrite bool_decide_eq_true_2 by done. simpl.
    replace (length data <? 2)%nat with false by (symmetry; apply Nat.ltb_ge; lia).
    rewrite Heoi. simpl.
    by replace (length data <? 1024)%nat with false by (symmetry; apply Nat.ltb_ge; lia).
Qed.

(** ** The existing-file filter *)

Section FilterProperties.

Variable repr_other : jval -> string.

Lemma filter_tasks_loop_filter fs picsdir only_missing validate_existing
    existing_base existing_field tasks new_tasks :
  filter_tasks_loop repr_other fs picsdir only_missing validate_existing
    existing_base existing_field tasks new_tasks =
  new_tasks ++ List.filter (task_kept repr_other fs picsdir only_missing validate_existing
                              existing_base existing_field) tasks.
Proof.
  revert new_tasks. induction tasks as [|t rest IH]; intros new_tasks; simpl.
  - by rewrite app_nil_r.
  - unfold task_kept at 1.
    destruct (task_listed repr_other existing_base existing_field t); simpl.
    + destruct validate_existing.
      * destruct (verify_jpeg fs (task_outpath repr_other picsdir t)); simpl;
          rewrite IH; [done|]. by rewrite <- app_assoc.
      * destruct only_missing; simpl; rewrite IH; [done|]. by rewrite <- app_assoc.
    + rewrite IH. by rewrite <- app_assoc.
Qed.


(** C8: filtering the result of [filter_tasks] again, on the same file
    system and with the same flags, changes nothing. *)
Theorem filter_tasks_idempotent (fs : filesystem) (tasks : list task)
    (picsdir : string) (only_missing validate_existing : bool) :
  filter_tasks repr_other fs
    (filter_tasks repr_other fs tasks picsdir only_missing validate_existing)
    picsdir only_missing validate_existing =
  filter_tasks repr_other fs tasks picsdir only_missing validate_existing.
Proof.
  unfold filter_tasks.
  destruct (negb only_missing && negb validate_existing); [done|].
  rewrite !filter_tasks_loop_filter. simpl.
  induction tasks as [|t rest IH]; simpl; [done|].
  destruct (task_kept _ _ _ _ _ _ _ t) eqn:Hkept; simpl; [|done].
  by rewrite Hkept, IH.
Qed.

End FilterProperties.

(** ** The start request *)

(** While [state.running] is set, a start request is answered with 409
    "Download already in progress" and leaves the server as it was: the
    state is not reset, no flag changes, no worker thread is started. *)
Lemma start_rejected_while_running (params : jval) (srv : server) :
  running (srv_state srv) = true ->
  do_POST ApiStart (Some params) srv =
    (HttpResponse 409 ("error", "Download already in progress"), srv).
Proof. intros Hrun. simpl. by rewrite Hrun. Qed.

(** A start request whose body is not JSON is answered with 400 and
    changes nothing either, whether a run is active or not. *)
Lemma start_invalid_json (srv : server) :
  do_POST ApiStart None srv = (HttpResponse 400 ("error", "Invalid JSON"), srv).
Proof. reflexivity. Qed.

(** An accepted start request resets the state and starts one worker; it
    is the worker's first statement, not the handler, that raises
    [state.running], so a second request served before the worker has
    run finds the flag down and is accepted as well. *)
Lemma start_accepted_when_idle (params : jval) (srv : server) :
  running (srv_state srv) = false ->
  do_POST ApiStart (Some params) srv =
    (HttpResponse 200 ("status", "started"),
     Server initial_state (srv_threads srv ++ [params]) (Some params))
  /\ running (srv_state (do_POST ApiStart (Some params) srv).2) = false.
Proof. intros Hidle. simpl. by rewrite Hidle. Qed.

(** C7 fails between a start and the first statement of its worker: the
    handler starts the worker thread without raising [state.running],
    so a second start request served before that worker has run is
    answered with 200 as well; the state is reset again and a second
    worker is started beside the first. *)
Theorem second_start_accepted (first second : jval) (srv : server) :
  running (srv_state srv) = false ->
  let after_first := do_POST ApiStart (Some first) srv in
  let after_second := do_POST ApiStart (Some second) after_first.2 in
  after_first.1 = HttpResponse 200 ("status", "started")
  /\ srv_threads after_first.2 = srv_threads srv ++ [first]
  /\ running (srv_state after_first.2) = false
  /\ after_second.1 = HttpResponse 200 ("status", "started")
  /\ srv_threads after_second.2 = srv_threads srv ++ [first; second]
  /\ srv_state after_second.2 = reset (srv_state after_first.2).
Proof.
  intros Hidle. cbv zeta. cbn [do_POST]. rewrite Hidle. cbn [fst snd srv_state srv_threads].
  change (running (reset (srv_state srv))) with false. cbv iota.
  cbn [fst snd srv_state srv_threads]. rewrite <- app_assoc. by repeat split.
Qed.

(** ** The configuration *)

Section ConfigProperties.

Variable int_of_str : string -> option Z.

(** Whatever [read_config] returns is within the bounds. *)
Lemma read_config_bounds (params : gmap string jval) (cfg : config) :
  read_config int_of_str params = Ret cfg ->
  (1 <= cfg_concurrency cfg <= 50)%Z
  /\ (10 <= cfg_timeout cfg <= 120)%Z
  /\ (1 <= cfg_retry cfg <= 10)%Z
  /\ (0 <= cfg_rate_limit_kbps cfg)%Z.
Proof.
  unfold read_config.
  destruct (int_or_default _ _ 12) as [c|]; simpl; [|done].
  destruct (int_or_default _ _ 30) as [t|]; simpl; [|done].
  destruct (int_or_default _ _ 3) as [r|]; simpl; [|done].
  destruct (int_or_default _ _ 0) as [k|]; simpl; [|done].
  intros [= <-]. simpl.
  destruct (k <? 0)%Z eqn:Hk; [apply Z.ltb_lt in Hk | apply Z.ltb_ge in Hk]; lia.
Qed.

(** A value that [int()] rejects with [ValueError] or [TypeError] is
    replaced by the default, and so is a missing one. *)
Lemma int_or_default_fallback (v : jval) (dflt : Z) :
  match v with
  | JNull | JArr _ | JObj _ | JFloat FNan => True
  | JStr s => int_of_str s = None
  | _ => False
  end ->
  int_or_default int_of_str v dflt = Ret dflt.
Proof.
  unfold int_or_default, py_int.
  destruct v as [| | |[]| | |]; try done. by intros ->.
Qed.

(** C6 fails on an infinite number: [int()] raises [OverflowError], which
    the [except (ValueError, TypeError)] clause lets through, so no
    configuration is produced at all; the run ends in the outer handler
    before it has looked at the directory or the network. *)
Theorem read_config_infinite_concurrency :
  read_config int_of_str {["concurrency" := JFloat (FInf false)]} =
    Raise (Exn OverflowError "cannot convert float infinity to integer")
  /\ forall repr_other env ext fuel w,
       exists w1,
         download_worker_main repr_other int_of_str env ext fuel
           (JObj {["concurrency" := JFloat (FInf false)]}) w = Some w1
         /\ running (w_state w1) = false
         /\ total (w_state w1) = total (w_state w)
         /\ w_requests w1 = w_requests w
         /\ w_fs w1 = w_fs w.
Proof.
  split; [reflexivity|]. intros repr_other env ext fuel w.
  eexists. split; [reflexivity|]. done.
Qed.

End ConfigProperties.

(** ** Fetch-with-retry and its temp file *)

Lemma part_suffix_neq (outpath : string) : outpath +:+ ".part" ≠ outpath.
Proof. induction outpath as [|c s IH]; simpl; [done|]. intros [= H]. by apply IH. Qed.

Lemma removable_insert_file fs p q data readable :
  removable fs q -> removable (<[p := File data readable false]> fs) q.
Proof.
  unfold removable. destruct (decide (p = q)) as [->|Hne].
  - by rewrite lookup_insert_eq.
  - by rewrite lookup_insert_ne.
Qed.

Lemma file_write_removable fs p q chunk :
  removable fs q -> removable (file_write fs p chunk) q.
Proof.
  intros Hq. unfold file_write.
  destruct (fs !! p) as [[|data readable locked]|] eqn:Hp; try done.
  unfold removable in *. destruct (decide (p = q)) as [->|Hne].
  - rewrite lookup_insert_eq. rewrite Hp in Hq. by destruct locked.
  - by rewrite lookup_insert_ne.
Qed.

Lemma open_wb_removable fs p q fs1 :
  open_wb fs p = Ret fs1 -> removable fs q -> removable fs1 q.
Proof.
  unfold open_wb. destruct (negb (parent_exists fs p)); [done|].
  destruct (fs !! p) as [[|data readable [|]]|]; try done;
    intros [= <-]; apply removable_insert_file.
Qed.

Lemma os_replace_source_gone fs src dst fs1 :
  src ≠ dst -> os_replace fs src dst = Ret fs1 -> fs1 !! src = None.
Proof.
  intros Hne. unfold os_replace.
  destruct (fs !! src) as [[|data readable [|]]|]; try done.
  destruct (fs !! dst) as [[|? ? [|]]|]; try done; intros [= <-];
    rewrite lookup_insert_ne by done; apply lookup_delete_eq.
Qed.

Lemma os_replace_removable fs src dst fs1 q :
  os_replace fs src dst = Ret fs1 -> removable fs q -> removable fs1 q.
Proof.
  unfold os_replace.
  destruct (fs !! src) as [[|data readable [|]]|]; try done.
  intros H Hq.
  assert (fs1 = <[dst := File data readable false]> (delete src fs)) as ->
    by (destruct (fs !! dst) as [[|? ? [|]]|]; by inversion H).
  apply removable_insert_file. unfold removable in *.
  destruct (decide (src = q)) as [->|Hne].
  - by rewrite lookup_delete_eq.
  - by rewrite lookup_delete_ne.
Qed.

Section EngineProperties.

Variable repr_other : jval -> string.
Variable env : environment.

Lemma checkpoint_fs w : w_fs (checkpoint env w) = w_fs w.
Proof. reflexivity. Qed.

Lemma checkpoint_requests w : w_requests (checkpoint env w) = w_requests w.
Proof. reflexivity. Qed.

Lemma pause_wait_fs fuel w w1 cancelled :
  pause_wait env fuel w = Some (w1, cancelled) -> w_fs w1 = w_fs w.
Proof.
  revert w. induction fuel as [|fuel IH]; intros w; simpl; [done|].
  destruct (pause_flag _).
  - destruct (cancel_flag _).
    + by intros [= <- <-].
    + intros H. by rewrite (IH _ H).
  - by intros [= <- <-].
Qed.

Lemma stream_body_removable fuel temp body w w1 r q :
  stream_body env fuel temp body w = Some (w1, r) ->
  removable (w_fs w) q -> removable (w_fs w1) q.
Proof.
  revert w. induction body as [|ev rest IH]; intros w; simpl.
  - destruct (cancel_flag _); [by intros [= <- <-]|].
    destruct (pause_wait _ _ _) as [[w2 [|]]|] eqn:Hp; try done;
      intros [= <- <-]; by rewrite (pause_wait_fs _ _ _ _ Hp).
  - destruct (cancel_flag _); [by intros [= <- <-]|].
    destruct (pause_wait _ _ _) as [[w2 [|]]|] eqn:Hp; try done.
    + intros [= <- <-]. by rewrite (pause_wait_fs _ _ _ _ Hp).
    + apply pause_wait_fs in Hp. simpl in Hp.
      destruct ev as [[|b chunk]|e].
      * intros [= <- <-]. by rewrite Hp.
      * intros H Hq. apply (IH _ H). simpl. apply file_write_removable. by rewrite Hp.
      * intros [= <- <-]. by rewrite Hp.
Qed.

(** One attempt that succeeds has renamed the temp file away; one that
    raises leaves the temp path removable. *)
Lemma try_download_temp fuel url temp outpath w w1 r :
  temp ≠ outpath ->
  try_download env fuel url temp outpath w = Some (w1, r) ->
  removable (w_fs w) temp ->
  match r with
  | Ret _ => w_fs w1 !! temp = None
  | Raise _ => removable (w_fs w1) temp
  end.
Proof.
  intros Hne. unfold try_download.
  destruct (network env _ url) as [e|content_type body].
  { by intros [= <- <-]. }
  destruct (negb (startswith _ _)); [by intros [= <- <-]|]. simpl.
  destruct (open_wb (w_fs w) temp) as [fs1|e] eqn:Hopen; [|by intros [= <- <-]].
  destruct (stream_body _ _ _ _ _) as [[w2 [e|]]|] eqn:Hs; try done.
  - intros [= <- <-] Hq.
    apply (stream_body_removable _ _ _ _ _ _ _ Hs). simpl.
    by apply (open_wb_removable _ _ _ _ Hopen).
  - intros H Hq.
    assert (removable (w_fs w2) temp) as Hq2.
    { apply (stream_body_removable _ _ _ _ _ _ _ Hs). simpl.
      by apply (open_wb_removable _ _ _ _ Hopen). }
    destruct (negb (verify_jpeg _ _)); [by inversion H; subst|].
    destruct (os_replace _ _ _) as [fs3|e] eqn:Hr; inversion H; subst; [|done].
    simpl. by apply (os_replace_source_gone _ _ _ _ Hne Hr).
Qed.

Lemma cleanup_temp_gone temp w :
  removable (w_fs w) temp -> w_fs (cleanup_temp temp w) !! temp = None.
Proof.
  unfold cleanup_temp, os_path_exists, os_remove, removable.
  destruct (w_fs w !! temp) as [[|data readable [|]]|] eqn:Hl; try done.
  intros _. simpl. apply lookup_delete_eq.
Qed.

Lemma download_attempts_temp fuel url outpath max_retries remaining attempt w w1 r :
  (0 < remaining)%nat ->
  (attempt + Z.of_nat remaining - 1 = max_retries)%Z ->
  removable (w_fs w) (outpath +:+ ".part") ->
  download_attempts env fuel url outpath max_retries remaining attempt w = Some (w1, Ret r) ->
  w_fs w1 !! (outpath +:+ ".part") = None.
Proof.
  revert attempt w. induction remaining as [|n IH]; intros attempt w Hpos Hlast Hq; [lia|].
  simpl. destruct (cancel_flag _).
  { intros [= <- _]. by apply cleanup_temp_gone. }
  destruct (try_download _ _ _ _ _ _) as [[w2 [[]|e]]|] eqn:Htry; try done.
  - intros [= <- _].
    by apply (try_download_temp _ _ _ _ _ _ _ (part_suffix_neq outpath) Htry).
  - pose proof (try_download_temp _ _ _ _ _ _ _ (part_suffix_neq outpath) Htry Hq) as Hq2.
    simpl in Hq2.
    destruct (e_class e); try done;
      try (intros [= <- _]; by apply cleanup_temp_gone);
      (destruct (attempt =? max_retries)%Z eqn:Hat;
       [ intros [= <- _]; by apply cleanup_temp_gone
       | apply Z.eqb_neq in Hat; apply IH; [lia|lia|done] ]).
Qed.

(** C2, as the code has it: a call with at least one attempt, on a temp
    path that is free or holds a removable file, leaves no file at
    [outpath + ".part"] when it returns, whatever it returns. *)
Theorem download_file_leaves_no_part fuel url outpath timeout max_retries
    rate_limit_kbps w w1 result :
  (1 <= max_retries)%Z ->
  removable (w_fs w) (outpath +:+ ".part") ->
  download_file env fuel url outpath timeout max_retries rate_limit_kbps w
    = Some (w1, Ret result) ->
  w_fs w1 !! (outpath +:+ ".part") = None.
Proof.
  intros Hretries Hq. unfold download_file.
  apply download_attempts_temp; [lia|lia|done].
Qed.

(** C10, as the code has it: a worker that finds the cancel flag unset
    and its target directory missing returns an error naming the
    directory, having sent no request and left the file system as it
    was; for a field-crop task that directory is [picsdir/field]. *)
Theorem worker_missing_directory fuel t picsdir force timeout retry_count
    validate_existing rate_limit_kbps w :
  cancel_flag (w_state (checkpoint env w)) = false ->
  os_path_isdir (w_fs w) (task_target_dir picsdir t) = false ->
  download_worker_task repr_other env fuel t picsdir force timeout retry_count
    validate_existing rate_limit_kbps w =
    Some (checkpoint env w,
          Ret (WorkerResult Error t
                 (Some ("Target directory not found: " +:+ task_target_dir picsdir t))))
  /\ w_requests (checkpoint env w) = w_requests w
  /\ w_fs (checkpoint env w) = w_fs w
  /\ (t_subfolder t = "field" -> task_target_dir picsdir t = os_path_join picsdir "field").
Proof.
  intros Hc Hdir. repeat split.
  - unfold download_worker_task, read_cancel. rewrite Hc.
    rewrite checkpoint_fs, Hdir. done.
  - intros Hsub. unfold task_target_dir. by rewrite Hsub.
Qed.

End EngineProperties.

(** ** The counters of a run *)

Section CounterProperties.

Variable repr_other : jval -> string.
Variable env : environment.

Lemma add_log_counted message type st :
  counted (add_log message type st) = counted st /\ total (add_log message type st) = total st.
Proof. unfold counted, add_log. simpl. done. Qed.

Lemma apply_control_counted c st :
  counted (apply_control c st) = counted st /\ total (apply_control c st) = total st.
Proof. destruct c; unfold counted; simpl; done. Qed.

Lemma checkpoint_counted w :
  counted (w_state (checkpoint env w)) = counted (w_state w)
  /\ total (w_state (checkpoint env w)) = total (w_state w).
Proof.
  unfold checkpoint. simpl. generalize (w_state w) as st.
  induction (controls env (w_tick w)) as [|c cs IH]; intros st; simpl; [done|].
  destruct (IH (apply_control c st)) as [-> ->]. apply apply_control_counted.
Qed.

Lemma handle_future_counted f st :
  counted (handle_future repr_other f st) = (counted st + counts_as f)%Z
  /\ total (handle_future repr_other f st) = total st.
Proof.
  unfold handle_future, counts_as, counted.
  destruct f as [[result|e]|]; simpl; [|split; lia|split; lia].
  destruct (r_status result); simpl; repeat case_match; simpl; split; lia.
Qed.

(** The loop adds to the counters what its futures count as, and leaves
    [total] alone. *)
Lemma completion_loop_counted futures cancel_requested w :
  counted (w_state (completion_loop repr_other env futures cancel_requested w)) =
    (counted (w_state w) + foldr Z.add 0 (counts_as <$> futures))%Z
  /\ total (w_state (completion_loop repr_other env futures cancel_requested w)) =
       total (w_state w).
Proof.
  revert cancel_requested w.
  induction futures as [|f rest IH]; intros cancel_requested w.
  { simpl. split; [lia|done]. }
  destruct (checkpoint_counted w) as [Hc Ht].
  rewrite fmap_cons. cbn [completion_loop foldr]. unfold read_cancel.
  destruct (cancel_flag (w_state (checkpoint env w)) && negb cancel_requested);
    cbn beta iota zeta;
    match goal with |- context [completion_loop _ _ rest ?cr ?w'] =>
      destruct (IH cr w') as [-> ->] end;
    unfold log, with_state; cbn [w_state];
    match goal with |- context [handle_future _ f ?st] =>
      destruct (handle_future_counted f st) as [-> ->] end.
  - destruct (add_log_counted "⚠️  Cancellation requested, stopping new downloads..."
                "warning" (w_state (checkpoint env w))) as [-> ->].
    rewrite Hc, Ht. split; [lia|done].
  - rewrite Hc, Ht. split; [lia|done].
Qed.

Lemma counts_as_bounds f : (0 <= counts_as f <= 1)%Z.
Proof. destruct f as [[result|e]|]; simpl; [destruct (r_status result)|..]; lia. Qed.

(** After any number of completed futures out of those dispatched, the
    counters sum to at most [total]. *)
Lemma completion_loop_within_total futures cancel_requested w (k : nat) :
  counted (w_state w) = 0%Z ->
  total (w_state w) = Z.of_nat (length futures) ->
  let w1 := completion_loop repr_other env (take k futures) cancel_requested w in
  (counted (w_state w1) <= total (w_state w1))%Z.
Proof.
  intros H0 Htotal. simpl.
  destruct (completion_loop_counted (take k futures) cancel_requested w) as [-> ->].
  rewrite H0, Htotal.
  assert (forall l, (0 <= foldr Z.add 0 (counts_as <$> l) <= Z.of_nat (length l))%Z) as Hsum.
  { induction l as [|f l IH]; [simpl; lia|].
    rewrite fmap_cons. cbn [foldr length]. pose proof (counts_as_bounds f). lia. }
  pose proof (Hsum (take k futures)). pose proof (length_take_le futures k).
  rewrite length_take in *. lia.
Qed.

(** When no future is cancelled, every dispatched task is counted. *)
Lemma completion_loop_counts_all futures cancel_requested w :
  Forall (fun f => counts_as f = 1%Z) futures ->
  counted (w_state (completion_loop repr_other env futures cancel_requested w)) =
    (counted (w_state w) + Z.of_nat (length futures))%Z.
Proof.
  intros Hall.
  destruct (completion_loop_counted futures cancel_requested w) as [-> _].
  f_equal. induction Hall as [|f l Hf _ IH]; [done|].
  rewrite fmap_cons. cbn [foldr length]. rewrite Hf, IH. lia.
Qed.

(** *** The workers leave the counters alone *)

Lemma same_counts_refl st : same_counts st st.
Proof. done. Qed.

Lemma same_counts_trans st1 st2 st3 :
  same_counts st1 st2 -> same_counts st2 st3 -> same_counts st1 st3.
Proof. intros [H1 H2] [H3 H4]. split; congruence. Qed.

Lemma checkpoint_same_counts w : same_counts (w_state w) (w_state (checkpoint env w)).
Proof. apply checkpoint_counted. Qed.

Lemma pause_wait_same_counts fuel w w1 cancelled :
  pause_wait env fuel w = Some (w1, cancelled) -> same_counts (w_state w) (w_state w1).
Proof.
  revert w. induction fuel as [|fuel IH]; intros w; [done|].
  cbn [pause_wait]. unfold read_pause, read_cancel.
  destruct (pause_flag (w_state (checkpoint env w))).
  - destruct (cancel_flag (w_state (checkpoint env (checkpoint env w)))).
    + intros [= <- <-].
      eapply same_counts_trans; apply checkpoint_same_counts.
    + intros H%IH. eapply same_counts_trans; [|exact H].
      eapply same_counts_trans; apply checkpoint_same_counts.
  - intros [= <- <-]. apply checkpoint_same_counts.
Qed.

Lemma stream_body_same_counts fuel temp body w w1 r :
  stream_body env fuel temp body w = Some (w1, r) -> same_counts (w_state w) (w_state w1).
Proof.
  revert w. induction body as [|ev rest IH]; intros w;
    cbn [stream_body]; unfold read_cancel;
    (destruct (cancel_flag (w_state (checkpoint env w)));
     [intros [= <- <-]; apply checkpoint_same_counts|]);
    (destruct (pause_wait env fuel (checkpoint env w)) as [[w2 [|]]|] eqn:Hp; [| |done]);
    apply pause_wait_same_counts in Hp;
    pose proof (same_counts_trans _ _ _ (checkpoint_same_counts w) Hp) as Hw2.
  - by intros [= <- <-].
  - by intros [= <- <-].
  - by intros [= <- <-].
  - destruct ev as [[|b chunk]|e]; [by intros [= <- <-]| |by intros [= <- <-]].
    intros H%IH. eapply same_counts_trans; [exact Hw2|exact H].
Qed.

Lemma try_download_same_counts fuel url temp outpath w w1 r :
  try_download env fuel url temp outpath w = Some (w1, r) ->
  same_counts (w_state w) (w_state w1).
Proof.
  unfold try_download.
  destruct (network env _ url) as [e|content_type body]; [by intros [= <- <-]|].
  destruct (negb (startswith _ _)); [by intros [= <- <-]|]. cbn [w_fs].
  destruct (open_wb (w_fs w) temp) as [fs1|e]; [|by intros [= <- <-]].
  destruct (stream_body _ _ _ _ _) as [[w2 r2]|] eqn:Hs; [|done].
  apply stream_body_same_counts in Hs. cbn [w_state with_fs] in Hs.
  destruct r2 as [e|]; [by intros [= <- <-]|].
  destruct (negb (verify_jpeg _ _)); [by intros [= <- <-]|].
  destruct (os_replace _ _ _); by intros [= <- <-].
Qed.

Lemma cleanup_temp_state temp w : w_state (cleanup_temp temp w) = w_state w.
Proof.
  unfold cleanup_temp. destruct (os_path_exists _ _); [|done].
  by destruct (os_remove _ _).
Qed.

Lemma download_attempts_same_counts fuel url outpath max_retries remaining attempt w w1 r :
  download_attempts env fuel url outpath max_retries remaining attempt w = Some (w1, r) ->
  same_counts (w_state w) (w_state w1).
Proof.
  revert attempt w. induction remaining as [|n IH]; intros attempt w; cbn [download_attempts].
  { by intros [= <- <-]. }
  unfold read_cancel. pose proof (checkpoint_same_counts w) as Hcp.
  destruct (cancel_flag (w_state (checkpoint env w))).
  { intros [= <- <-]. by rewrite cleanup_temp_state. }
  destruct (try_download _ _ _ _ _ _) as [[w2 [[]|e]]|] eqn:Htry; [| |done];
    apply try_download_same_counts in Htry;
    pose proof (same_counts_trans _ _ _ Hcp Htry) as Hw2.
  - by intros [= <- <-].
  - destruct (e_class e); try (by intros [= <- <-]);
      try (intros [= <- <-]; by rewrite cleanup_temp_state);
      (destruct (attempt =? max_retries)%Z;
       [ intros [= <- <-]; by rewrite cleanup_temp_state
       | intros H%IH; by eapply same_counts_trans ]).
Qed.

Lemma download_worker_task_same_counts fuel t picsdir force timeout retry_count
    validate_existing rate_limit_kbps w w1 r :
  download_worker_task repr_other env fuel t picsdir force timeout retry_count
    validate_existing rate_limit_kbps w = Some (w1, r) ->
  same_counts (w_state w) (w_state w1).
Proof.
  unfold download_worker_task, read_cancel, download_file.
  pose proof (checkpoint_same_counts w) as Hcp.
  destruct (cancel_flag (w_state (checkpoint env w))); [by intros [= <- <-]|].
  destruct (negb (os_path_isdir _ _)); [by intros [= <- <-]|].
  destruct (_ && _); [by intros [= <- <-]|].
  destruct (download_attempts _ _ _ _ _ _ _ _) as [[w2 [[ok err]|e]]|] eqn:Hd; [| |done];
    apply download_attempts_same_counts in Hd;
    pose proof (same_counts_trans _ _ _ Hcp Hd) as Hw2.
  - destruct ok; [by intros [= <- <-]|].
    destruct (str_in _ _); by intros [= <- <-].
  - by intros [= <- <-].
Qed.

(** The workers return one future per task and change no counter. *)
Lemma run_workers_futures fuel tasks picsdir force timeout retry validate_existing
    rate_limit_kbps w w1 futures :
  run_workers repr_other env fuel tasks picsdir force timeout retry validate_existing
    rate_limit_kbps w = Some (w1, futures) ->
  length futures = length tasks /\ same_counts (w_state w) (w_state w1).
Proof.
  revert w w1 futures.
  induction tasks as [|t rest IH]; intros w w1 futures; cbn [run_workers].
  { by intros [= <- <-]. }
  destruct (download_worker_task _ _ _ _ _ _ _ _ _ _ _) as [[w2 r]|] eqn:Hw; [|done].
  apply download_worker_task_same_counts in Hw.
  destruct (run_workers _ _ _ _ _ _ _ _ _ _ _) as [[w3 futures1]|] eqn:Hr; [|done].
  apply IH in Hr as [Hlen Hsame]. intros [= <- <-]. split.
  - simpl. by rewrite Hlen.
  - by eapply same_counts_trans.
Qed.

Variable ext : collaborators.

Lemma log_same_counts message type w st :
  same_counts st (w_state w) -> same_counts st (w_state (log message type w)).
Proof.
  intros H. eapply same_counts_trans; [exact H|].
  apply (add_log_counted message type (w_state w)).
Qed.

Lemma set_report_same_counts r w st :
  same_counts st (w_state w) -> same_counts st (w_state (with_state (set_report r) w)).
Proof. intros H. exact H. Qed.

(** One step through the logging of a summary. *)
Ltac counts_step :=
  lazymatch goal with
  | |- same_counts _ (w_state (log _ _ _)) => apply log_same_counts
  | |- same_counts _ (w_state (with_state (set_report _) _)) => apply set_report_same_counts
  | |- same_counts _ (w_state (if ?b then _ else _)) => destruct b
  | |- same_counts _ (w_state (match report_outcome _ with _ => _ end)) =>
      destruct (report_outcome ext)
  | |- same_counts _ (w_state (checkpoint _ _)) =>
      eapply same_counts_trans; [|apply checkpoint_same_counts]
  | |- same_counts ?st ?st => apply same_counts_refl
  end.

Lemma final_summary_same_counts picsdir w :
  same_counts (w_state w) (w_state (final_summary env ext picsdir w)).
Proof.
  unfold final_summary, read_cancel.
  cbv zeta beta iota. repeat counts_step.
Qed.

(** A run that starts with its counters at zero ends with at most
    [total] tasks accounted for, [total] being the number dispatched. *)
Lemma run_downloads_within_total fuel tasks picsdir cfg w w1 :
  run_downloads repr_other env ext fuel tasks picsdir cfg w = Some w1 ->
  counted (w_state w) = 0%Z ->
  total (w_state w1) = Z.of_nat (length tasks)
  /\ (0 <= counted (w_state w1) <= total (w_state w1))%Z.
Proof.
  unfold run_downloads. cbv zeta beta.
  set (w0 := with_state (set_total (Z.of_nat (length tasks))) w).
  assert (same_counts (w_state w0) (w_state w0)) as H00 by apply same_counts_refl.
  assert (counted (w_state w0) = counted (w_state w)) as Hc0 by reflexivity.
  assert (total (w_state w0) = Z.of_nat (length tasks)) as Ht0 by reflexivity.
  destruct (total (w_state w0) =? 0)%Z eqn:Hz.
  { intros [= <-] H0. apply Z.eqb_eq in Hz.
    assert (same_counts (w_state w0)
              (w_state (with_state (set_running false)
                          (log "✅ All images already downloaded" "success" w0)))) as [-> ->].
    { apply (log_same_counts "✅ All images already downloaded" "success" w0 _ H00). }
    rewrite Hc0, H0, <- Ht0, Hz. lia. }
  match goal with
  | |- match run_workers _ _ _ _ _ _ _ _ _ _ ?wl with _ => _ end = _ -> _ =>
      assert (same_counts (w_state w0) (w_state wl)) as Hlog
        by (repeat counts_step);
      destruct (run_workers repr_other env fuel tasks picsdir (cfg_force cfg)
                  (cfg_timeout cfg) (cfg_retry cfg) (cfg_validate_existing cfg)
                  (cfg_rate_limit_kbps cfg) wl) as [[w2 futures]|] eqn:Hw; [|done]
  end.
  apply run_workers_futures in Hw as [Hlen Hsame].
  intros [= <-] H0.
  destruct (final_summary_same_counts picsdir
              (completion_loop repr_other env futures false w2)) as [-> ->].
  destruct (completion_loop_counted futures false w2) as [-> ->].
  destruct Hsame as [-> ->]. destruct Hlog as [-> ->]. rewrite Hc0, H0, Ht0, <- Hlen.
  assert (forall l, (0 <= foldr Z.add 0 (counts_as <$> l) <= Z.of_nat (length l))%Z) as Hsum.
  { induction l as [|f l IH]; [simpl; lia|].
    rewrite fmap_cons. cbn [foldr length]. pose proof (counts_as_bounds f). lia. }
  pose proof (Hsum futures). split; [done|lia].
Qed.

End CounterProperties.

(** ** What fetch-with-retry does to the file system and the network *)

Lemma open_wb_frame fs p fs1 q :
  open_wb fs p = Ret fs1 -> q ≠ p -> fs1 !! q = fs !! q.
Proof.
  unfold open_wb. destruct (negb (parent_exists fs p)); [done|].
  destruct (fs !! p) as [[|data readable [|]]|]; try done;
    intros [= <-] Hne; by rewrite lookup_insert_ne.
Qed.

Lemma file_write_frame fs p chunk q :
  q ≠ p -> file_write fs p chunk !! q = fs !! q.
Proof.
  intros Hne. unfold file_write.
  destruct (fs !! p) as [[|data readable locked]|]; try done.
  by rewrite lookup_insert_ne.
Qed.

Lemma os_replace_frame fs src dst fs1 q :
  os_replace fs src dst = Ret fs1 -> q ≠ src -> q ≠ dst -> fs1 !! q = fs !! q.
Proof.
  unfold os_replace.
  destruct (fs !! src) as [[|data readable [|]]|]; try done.
  intros H Hs Hd.
  assert (fs1 = <[dst := File data readable false]> (delete src fs)) as ->
    by (destruct (fs !! dst) as [[|? ? [|]]|]; by inversion H).
  rewrite lookup_insert_ne by done. by rewrite lookup_delete_ne.
Qed.

(** After a rename the destination reads as the source did. *)
Lemma os_replace_reads fs src dst fs1 :
  os_replace fs src dst = Ret fs1 -> open_rb fs1 dst = open_rb fs src.
Proof.
  unfold os_replace, open_rb.
  destruct (fs !! src) as [[|data readable [|]]|]; try done.
  intros H.
  assert (fs1 = <[dst := File data readable false]> (delete src fs)) as ->
    by (destruct (fs !! dst) as [[|? ? [|]]|]; by inversion H).
  by rewrite lookup_insert_eq.
Qed.

Lemma cleanup_temp_frame temp w q :
  q ≠ temp -> w_fs (cleanup_temp temp w) !! q = w_fs w !! q.
Proof.
  intros Hne. unfold cleanup_temp. destruct (os_path_exists _ _); [|done].
  unfold os_remove. destruct (w_fs w !! temp) as [[|data readable [|]]|]; try done.
  simpl. by rewrite lookup_delete_ne.
Qed.

Lemma cleanup_temp_requests temp w : w_requests (cleanup_temp temp w) = w_requests w.
Proof.
  unfold cleanup_temp. destruct (os_path_exists _ _); [|done].
  by destruct (os_remove _ _).
Qed.

Section FetchFrame.

Variable env : environment.

Lemma pause_wait_requests fuel w w1 cancelled :
  pause_wait env fuel w = Some (w1, cancelled) -> w_requests w1 = w_requests w.
Proof.
  revert w. induction fuel as [|fuel IH]; intros w; simpl; [done|].
  destruct (pause_flag _).
  - destruct (cancel_flag _).
    + by intros [= <- <-].
    + intros H. by rewrite (IH _ H).
  - by intros [= <- <-].
Qed.

Lemma stream_body_frame fuel temp body w w1 r q :
  stream_body env fuel temp body w = Some (w1, r) ->
  w_requests w1 = w_requests w /\ (q ≠ temp -> w_fs w1 !! q = w_fs w !! q).
Proof.
  revert w. induction body as [|ev rest IH]; intros w; simpl.
  - destruct (cancel_flag _); [by intros [= <- <-]|].
    destruct (pause_wait _ _ _) as [[w2 [|]]|] eqn:Hp; try done;
      intros [= <- <-]; rewrite (pause_wait_fs _ _ _ _ _ Hp);
      by rewrite (pause_wait_requests _ _ _ _ Hp).
  - destruct (cancel_flag _); [by intros [= <- <-]|].
    destruct (pause_wait _ _ _) as [[w2 [|]]|] eqn:Hp; try done.
    + intros [= <- <-]. rewrite (pause_wait_fs _ _ _ _ _ Hp).
      by rewrite (pause_wait_requests _ _ _ _ Hp).
    + pose proof (pause_wait_requests _ _ _ _ Hp) as Hreq.
      apply pause_wait_fs in Hp. simpl in Hp, Hreq.
      destruct ev as [[|b chunk]|e].
      * intros [= <- <-]. by rewrite Hp, Hreq.
      * intros [Hr Hf]%IH. simpl in Hr, Hf. split; [congruence|].
        intros Hne. rewrite (Hf Hne), file_write_frame by done. by rewrite Hp.
      * intros [= <- <-]. by rewrite Hp, Hreq.
Qed.

(** One attempt sends one request for [url]; it changes [outpath] only by
    the final rename, when it succeeds, and otherwise nothing but the
    temp file. *)
Lemma try_download_frame fuel url temp outpath w w1 r :
  try_download env fuel url temp outpath w = Some (w1, r) ->
  w_requests w1 = w_requests w ++ [url]
  /\ (forall q, q ≠ temp -> q ≠ outpath -> w_fs w1 !! q = w_fs w !! q)
  /\ match r with
     | Ret _ => verify_jpeg (w_fs w1) outpath = true
     | Raise _ => forall q, q ≠ temp -> w_fs w1 !! q = w_fs w !! q
     end.
Proof.
  unfold try_download.
  destruct (network env _ url) as [e|content_type body]; [by intros [= <- <-]|].
  destruct (negb (startswith _ _)); [by intros [= <- <-]|]. simpl.
  destruct (open_wb (w_fs w) temp) as [fs1|e] eqn:Hopen; [|by intros [= <- <-]].
  destruct (stream_body _ _ _ _ _) as [[w2 r2]|] eqn:Hs; [|done].
  assert (w_requests w2 = w_requests w ++ [url]
          /\ forall q, q ≠ temp -> w_fs w2 !! q = w_fs w !! q) as [Hreq Hfs].
  { split.
    - by destruct (stream_body_frame _ _ _ _ _ _ temp Hs) as [-> _].
    - intros q Hq. destruct (stream_body_frame _ _ _ _ _ _ q Hs) as [_ ->]; [|done].
      simpl. by apply (open_wb_frame _ _ _ _ Hopen). }
  destruct r2 as [e|]; [intros [= <- <-]; by auto|].
  destruct (verify_jpeg (w_fs w2) temp) eqn:Hv; simpl; [|intros [= <- <-]; by auto].
  destruct (os_replace _ _ _) as [fs3|e] eqn:Hr; intros [= <- <-]; [|by auto].
  simpl. split; [done|]. split.
  - intros q Hq1 Hq2. rewrite (os_replace_frame _ _ _ _ _ Hr) by done. by apply Hfs.
  - unfold verify_jpeg in *. by rewrite (os_replace_reads _ _ _ _ Hr).
Qed.

(** What every run of the retry loop keeps: the requests it adds are all
    for [url] and at most one per iteration, no path other than
    [outpath] and the temp file changes, and [outpath] changes only on
    success, to a file that passes [verify_jpeg]. *)
Lemma download_attempts_frame fuel url outpath max_retries remaining attempt w w1 r :
  download_attempts env fuel url outpath max_retries remaining attempt w = Some (w1, r) ->
  (exists n, (n <= remaining)%nat /\ w_requests w1 = w_requests w ++ replicate n url)
  /\ (forall q, q ≠ outpath +:+ ".part" -> q ≠ outpath -> w_fs w1 !! q = w_fs w !! q)
  /\ match r with
     | Ret (true, err) => err = None /\ verify_jpeg (w_fs w1) outpath = true
     | Ret (false, err) => is_Some err /\ w_fs w1 !! outpath = w_fs w !! outpath
     | Raise _ => w_fs w1 !! outpath = w_fs w !! outpath
     end.
Proof.
  pose proof (part_suffix_neq outpath) as Hne.
  revert attempt w w1 r. induction remaining as [|n IH]; intros attempt w w1 r; simpl.
  { intros [= <- <-]. split; [exists 0%nat; split; [lia|by rewrite app_nil_r]|]. eauto. }
  destruct (cancel_flag _) eqn:Hc.
  { intros [= <- <-]. rewrite cleanup_temp_requests. split; [|split].
    - exists 0%nat. split; [lia|]. simpl. by rewrite app_nil_r.
    - intros q Hq _. by rewrite cleanup_temp_frame.
    - split; [eauto|]. by rewrite cleanup_temp_frame. }
  destruct (try_download _ _ _ _ _ _) as [[w2 r2]|] eqn:Htry; [|done].
  apply try_download_frame in Htry as (Hreq & Hfs & Hres). simpl in Hreq, Hfs.
  assert (w_requests w2 = w_requests w ++ replicate 1 url) as Hreq1 by done.
  destruct r2 as [[]|e].
  { intros [= <- <-]. split; [exists 1%nat; split; [lia|done]|]. split; [done|]. done. }
  assert (forall w3, w_requests w3 = w_requests w2 ->
            (forall q, q ≠ outpath +:+ ".part" -> w_fs w3 !! q = w_fs w2 !! q) ->
            (exists k, (k <= S n)%nat /\ w_requests w3 = w_requests w ++ replicate k url)
            /\ (forall q, q ≠ outpath +:+ ".part" -> q ≠ outpath ->
                  w_fs w3 !! q = w_fs w !! q)
            /\ w_fs w3 !! outpath = w_fs w !! outpath) as Hstop.
  { intros w3 Hr3 Hf3. split; [exists 1%nat; split; [lia|congruence]|]. split.
    - intros q Hq1 Hq2. rewrite Hf3 by done. by apply Hfs.
    - rewrite Hf3 by done. by apply Hres. }
  assert (forall w3 msg, w3 = cleanup_temp (outpath +:+ ".part") w2 ->
            (exists k, (k <= S n)%nat /\ w_requests w3 = w_requests w ++ replicate k url)
            /\ (forall q, q ≠ outpath +:+ ".part" -> q ≠ outpath ->
                  w_fs w3 !! q = w_fs w !! q)
            /\ is_Some (Some msg : option string)
               /\ w_fs w3 !! outpath = w_fs w !! outpath) as Hclean.
  { intros w3 msg ->.
    destruct (Hstop (cleanup_temp (outpath +:+ ".part") w2)) as (H1 & H2 & H3).
    - apply cleanup_temp_requests.
    - intros q Hq. by apply cleanup_temp_frame.
    - eauto. }
  assert (forall r3 w3,
            download_attempts env fuel url outpath max_retries n (attempt + 1) w2
              = Some (w3, r3) ->
            (exists k, (k <= S n)%nat /\ w_requests w3 = w_requests w ++ replicate k url)
            /\ (forall q, q ≠ outpath +:+ ".part" -> q ≠ outpath ->
                  w_fs w3 !! q = w_fs w !! q)
            /\ match r3 with
               | Ret (true, err) => err = None /\ verify_jpeg (w_fs w3) outpath = true
               | Ret (false, err) => is_Some err /\ w_fs w3 !! outpath = w_fs w !! outpath
               | Raise _ => w_fs w3 !! outpath = w_fs w !! outpath
               end) as Hrec.
  { intros r3 w3 ((k & Hk & Hrk) & Hf3 & Hr3)%IH. split; [|split].
    - exists (S k). split; [lia|]. rewrite Hrk, Hreq. simpl.
      by rewrite <- app_assoc.
    - intros q Hq1 Hq2. rewrite Hf3 by done. by apply Hfs.
    - destruct r3 as [[[|] err]|e3]; [done| |].
      + destruct Hr3 as [? ->]. split; [done|]. by apply Hres.
      + rewrite Hr3. by apply Hres. }
  destruct (e_class e);
    try (intros [= <- <-]; apply Hstop; [done|by intros]);
    try (intros [= <- <-]; eapply Hclean; reflexivity);
    (destruct (attempt =? max_retries)%Z;
     [ intros [= <- <-]; eapply Hclean; reflexivity | apply Hrec ]).
Qed.

End FetchFrame.

Section FetchProperties.

Variable repr_other : jval -> string.
Variable env : environment.

(** The requests, the untouched paths and the result of a call. *)
Lemma download_file_frame fuel url outpath timeout max_retries rate_limit_kbps w w1 r :
  download_file env fuel url outpath timeout max_retries rate_limit_kbps w = Some (w1, r) ->
  (exists n, (Z.of_nat n <= Z.max 0 max_retries)%Z
             /\ w_requests w1 = w_requests w ++ replicate n url)
  /\ (forall q, q ≠ outpath +:+ ".part" -> q ≠ outpath -> w_fs w1 !! q = w_fs w !! q)
  /\ match r with
     | Ret (true, err) => err = None /\ verify_jpeg (w_fs w1) outpath = true
     | Ret (false, err) => is_Some err /\ w_fs w1 !! outpath = w_fs w !! outpath
     | Raise _ => w_fs w1 !! outpath = w_fs w !! outpath
     end.
Proof.
  unfold download_file. intros H.
  apply download_attempts_frame in H as ((n & Hn & Hreq) & Hframe & Hres).
  split; [|done]. exists n. split; [lia|done].
Qed.

(** X1: a call that reports failure returns a message and leaves whatever
    was at [outpath] as it was: a partial download never shows at the
    final path. *)
Theorem download_file_failure_keeps_outpath fuel url outpath timeout max_retries
    rate_limit_kbps w w1 err :
  download_file env fuel url outpath timeout max_retries rate_limit_kbps w
    = Some (w1, Ret (false, err)) ->
  is_Some err /\ w_fs w1 !! outpath = w_fs w !! outpath.
Proof.
  unfold download_file. intros H.
  by apply download_attempts_frame in H as (_ & _ & H).
Qed.

(** X2: a call that reports success returns no message and has put at
    [outpath] a file that passes [verify_jpeg]. *)
Theorem download_file_success_is_valid fuel url outpath timeout max_retries
    rate_limit_kbps w w1 err :
  download_file env fuel url outpath timeout max_retries rate_limit_kbps w
    = Some (w1, Ret (true, err)) ->
  err = None /\ verify_jpeg (w_fs w1) outpath = true.
Proof.
  unfold download_file. intros H.
  by apply download_attempts_frame in H as (_ & _ & H).
Qed.

(** X3: however a call ends, by return or by an exception it lets through,
    no path other than [outpath] and [outpath + ".part"] has changed. *)
Theorem download_file_touches_two_paths fuel url outpath timeout max_retries
    rate_limit_kbps w w1 r q :
  download_file env fuel url outpath timeout max_retries rate_limit_kbps w = Some (w1, r) ->
  q ≠ outpath -> q ≠ outpath +:+ ".part" ->
  w_fs w1 !! q = w_fs w !! q.
Proof.
  unfold download_file. intros H Hq1 Hq2.
  apply download_attempts_frame in H as (_ & H & _). by apply H.
Qed.

(** X4: a call sends at most [max_retries] requests, all for [url]. *)
Theorem download_file_request_bound fuel url outpath timeout max_retries
    rate_limit_kbps w w1 r :
  download_file env fuel url outpath timeout max_retries rate_limit_kbps w = Some (w1, r) ->
  exists n, (Z.of_nat n <= Z.max 0 max_retries)%Z
            /\ w_requests w1 = w_requests w ++ replicate n url.
Proof.
  unfold download_file. intros H.
  apply download_attempts_frame in H as ((n & Hn & Hreq) & _).
  exists n. split; [lia|done].
Qed.

End FetchProperties.

Section Retries.

Variable env : environment.
Hypothesis quiet : forall t, controls env t = [].

Lemma quiet_checkpoint w :
  checkpoint env w = World (w_state w) (w_fs w) (S (w_tick w)) (w_requests w).
Proof. unfold checkpoint. by rewrite quiet. Qed.

Lemma download_attempts_exhausted fuel url outpath max_retries e remaining attempt w :
  (forall n, network env n url = ConnError e) ->
  retryable (e_class e) = true ->
  cancel_flag (w_state w) = false ->
  (0 < remaining)%nat ->
  (attempt + Z.of_nat remaining - 1 = max_retries)%Z ->
  exists w1,
    download_attempts env fuel url outpath max_retries remaining attempt w =
      Some (w1, Ret (false, Some ("After " +:+ str_of_Z max_retries +:+ " attempts: "
                                  +:+ e_msg e)))
    /\ w_requests w1 = w_requests w ++ replicate remaining url.
Proof.
  intros Hnet Hclass. revert attempt w.
  induction remaining as [|n IH]; intros attempt w Hc Hpos Hlast; [lia|].
  cbn [download_attempts]. unfold read_cancel. rewrite quiet_checkpoint.
  cbn [w_state]. rewrite Hc. unfold try_download. rewrite Hnet. cbn [w_state w_fs w_tick w_requests].
  destruct (e_class e); try done;
    (destruct (attempt =? max_retries)%Z eqn:Hat;
     [ apply Z.eqb_eq in Hat; assert (n = 0%nat) as -> by lia;
       eexists; split; [reflexivity|]; by rewrite cleanup_temp_requests
     | apply Z.eqb_neq in Hat;
       edestruct (IH (attempt + 1)%Z) as (w1 & -> & Hreq); [exact Hc|lia|lia|];
       eexists; split; [reflexivity|]; rewrite Hreq; simpl; by rewrite <- app_assoc ]).
Qed.

(** X5: when no control request arrives and every request for [url] fails
    with an error of a class the retry handler names, a call allowed
    [max_retries >= 1] attempts makes exactly that many requests and
    then reports the last error with the attempt count. *)
Theorem download_file_exhausts_retries fuel url outpath timeout max_retries
    rate_limit_kbps e w :
  (forall n, network env n url = ConnError e) ->
  retryable (e_class e) = true ->
  cancel_flag (w_state w) = false ->
  (1 <= max_retries)%Z ->
  exists w1,
    download_file env fuel url outpath timeout max_retries rate_limit_kbps w =
      Some (w1, Ret (false, Some ("After " +:+ str_of_Z max_retries +:+ " attempts: "
                                  +:+ e_msg e)))
    /\ w_requests w1 = w_requests w ++ replicate (Z.to_nat max_retries) url.
Proof.
  intros Hnet Hclass Hc Hmax. unfold download_file.
  apply download_attempts_exhausted; try done; lia.
Qed.

End Retries.

(** ** What a worker does *)

Section WorkerProperties.

Variable repr_other : jval -> string.
Variable env : environment.

(** X6: without [force], a worker that finds its output file present, and
    either is not asked to validate or finds it valid, reports the task
    skipped without a request and without touching the file system. *)
Theorem worker_skips_existing fuel t picsdir timeout retry_count validate_existing
    rate_limit_kbps w :
  let outpath := task_outpath repr_other picsdir t in
  cancel_flag (w_state (checkpoint env w)) = false ->
  os_path_isdir (w_fs w) (task_target_dir picsdir t) = true ->
  os_path_exists (w_fs w) outpath = true ->
  validate_existing = false \/ verify_jpeg (w_fs w) outpath = true ->
  download_worker_task repr_other env fuel t picsdir false timeout retry_count
    validate_existing rate_limit_kbps w =
    Some (checkpoint env w, Ret (WorkerResult Skipped t None))
  /\ w_requests (checkpoint env w) = w_requests w
  /\ w_fs (checkpoint env w) = w_fs w.
Proof.
  intros outpath Hc Hdir Hex Hok. repeat split.
  unfold download_worker_task, read_cancel. rewrite Hc, checkpoint_fs, Hdir.
  fold (task_outpath repr_other picsdir t). fold outpath. rewrite Hex. simpl.
  destruct Hok as [-> | ->]; [done|]. by rewrite orb_true_r.
Qed.

(** X7: what a worker returns, whatever the flags: its result is for the
    task it was given, it never skips under [force], a success has left
    a valid JPEG at the output path, any other result has left the
    output path as it was, and no path other than the output path and
    its temp file has changed. *)
Theorem worker_result_sound fuel t picsdir force timeout retry_count validate_existing
    rate_limit_kbps w w1 result :
  let outpath := task_outpath repr_other picsdir t in
  download_worker_task repr_other env fuel t picsdir force timeout retry_count
    validate_existing rate_limit_kbps w = Some (w1, Ret result) ->
  r_task result = t
  /\ (force = true -> r_status result ≠ Skipped)
  /\ match r_status result with
     | Success => verify_jpeg (w_fs w1) outpath = true
     | _ => w_fs w1 !! outpath = w_fs w !! outpath
     end
  /\ (forall q, q ≠ outpath -> q ≠ outpath +:+ ".part" -> w_fs w1 !! q = w_fs w !! q).
Proof.
  intros outpath. unfold download_worker_task, read_cancel.
  fold (task_outpath repr_other picsdir t). fold outpath.
  destruct (cancel_flag _); [by intros [= <- <-]|].
  destruct (negb (os_path_isdir _ _)); [by intros [= <- <-]|].
  rewrite checkpoint_fs.
  destruct (os_path_exists (w_fs w) outpath && negb force && _) eqn:Hskip.
  { intros [= <- <-]. repeat split; try done.
    intros ->. by rewrite andb_false_r in Hskip. }
  destruct (download_file _ _ _ _ _ _ _ _) as [[w2 [[ok err]|e]]|] eqn:Hd; [| done | done].
  apply download_file_frame in Hd as (_ & Hframe & Hres).
  rewrite checkpoint_fs in Hframe.
  destruct ok.
  - destruct Hres as [_ Hv].
    intros [= <- <-]. repeat split; try done; intros q Hq1 Hq2; by apply Hframe.
  - destruct Hres as [_ Hkeep].
    rewrite checkpoint_fs in Hkeep.
    destruct (str_in _ _); intros [= <- <-]; (repeat split; try done);
      intros q Hq1 Hq2; by apply Hframe.
Qed.

(** X8: the requests of a worker are all for its task's URL, at most
    [retry_count] of them. *)
Theorem worker_request_bound fuel t picsdir force timeout retry_count validate_existing
    rate_limit_kbps w w1 r :
  download_worker_task repr_other env fuel t picsdir force timeout retry_count
    validate_existing rate_limit_kbps w = Some (w1, r) ->
  exists n, (Z.of_nat n <= Z.max 0 retry_count)%Z
            /\ w_requests w1 = w_requests w ++ replicate n (py_str repr_other (t_url t)).
Proof.
  unfold download_worker_task, read_cancel.
  assert (exists n, (Z.of_nat n <= Z.max 0 retry_count)%Z
            /\ w_requests (checkpoint env w)
               = w_requests w ++ replicate n (py_str repr_other (t_url t))) as H0.
  { exists 0%nat. split; [lia|]. simpl. by rewrite app_nil_r. }
  destruct (cancel_flag _); [by intros [= <- <-]|].
  destruct (negb (os_path_isdir _ _)); [by intros [= <- <-]|].
  destruct (_ && _); [by intros [= <- <-]|].
  destruct (download_file _ _ _ _ _ _ _ _) as [[w2 r2]|] eqn:Hd; [|done].
  apply download_file_frame in Hd as [Hd _].
  destruct r2 as [[[|] err]|e]; [| |]; try destruct (str_in _ _); by intros [= <- <-].
Qed.

End WorkerProperties.

(** ** What the completion loop records *)

Section Tallies.

Variable repr_other : jval -> string.
Variable env : environment.

Lemma apply_control_tallies c st : same_tallies st (apply_control c st).
Proof. by destruct c. Qed.

Lemma checkpoint_tallies w : same_tallies (w_state w) (w_state (checkpoint env w)).
Proof.
  unfold checkpoint. cbn [w_state]. generalize (w_state w) as st.
  induction (controls env (w_tick w)) as [|c cs IH]; intros st; simpl; [done|].
  destruct (IH (apply_control c st)) as (H1 & H2 & H3 & H4 & H5).
  destruct (apply_control_tallies c st) as (G1 & G2 & G3 & G4 & G5).
  unfold same_tallies. repeat split; congruence.
Qed.

Lemma handle_future_tallies f st :
  let st' := handle_future repr_other f st in
  processed st' = (processed st + count_where (returned_with Success) [f])%Z
  /\ skipped st' = (skipped st + count_where (returned_with Skipped) [f])%Z
  /\ errors st' = (errors st + count_where (returned_with Error) [f]
                   + count_where raised [f])%Z
  /\ total st' = total st
  /\ error_details st' = error_details st ++ omap error_detail_of [f].
Proof.
  unfold handle_future, count_where.
  destruct f as [[result|e]|]; cbn [returned_with raised error_detail_of List.filter omap list_omap].
  - destruct (r_status result); cbn [status_eqb length handle_future];
      repeat case_match; cbn; rewrite ?app_nil_r; repeat split; lia.
  - cbn. rewrite app_nil_r. repeat split; lia.
  - cbn. rewrite app_nil_r. repeat split; lia.
Qed.

Lemma count_where_cons p f futures :
  count_where p (f :: futures) = (count_where p [f] + count_where p futures)%Z.
Proof. unfold count_where. simpl. destruct (p f); simpl; lia. Qed.

(** X9: the loop adds to [processed], [skipped] and [errors] the number of
    futures that returned Success, Skipped and Error (an unexpected
    exception counting as an error), appends one error detail per Error
    result in completion order, and leaves [total] alone; a control
    request served meanwhile changes none of these. *)
Theorem completion_loop_tallies futures cancel_requested w :
  let st := w_state w in
  let st' := w_state (completion_loop repr_other env futures cancel_requested w) in
  processed st' = (processed st + count_where (returned_with Success) futures)%Z
  /\ skipped st' = (skipped st + count_where (returned_with Skipped) futures)%Z
  /\ errors st' = (errors st + count_where (returned_with Error) futures
                   + count_where raised futures)%Z
  /\ total st' = total st
  /\ error_details st' = error_details st ++ omap error_detail_of futures.
Proof.
  cbv zeta. revert cancel_requested w.
  induction futures as [|f rest IH]; intros cancel_requested w.
  { unfold count_where. cbn. rewrite app_nil_r. repeat split; first [lia | done]. }
  rewrite !(count_where_cons _ f rest).
  replace (omap error_detail_of (f :: rest))
    with (omap error_detail_of [f] ++ omap error_detail_of rest)
    by (by rewrite <- omap_app).
  destruct (checkpoint_tallies w) as (Hp & Hs & He & Ht & Hd).
  cbn [completion_loop]. unfold read_cancel.
  destruct (cancel_flag (w_state (checkpoint env w)) && negb cancel_requested);
    cbn beta iota zeta;
    match goal with |- context [completion_loop _ _ rest ?cr ?w'] =>
      destruct (IH cr w') as (-> & -> & -> & -> & ->) end;
    unfold log, with_state; cbn [w_state];
    match goal with |- context [handle_future _ f ?st] =>
      destruct (handle_future_tallies f st) as (-> & -> & -> & -> & ->) end;
    unfold add_log; cbn [processed skipped errors total error_details];
    rewrite Hp, Hs, He, Ht, Hd, <- ?app_assoc; repeat split; first [lia | done].
Qed.

End Tallies.

(** ** How a run ends *)

Lemma finish_same_counts w st :
  same_counts st (w_state w) -> same_counts st (w_state (finish w)).
Proof. intros H. exact H. Qed.

Lemma fatal_same_counts e w st :
  same_counts st (w_state w) -> same_counts st (w_state (fatal e w)).
Proof. intros H. unfold fatal. apply finish_same_counts. by apply log_same_counts. Qed.

Lemma set_api_error_same_counts e w st :
  same_counts st (w_state w) -> same_counts st (w_state (with_state (set_api_error e) w)).
Proof. intros H. exact H. Qed.

Ltac run_step :=
  lazymatch goal with
  | |- same_counts _ (w_state (finish _)) => apply finish_same_counts
  | |- same_counts _ (w_state (fatal _ _)) => apply fatal_same_counts
  | |- same_counts _ (w_state (log _ _ _)) => apply log_same_counts
  | |- same_counts _ (w_state (with_state (set_api_error _) _)) =>
      apply set_api_error_same_counts
  | |- same_counts _ (w_state (if ?b then _ else _)) => destruct b
  end.

Section RunEnd.

Variable repr_other : jval -> string.
Variable int_of_str : string -> option Z.
Variable env : environment.
Variable ext : collaborators.

(** X10: every run that returns has lowered [state.running], and one started
    on a reset state ends with the counters summing to at most [total]:
    on the early exits (bad configuration, invalid directory, catalog
    error, nothing to download) and after the downloads alike. *)
Theorem download_worker_main_ends fuel params w w1 :
  download_worker_main repr_other int_of_str env ext fuel params w = Some w1 ->
  running (w_state w1) = false
  /\ (counted (w_state w) = 0%Z -> (0 <= total (w_state w))%Z ->
      (0 <= counted (w_state w1) <= total (w_state w1))%Z).
Proof.
  unfold download_worker_main.
  match goal with |- context [log "🚀 Starting downloader..." "info" ?x] =>
    set (w0 := log "🚀 Starting downloader..." "info" x) end.
  assert (same_counts (w_state w) (w_state w0)) as H0 by done.
  assert (forall x, same_counts (w_state w) (w_state x) -> running (w_state x) = false ->
            Some x = Some w1 ->
            running (w_state w1) = false
            /\ (counted (w_state w) = 0%Z -> (0 <= total (w_state w))%Z ->
                (0 <= counted (w_state w1) <= total (w_state w1))%Z)) as Hend.
  { intros x [Hc Ht] Hr [= <-]. split; [done|]. intros Hz Hpos. rewrite Hc, Ht. lia. }
  destruct params as [| | | | | |params]; try (apply Hend; [by repeat run_step|done]).
  destruct (read_config int_of_str params) as [cfg|e];
    [|apply Hend; [by repeat run_step|done]].
  destruct (cfg_picsdir cfg) as [| | | |picsdir0| |];
    try (apply Hend; [by repeat run_step|done]).
  destruct (pi_suggested_path (analyze_pics_path (w_fs w0) picsdir0)) as [suggested|];
    cbv beta iota zeta.
  all: match goal with |- context [if ?b then Some (finish ?x) else _] =>
         destruct b; [apply Hend; [by repeat run_step|done]|] end.
  all: match goal with |- context [if ?b then Some (finish ?x) else _] =>
         destruct b; [apply Hend; [by repeat run_step|done]|] end.
  all: destruct (catalog ext) as [[|card cards]|e];
         try (apply Hend; [repeat run_step; exact H0|done]).
  all: destruct (filter_cards _ _ _) as [filtered|e];
         [|apply Hend; [repeat run_step; exact H0|done]].
  all: destruct (build_download_tasks filtered) as [tasks0|e];
         [|apply Hend; [repeat run_step; exact H0|done]].
  all: match goal with |- context [run_downloads _ _ _ _ ?ts ?p ?c ?x] =>
         assert (same_counts (w_state w) (w_state x)) as Hx
           by (repeat run_step; exact H0);
         destruct (run_downloads repr_other env ext fuel ts p c x) as [w2|] eqn:Hrun;
         [|done] end.
  all: intros [= <-]; split; [done|]; intros Hz Hpos;
       destruct Hx as [Hxc Hxt];
       apply run_downloads_within_total in Hrun as [_ Hb]; [|congruence];
       exact Hb.
Qed.

End RunEnd.

(** ** The catalog filter *)

Lemma sets_match_sound needle sets :
  sets_match needle sets = Ret true ->
  exists s name code, JObj s ∈ sets
    /\ str_or_empty (dict_get s "set_name") = Ret name
    /\ str_or_empty (dict_get s "set_code") = Ret code
    /\ str_in needle (str_lower name) || str_in needle (str_lower code) = true.
Proof.
  induction sets as [|x rest IH]; simpl; [done|].
  destruct x as [| | | | | |s]; try done.
  destruct (str_or_empty (dict_get s "set_name")) as [name|] eqn:Hn; simpl; [|done].
  destruct (str_or_empty (dict_get s "set_code")) as [code|] eqn:Hc; simpl; [|done].
  destruct (str_in needle (str_lower name) || str_in needle (str_lower code)) eqn:Hm.
  - intros _. exists s, name, code. repeat split; try done. apply list_elem_of_here.
  - intros (s' & n' & c' & Hin & H)%IH. exists s', n', c'. split; [|done].
    by apply list_elem_of_further.
Qed.

Lemma card_passes_sound type_filter set_filter card :
  card_passes type_filter set_filter card = Ret true ->
  (type_filter ≠ "" -> card_matches_type type_filter card)
  /\ (set_filter ≠ "" -> card_matches_set set_filter card).
Proof.
  unfold card_passes.
  destruct (String.eqb type_filter "") eqn:Ht.
  - apply String.eqb_eq in Ht as ->. simpl.
    destruct (String.eqb set_filter "") eqn:Hs.
    + apply String.eqb_eq in Hs as ->. done.
    + destruct card as [| | | | | |c]; try done.
      destruct (card_sets c) as [sets|] eqn:Hsets; simpl; [|done].
      intros (s & name & code & H)%sets_match_sound. split; [done|]. intros _.
      destruct H as (Hin' & Hn & Hc & Hm). exists c, sets, s, name, code. done.
  - destruct card as [| | | | | |c]; try done.
    destruct (str_or_empty (dict_get c "type")) as [ty|] eqn:Hty; simpl; [|done].
    destruct (str_in type_filter (str_lower ty)) eqn:Hin; simpl; [|done].
    assert (card_matches_type type_filter (JObj c)) as Hmt by (exists c, ty; done).
    destruct (String.eqb set_filter "") eqn:Hs.
    + apply String.eqb_eq in Hs as ->. done.
    + destruct (card_sets c) as [sets|] eqn:Hsets; simpl; [|done].
      intros (s & name & code & H)%sets_match_sound. split; [done|]. intros _.
      destruct H as (Hin' & Hn & Hc & Hm). exists c, sets, s, name, code. done.
Qed.

Lemma filter_cards_loop_spec type_filter set_filter cards filtered result :
  filter_cards_loop type_filter set_filter cards filtered = Ret result ->
  exists kept, result = filtered ++ kept
    /\ sublist kept cards
    /\ (forall card, card ∈ kept -> card_passes type_filter set_filter card = Ret true).
Proof.
  revert filtered. induction cards as [|card rest IH]; intros filtered; simpl.
  - intros [= <-]. exists []. rewrite app_nil_r. split; [done|]. split; [constructor|].
    by intros card ?%elem_of_nil.
  - destruct (card_passes type_filter set_filter card) as [[|]|] eqn:Hp; simpl; [| |done].
    + intros (kept & -> & Hsub & Hall)%IH. exists (card :: kept).
      rewrite <- app_assoc. split; [done|]. split; [by constructor|].
      intros x [->|Hx]%elem_of_cons; [done|by apply Hall].
    + intros (kept & -> & Hsub & Hall)%IH. exists kept.
      split; [done|]. split; [by constructor|done].
Qed.

(** X11: [filter_cards] never adds or reorders cards, and every card it keeps
    matches each filter that is not blank: its type contains the type
    filter, and one of its sets contains the set filter in its name or
    code, both compared in lower case with the filter stripped. *)
Theorem filter_cards_sound cards type_filter set_filter result tf sf :
  filter_cards cards type_filter set_filter = Ret result ->
  str_or_empty type_filter = Ret tf ->
  str_or_empty set_filter = Ret sf ->
  sublist result cards
  /\ (forall card, card ∈ result ->
        (str_lower (str_strip tf) ≠ "" -> card_matches_type (str_lower (str_strip tf)) card)
        /\ (str_lower (str_strip sf) ≠ "" ->
            card_matches_set (str_lower (str_strip sf)) card)).
Proof.
  unfold filter_cards. intros H Htf Hsf.
  destruct (negb (truthy type_filter) && negb (truthy set_filter)) eqn:Hnone.
  - inversion H; subst. split; [done|]. intros card _.
    apply andb_true_iff in Hnone as [Ht Hs].
    unfold str_or_empty, py_or in Htf, Hsf.
    apply negb_true_iff in Ht, Hs. rewrite Ht in Htf. rewrite Hs in Hsf.
    inversion Htf; inversion Hsf; subst. done.
  - rewrite Htf, Hsf in H. simpl in H.
    apply filter_cards_loop_spec in H as (kept & -> & Hsub & Hall).
    split; [done|]. intros card Hin. apply card_passes_sound. by apply Hall.
Qed.

Lemma filter_cards_loop_blank cards filtered :
  filter_cards_loop "" "" cards filtered = Ret (filtered ++ cards).
Proof.
  revert filtered. induction cards as [|card rest IH]; intros filtered; simpl.
  - by rewrite app_nil_r.
  - rewrite IH. by rewrite <- app_assoc.
Qed.

(** X12: filters that are missing, empty or blank pass every card, malformed
    ones included. *)
Theorem filter_cards_blank cards type_filter set_filter tf sf :
  str_or_empty type_filter = Ret tf ->
  str_or_empty set_filter = Ret sf ->
  str_strip tf = "" ->
  str_strip sf = "" ->
  filter_cards cards type_filter set_filter = Ret cards.
Proof.
  intros Htf Hsf Ht Hs. unfold filter_cards.
  destruct (negb (truthy type_filter) && negb (truthy set_filter)); [done|].
  rewrite Htf, Hsf. simpl. rewrite Ht, Hs. simpl.
  by rewrite filter_cards_loop_blank.
Qed.

(** ** The listing of existing images *)

Lemma append_cons c s t : String c s +:+ t = String c (s +:+ t).
Proof. reflexivity. Qed.

Lemma strip_prefix_app prefix rest : strip_prefix prefix (prefix +:+ rest) = Some rest.
Proof.
  induction prefix as [|c p IH]; [by destruct rest|].
  rewrite append_cons. simpl. by rewrite Ascii.eqb_refl.
Qed.

Lemma append_nil_r s : s +:+ "" = s.
Proof. induction s as [|c s IH]; [done|]. by rewrite append_cons, IH. Qed.

Lemma append_assoc a b c : (a +:+ b) +:+ c = a +:+ (b +:+ c).
Proof. induction a as [|x a IH]; [done|]. by rewrite !append_cons, IH. Qed.

Lemma str_in_prefix needle hay : str_in needle hay = false -> String.prefix needle hay = false.
Proof. destruct hay; simpl; by intros [? _]%orb_false_iff. Qed.

Lemma rev_app_spec s1 s2 : String.rev_app s1 s2 = String.rev s1 +:+ s2.
Proof.
  revert s2. induction s1 as [|a s1 IH]; intros s2; [done|].
  unfold String.rev. cbn [String.rev_app].
  by rewrite (IH (String a s2)), (IH (String a "")), append_assoc.
Qed.

Lemma rev_cons c s : String.rev (String c s) = String.rev s +:+ String c "".
Proof. unfold String.rev at 1. cbn [String.rev_app]. apply rev_app_spec. Qed.

Lemma rev_append a b : String.rev (a +:+ b) = String.rev b +:+ String.rev a.
Proof.
  induction a as [|c a IH]; [by rewrite append_nil_r|].
  by rewrite append_cons, !rev_cons, IH, append_assoc.
Qed.

Lemma endswith_append s suffix : endswith suffix (s +:+ suffix) = true.
Proof.
  unfold endswith. rewrite rev_append.
  induction (String.rev suffix) as [|c p IH]; [by destruct (String.rev s)|].
  rewrite append_cons. cbn [String.prefix]. by destruct (ascii_dec c c).
Qed.

(** A name without separator joins onto the directory's prefix. *)
Lemma os_path_join_name directory name :
  str_in "/" name = false ->
  os_path_join directory name = os_path_join directory "" +:+ name.
Proof.
  intros Hname%str_in_prefix. unfold os_path_join, startswith. rewrite Hname.
  change (String.prefix "/" "") with false. cbv iota.
  destruct (String.eqb directory "" || endswith "/" directory).
  - by rewrite append_nil_r.
  - change ("/" +:+ "") with "/". by rewrite (append_assoc directory "/" name).
Qed.

Lemma entry_name_join directory name :
  name ≠ "" -> str_in "/" name = false ->
  entry_name directory (os_path_join directory name) = Some name.
Proof.
  intros Hne Hsep. unfold entry_name.
  rewrite (os_path_join_name _ _ Hsep), strip_prefix_app, Hsep.
  destruct (String.eqb name "") eqn:He; [|done]. by apply String.eqb_eq in He.
Qed.

Lemma strip_prefix_sound prefix p rest :
  strip_prefix prefix p = Some rest -> p = prefix +:+ rest.
Proof.
  revert p. induction prefix as [|a prefix IH]; intros [|b p]; simpl; try done.
  - by intros [= <-].
  - by intros [= <-].
  - destruct (Ascii.eqb a b) eqn:Hab; [|done]. apply Ascii.eqb_eq in Hab as ->.
    intros H. by rewrite (IH p H).
Qed.

Lemma entry_name_sound directory p name :
  entry_name directory p = Some name ->
  p = os_path_join directory name /\ name ≠ "" /\ str_in "/" name = false.
Proof.
  unfold entry_name.
  destruct (strip_prefix _ p) as [rest|] eqn:Hp; [|done].
  destruct (String.eqb rest "") eqn:He; [done|].
  destruct (str_in "/" rest) eqn:Hsep; [done|]. intros [= <-].
  apply String.eqb_neq in He. apply strip_prefix_sound in Hp.
  by rewrite (os_path_join_name _ _ Hsep).
Qed.

(** The names [os.listdir] returns are the entries of the directory. *)
Lemma os_listdir_entries fs directory name :
  (exists names, os_listdir fs directory = Some names /\ name ∈ names)
  <-> dir_entry fs directory name.
Proof.
  unfold os_listdir, dir_entry. destruct (os_path_isdir fs directory); split.
  - intros (names & [= <-] & Hin).
    apply list_elem_of_omap in Hin as (p & Hp & Hname).
    apply entry_name_sound in Hname as (-> & Hne & Hsep).
    by apply elem_of_elements, elem_of_dom in Hp.
  - intros (_ & Hne & Hsep & Hfile). eexists. split; [done|].
    apply list_elem_of_omap. exists (os_path_join directory name).
    split; [|by apply entry_name_join].
    by apply elem_of_elements, elem_of_dom.
  - by intros (names & ? & _).
  - by intros [? _].
Qed.

(** The listing holds the lowered names of the entries whose lowered name
    ends in ".jpg", and nothing else. *)
Lemma list_existing_images_elem (fs : filesystem) (directory name : string) :
  name ∈ list_existing_images fs directory
  <-> exists entry, dir_entry fs directory entry
        /\ endswith ".jpg" (str_lower entry) = true
        /\ name = str_lower entry.
Proof.
  unfold list_existing_images.
  destruct (os_listdir fs directory) as [names|] eqn:Hls.
  - rewrite elem_of_list_to_set, list_elem_of_In, List.in_map_iff. split.
    + intros (entry & <- & [Hin Hjpg]%List.filter_In). exists entry.
      split; [|done]. apply os_listdir_entries. exists names.
      split; [done|]. by apply list_elem_of_In.
    + intros (entry & Hentry & Hjpg & ->). exists entry. split; [done|].
      apply List.filter_In. split; [|done].
      apply os_listdir_entries in Hentry as (names' & Hnames & Hin).
      rewrite Hls in Hnames. injection Hnames as <-. by apply list_elem_of_In.
  - split; [by intros ?%elem_of_empty|].
    intros (entry & Hentry & _). apply os_listdir_entries in Hentry as (names & Hnames & _).
    by rewrite Hls in Hnames.
Qed.

(** X13: [list_existing_images] returns nothing for a path that is not a
    directory; for a directory it returns exactly the lowered names of
    the entries whose lowered name ends in ".jpg": every name in the
    listing comes from such an entry, and every such entry is listed. *)
Theorem list_existing_images_spec (fs : filesystem) (directory : string) :
  (os_path_isdir fs directory = false -> list_existing_images fs directory = ∅)
  /\ (forall name,
        name ∈ list_existing_images fs directory
        <-> exists entry, dir_entry fs directory entry
              /\ endswith ".jpg" (str_lower entry) = true
              /\ name = str_lower entry).
Proof.
  split; [|apply list_existing_images_elem].
  unfold list_existing_images, os_listdir. by intros ->.
Qed.

(** ** The existing-file filter, once more *)

Lemma filter_sublist {A} (p : A -> bool) (l : list A) : sublist (List.filter p l) l.
Proof. induction l as [|a l IH]; simpl; [constructor|]. destruct (p a); by constructor. Qed.

Section FilterMore.

Variable repr_other : jval -> string.

Lemma filter_tasks_is_sublist fs tasks picsdir only_missing validate_existing :
  sublist (filter_tasks repr_other fs tasks picsdir only_missing validate_existing) tasks.
Proof.
  unfold filter_tasks.
  destruct (negb only_missing && negb validate_existing); [done|].
  rewrite filter_tasks_loop_filter. apply filter_sublist.
Qed.

(** X14: [filter_tasks] never adds, duplicates or reorders tasks, and with
    neither flag set it returns its input. *)
Theorem filter_tasks_sublist (fs : filesystem) (tasks : list task) (picsdir : string)
    (only_missing validate_existing : bool) :
  sublist (filter_tasks repr_other fs tasks picsdir only_missing validate_existing) tasks
  /\ (only_missing = false -> validate_existing = false ->
      filter_tasks repr_other fs tasks picsdir only_missing validate_existing = tasks).
Proof.
  split; [apply filter_tasks_is_sublist|]. by intros -> ->.
Qed.



(** X15: with [only_missing] and no validation, a standard-art task whose
    file is in the pics directory is dropped: the file name only has to
    be in lower case and free of separators, as the decimal ids of the
    catalog are. *)
Theorem filter_tasks_drops_present (fs : filesystem) (tasks : list task)
    (picsdir : string) (t : task) :
  t_subfolder t = "" ->
  str_lower (task_filename repr_other t) = task_filename repr_other t ->
  str_in "/" (task_filename repr_other t) = false ->
  os_path_isdir fs picsdir = true ->
  is_Some (fs !! task_outpath repr_other picsdir t) ->
  t ∉ filter_tasks repr_other fs tasks picsdir true false.
Proof.
  intros Hsub Hlow Hsep Hdir Hfile Hin.
  unfold filter_tasks in Hin. cbn [negb andb] in Hin. cbv zeta in Hin.
  rewrite filter_tasks_loop_filter in Hin. cbn [app] in Hin.
  apply list_elem_of_In, List.filter_In in Hin as [_ Hkept].
  unfold task_kept in Hkept. cbn [negb] in Hkept. rewrite orb_false_r in Hkept.
  assert (listed_on_disk repr_other fs picsdir t = true) as Hl.
  { unfold listed_on_disk, task_listed. rewrite Hsub. simpl.
    apply bool_decide_eq_true.
    unfold task_outpath, task_target_dir in Hfile. rewrite Hsub in Hfile. simpl in Hfile.
    apply list_existing_images_elem. exists (task_filename repr_other t).
    unfold dir_entry. repeat split; try done.
    - unfold task_filename. by destruct (py_str repr_other (t_image_id t)).
    - rewrite Hlow. apply endswith_append. }
  unfold listed_on_disk in Hl. by rewrite Hl in Hkept.
Qed.

End FilterMore.

(** ** The shape of the derived tasks *)

Lemma images_loop_shape card_id name images tasks result :
  images_loop card_id name images tasks = Ret result ->
  Forall task_shape tasks -> Forall task_shape result.
Proof.
  revert tasks. induction images as [|img rest IH]; intros tasks; simpl.
  - by intros [= <-].
  - destruct img as [| | | | | |img]; try done.
    intros H Hall. apply (IH _ H). unfold append_image_task.
    destruct (truthy (dict_get img "id")) eqn:Hid; simpl; [|done].
    destruct (truthy (dict_get img "image_url")) eqn:Hurl; [|done].
    apply Forall_app. split; [done|]. apply Forall_singleton. split; [done|]. by left.
Qed.

Lemma append_field_task_shape card_id name images tasks result :
  append_field_task card_id name images tasks = Ret result ->
  Forall task_shape tasks -> Forall task_shape result.
Proof.
  unfold append_field_task. destruct images as [|first_img rest]; [by intros [= <-]|].
  destruct (truthy first_img); [|by intros [= <-]].
  destruct first_img as [| | | | | |img]; try done.
  destruct (truthy (dict_get img "image_url_cropped")) eqn:Hurl; intros [= <-]; [|done].
  intros Hall. apply Forall_app. split; [done|]. apply Forall_singleton.
  split; [done|]. by right.
Qed.

Lemma cards_loop_shape cards tasks result :
  cards_loop cards tasks = Ret result ->
  Forall task_shape tasks -> Forall task_shape result.
Proof.
  revert tasks. induction cards as [|card rest IH]; intros tasks; simpl.
  - by intros [= <-].
  - destruct (card_step card tasks) as [tasks1|] eqn:Hstep; simpl; [|done].
    intros H Hall. apply (IH _ H). clear H IH.
    destruct card as [| | | | | |c]; try done. simpl in Hstep.
    destruct (card_images c) as [images|]; simpl in Hstep; [|done].
    destruct (images_loop _ _ images tasks) as [tasks2|] eqn:Hloop; simpl in Hstep; [|done].
    apply images_loop_shape in Hloop; [|done].
    destruct (is_field_spell _) as [[|]|]; simpl in Hstep; [| |done].
    + by apply append_field_task_shape in Hstep.
    + by inversion Hstep; subst.
Qed.

(** X16: whatever the catalog holds, the tasks [build_download_tasks] returns
    all have a truthy URL and are either standard art (subfolder "",
    truthy image id) or field crops (subfolder "field", image id equal
    to the card id). *)
Theorem build_download_tasks_shape cards tasks :
  build_download_tasks cards = Ret tasks -> Forall task_shape tasks.
Proof. intros H. by apply (cards_loop_shape _ _ _ H). Qed.

(** X17: one catalog entry that is not a dict makes the whole derivation
    raise, whatever tasks the entries before it gave. *)
Theorem build_download_tasks_bad_card before card after tasks_before :
  build_download_tasks before = Ret tasks_before ->
  (forall c, card ≠ JObj c) ->
  build_download_tasks (before ++ card :: after) = Raise no_get.
Proof.
  intros Hb Hbad. rewrite build_download_tasks_app, Hb, build_download_tasks_cons. simpl.
  destruct card as [| | | | | |c]; try done. by destruct (Hbad c).
Qed.

(** ** The analysis of the pics path *)

Ltac settle := repeat split; intros; destruct_and?; simplify_eq; try done; try congruence.

(** The four ways the analysis can come out. *)
Lemma analyze_pics_path_facts (fs : filesystem) (path : string) :
  let info := analyze_pics_path fs path in
  (pi_is_pics_folder info = true ->
     pi_exists info = true /\ pi_suggested_path info = None
     /\ pi_path info = Some (str_strip path)
     /\ os_path_isdir fs (str_strip path) = true
     /\ str_lower (os_path_basename (str_strip path)) = "pics")
  /\ (forall suggested, pi_suggested_path info = Some suggested ->
        pi_exists info = true /\ pi_is_pics_folder info = false
        /\ suggested = os_path_join (str_strip path) "pics"
        /\ os_path_isdir fs suggested = true)
  /\ (pi_exists info = false ->
        pi_is_pics_folder info = false /\ pi_suggested_path info = None)
  /\ (pi_exists info = true <-> path ≠ "" /\ os_path_exists fs (str_strip path) = true).
Proof.
  cbv zeta. unfold analyze_pics_path.
  destruct (String.eqb path "") eqn:Hempty.
  { apply String.eqb_eq in Hempty as ->. cbn [negb andb pi_exists pi_is_pics_folder pi_path pi_suggested_path]. settle. }
  apply String.eqb_neq in Hempty.
  destruct (os_path_exists fs (str_strip path)) eqn:Hex; cbn [negb andb pi_exists pi_is_pics_folder pi_path pi_suggested_path]; [|settle].
  destruct (os_path_isdir fs (str_strip path)) eqn:Hdir; cbn [negb andb pi_exists pi_is_pics_folder pi_path pi_suggested_path].
  - destruct (String.eqb (str_lower (os_path_basename (str_strip path))) "pics") eqn:Hn.
    + apply String.eqb_eq in Hn. cbn [negb andb pi_exists pi_is_pics_folder pi_path pi_suggested_path]. settle.
    + destruct (os_path_isdir fs (os_path_join (str_strip path) "pics")) eqn:Hsub;
        cbn [negb andb pi_exists pi_is_pics_folder pi_path pi_suggested_path]; settle.
  - destruct (os_path_isdir fs (os_path_join (str_strip path) "pics")) eqn:Hsub;
      cbn [negb andb pi_exists pi_is_pics_folder pi_path pi_suggested_path]; settle.
Qed.

(** X18: for a path that, stripped, is absolute and normal, what
    [analyze_pics_path] reports hangs together: a pics folder is an
    existing directory named "pics" (in any case) and comes without a
    suggestion; a suggestion is the directory [pics] inside an existing
    path that is not itself a pics folder; and a path that does not
    exist is neither. *)
Theorem analyze_pics_path_consistent (fs : filesystem) (path : string) :
  normal_path (str_strip path) = true ->
  let info := analyze_pics_path fs path in
  (pi_is_pics_folder info = true ->
     pi_exists info = true /\ pi_suggested_path info = None
     /\ pi_path info = Some (str_strip path)
     /\ os_path_isdir fs (str_strip path) = true
     /\ str_lower (os_path_basename (str_strip path)) = "pics")
  /\ (forall suggested, pi_suggested_path info = Some suggested ->
        pi_exists info = true /\ pi_is_pics_folder info = false
        /\ suggested = os_path_join (str_strip path) "pics"
        /\ os_path_isdir fs suggested = true)
  /\ (pi_exists info = false ->
        pi_is_pics_folder info = false /\ pi_suggested_path info = None)
  /\ (pi_exists info = true <-> path ≠ "" /\ os_path_exists fs (str_strip path) = true).
Proof. intros _. exact (analyze_pics_path_facts fs path). Qed.

(** ** The configuration, once more *)

Section ConfigMore.

Variable int_of_str : string -> option Z.

Lemma int_or_default_finite v dflt :
  (forall negative, v ≠ JFloat (FInf negative)) ->
  exists z, int_or_default int_of_str v dflt = Ret z.
Proof.
  intros Hfin. unfold int_or_default, py_int.
  destruct v as [| | |[| negative |]| | |]; simpl; eauto.
  - by destruct (Hfin negative).
  - destruct (int_of_str s); simpl; eauto.
Qed.

Lemma dict_get_default_finite (params : gmap string jval) key dflt :
  finite_setting params key ->
  (forall negative, dflt ≠ JFloat (FInf negative)) ->
  forall negative, dict_get_default params key dflt ≠ JFloat (FInf negative).
Proof.
  intros Hfin Hd negative. unfold dict_get_default.
  destruct (params !! key) as [v|] eqn:Hv; simpl; [|done].
  intros ->. by apply (Hfin negative).
Qed.

(** X20: [read_config] returns a configuration for every parameter dict in
    which none of the four numeric settings is an infinite number:
    missing, null, malformed and out-of-range values are all absorbed. *)
Theorem read_config_total (params : gmap string jval) :
  finite_setting params "concurrency" ->
  finite_setting params "timeout" ->
  finite_setting params "retry" ->
  finite_setting params "maxKbps" ->
  exists cfg, read_config int_of_str params = Ret cfg.
Proof.
  intros Hc Ht Hr Hk. unfold read_config.
  destruct (int_or_default_finite (dict_get_default params "concurrency" (JInt 12)) 12)
    as [c ->]; [by apply dict_get_default_finite|].
  destruct (int_or_default_finite (dict_get_default params "timeout" (JInt 30)) 30)
    as [t ->]; [by apply dict_get_default_finite|].
  destruct (int_or_default_finite (dict_get_default params "retry" (JInt 3)) 3)
    as [r ->]; [by apply dict_get_default_finite|].
  destruct (int_or_default_finite (dict_get_default params "maxKbps" (JInt 0)) 0)
    as [k ->]; [by apply dict_get_default_finite|].
  simpl. eauto.
Qed.

(** X21: what the returned configuration holds: a missing numeric setting
    takes its default, an integer one is clamped, [force] switches
    [only_missing] off and leaves [validate_existing] as requested. *)
Theorem read_config_values (params : gmap string jval) (cfg : config) :
  read_config int_of_str params = Ret cfg ->
  (params !! "concurrency" = None -> cfg_concurrency cfg = 12%Z)
  /\ (params !! "timeout" = None -> cfg_timeout cfg = 30%Z)
  /\ (params !! "retry" = None -> cfg_retry cfg = 3%Z)
  /\ (params !! "maxKbps" = None -> cfg_rate_limit_kbps cfg = 0%Z)
  /\ (forall z, params !! "concurrency" = Some (JInt z) ->
        cfg_concurrency cfg = Z.max 1 (Z.min 50 z))
  /\ (forall z, params !! "timeout" = Some (JInt z) ->
        cfg_timeout cfg = Z.max 10 (Z.min 120 z))
  /\ (forall z, params !! "retry" = Some (JInt z) -> cfg_retry cfg = Z.max 1 (Z.min 10 z))
  /\ (forall z, params !! "maxKbps" = Some (JInt z) ->
        cfg_rate_limit_kbps cfg = Z.max 0 z)
  /\ (cfg_force cfg = true -> cfg_only_missing cfg = false)
  /\ cfg_validate_existing cfg =
       truthy (dict_get_default params "validateExisting" (JBool false)).
Proof.
  unfold read_config.
  destruct (int_or_default int_of_str _ 12) as [c|] eqn:Hc; cbn [bind]; [|done].
  destruct (int_or_default int_of_str _ 30) as [t|] eqn:Ht; cbn [bind]; [|done].
  destruct (int_or_default int_of_str _ 3) as [r|] eqn:Hr; cbn [bind]; [|done].
  destruct (int_or_default int_of_str _ 0) as [k|] eqn:Hk; cbn [bind]; [|done].
  intros [= <-].
  cbn [cfg_concurrency cfg_timeout cfg_retry cfg_rate_limit_kbps
       cfg_force cfg_only_missing cfg_validate_existing].
  unfold dict_get_default in Hc, Ht, Hr, Hk.
  assert ((if (k <? 0)%Z then 0 else k) = Z.max 0 k)%Z as ->.
  { destruct (k <? 0)%Z eqn:Hz; [apply Z.ltb_lt in Hz|apply Z.ltb_ge in Hz]; lia. }
  split; [intros H; rewrite H in Hc; by inversion Hc|].
  split; [intros H; rewrite H in Ht; by inversion Ht|].
  split; [intros H; rewrite H in Hr; by inversion Hr|].
  split; [intros H; rewrite H in Hk; by inversion Hk|].
  split; [intros z H; rewrite H in Hc; by inversion Hc|].
  split; [intros z H; rewrite H in Ht; by inversion Ht|].
  split; [intros z H; rewrite H in Hr; by inversion Hr|].
  split; [intros z H; rewrite H in Hk; by inversion Hk|].
  split; [by intros ->|done].
Qed.

End ConfigMore.

(** ** The log buffer *)

(** X22: [add_log] keeps the buffer within 100 entries, the new entry last
    and the entries before it the most recent ones, in order. *)
Theorem add_log_bounded (message type : string) (st : DownloadState) :
  let entry := LogEntry type message in
  let st' := add_log message type st in
  (length (logs st') <= 100)%nat
  /\ last (logs st') = Some entry
  /\ logs st' `suffix_of` (logs st ++ [entry])
  /\ ((length (logs st) < 100)%nat -> logs st' = logs st ++ [entry]).
Proof.
  cbv zeta. unfold add_log. cbn [logs].
  set (l := logs st ++ [LogEntry type message]).
  assert (length l = S (length (logs st))) as Hlen
    by (unfold l; rewrite length_app; simpl; lia).
  destruct (100 <? length l)%nat eqn:Hfull.
  - apply Nat.ltb_lt in Hfull. unfold last_n. repeat split.
    + rewrite length_drop. lia.
    + rewrite last_lookup, lookup_drop, length_drop.
      replace (length l - 100 + pred (length l - (length l - 100)))%nat
        with (pred (length l)) by lia.
      rewrite <- last_lookup. apply last_snoc.
    + apply suffix_drop.
    + lia.
  - apply Nat.ltb_ge in Hfull. repeat split; try done. apply last_snoc.
Qed.

(** ** Cancellation *)

Lemma apply_control_keeps_cancel c st :
  cancel_flag st = true -> cancel_flag (apply_control c st) = true.
Proof. by destruct c. Qed.

Section Cancel.

Variable repr_other : jval -> string.
Variable env : environment.

(** No control request lowers the cancel flag. *)
Lemma checkpoint_keeps_cancel w :
  cancel_flag (w_state w) = true -> cancel_flag (w_state (checkpoint env w)) = true.
Proof.
  unfold checkpoint. cbn [w_state]. generalize (w_state w) as st.
  induction (controls env (w_tick w)) as [|c cs IH]; intros st; simpl; [done|].
  intros H. apply IH. by apply apply_control_keeps_cancel.
Qed.

(** X23: once the cancel flag is up, whatever control requests follow, the
    workers of the tasks still to run send no request and change no
    file, and each hands back a Cancelled result, which the completion
    loop does not count. *)
Theorem run_workers_after_cancel fuel tasks picsdir force timeout retry
    validate_existing rate_limit_kbps w :
  cancel_flag (w_state w) = true ->
  exists w1,
    run_workers repr_other env fuel tasks picsdir force timeout retry validate_existing
      rate_limit_kbps w =
      Some (w1, (fun t => Done (Ret (WorkerResult Cancelled t None))) <$> tasks)
    /\ w_requests w1 = w_requests w
    /\ w_fs w1 = w_fs w
    /\ cancel_flag (w_state w1) = true
    /\ Forall (fun f => counts_as f = 0%Z)
         ((fun t => Done (Ret (WorkerResult Cancelled t None))) <$> tasks).
Proof.
  revert w. induction tasks as [|t rest IH]; intros w Hc.
  { exists w. repeat split; try done; constructor. }
  pose proof (checkpoint_keeps_cancel w Hc) as Hc1.
  destruct (IH (checkpoint env w) Hc1) as (w1 & Hrun & Hreq & Hfs & Hc2 & Hall).
  exists w1. cbn [run_workers]. unfold download_worker_task, read_cancel.
  rewrite Hc1, Hrun. repeat split; try done. rewrite fmap_cons. by constructor.
Qed.

End Cancel.

(** ** Finding a free port *)

Section PortProperties.

Variable can_open : Z -> bool.
Variable can_bind : Z -> bool.



End PortProperties.

(** ** The saved configuration *)

(** X25: saving into a healthy file succeeds without a log line; what is
    loaded afterwards is a dict with every saved key at its new value
    and every other key as it was loaded before. *)
Theorem save_config_then_load (config : gmap string jval) (st : DownloadState)
    (cf : config_file) :
  config_healthy cf ->
  exists old new cf',
    load_config cf = JObj old
    /\ save_config config st cf = (true, st, cf')
    /\ load_config cf' = JObj new
    /\ config_healthy cf'
    /\ (forall k v, config !! k = Some v -> new !! k = Some v)
    /\ (forall k, config !! k = None -> new !! k = old !! k).
Proof.
  intros [Hw [Hc | [d Hc]]]; destruct cf as [content write]; simpl in *; subst.
  - exists ∅, (config ∪ ∅), (ConfigFile (StoredConfig (JObj (config ∪ ∅))) Written).
    repeat split; try done.
    + right. by eexists.
    + intros k v Hk. by apply lookup_union_Some_l.
    + intros k Hk. by rewrite lookup_union_r.
  - exists d, (config ∪ d), (ConfigFile (StoredConfig (JObj (config ∪ d))) Written).
    repeat split; try done.
    + right. by eexists.
    + intros k v Hk. by apply lookup_union_Some_l.
    + intros k Hk. by rewrite lookup_union_r.
Qed.

(** X26: saving into a file that cannot be read as a dict, or cannot be
    written, fails, and the failure goes to the log.  The file stays as
    it is when reading it or opening it for writing is what fails; when
    the write fails after the open, the file that was readable before is
    left unreadable, and loading gives the empty configuration. *)
Theorem save_config_failure (config : gmap string jval) (st : DownloadState)
    (cf : config_file) :
  ~ config_healthy cf ->
  exists error cf',
    save_config config st cf =
      (false, add_log ("Failed to save config: " +:+ error) "error" st, cf')
    /\ (~ config_readable cf -> cf' = cf)
    /\ (forall e, cf_write cf = OpenFails e -> cf' = cf)
    /\ (config_readable cf ->
        forall e unreadable, cf_write cf = DumpFails e unreadable ->
          error = e /\ cf_content cf' = BadConfig unreadable /\ load_config cf' = JObj ∅).
Proof.
  unfold config_healthy, config_readable, save_config. intros Hbad.
  destruct cf as [content write]. cbn [cf_content cf_write] in *.
  destruct content as [|error|[| | | | | |d]]; destruct write as [|e1|e1 u1];
    try (destruct Hbad; by eauto);
    cbn [load_config cf_content cf_write];
    eexists _, _; (split; [reflexivity|]);
    (split; [intros Hno; try done; destruct Hno; by eauto|]);
    (split; [done|]);
    intros Hyes e u Hw; try done;
    try (destruct Hyes as [?|[? ?]]; done);
    by injection Hw as <- <-.
Qed.

(** ** Walking up to a pics folder *)

Lemma drop_last_component_suffix l : drop_last_component l `suffix_of` l.
Proof.
  induction l as [|c l IH]; simpl; [done|].
  destruct (Ascii.eqb c "/"); [done|]. by apply suffix_cons_r.
Qed.

Lemma rstrip_slashes_suffix l : rstrip_slashes l `suffix_of` l.
Proof.
  induction l as [|c l IH]; simpl; [done|].
  destruct (Ascii.eqb c "/"); [|done]. by apply suffix_cons_r.
Qed.

Lemma length_string_of_list l : String.length (string_of_list_ascii l) = length l.
Proof. induction l as [|c l IH]; simpl; [done|]. by rewrite IH. Qed.

Lemma length_list_of_string s : length (list_ascii_of_string s) = String.length s.
Proof. induction s as [|c s IH]; simpl; [done|]. by rewrite IH. Qed.

(** The parent of a path is the path itself or strictly shorter. *)
Lemma os_path_dirname_shorter p :
  os_path_dirname p = p \/ (String.length (os_path_dirname p) < String.length p)%nat.
Proof.
  unfold os_path_dirname.
  set (chars := list_ascii_of_string p).
  set (head := drop_last_component (rev chars)).
  assert (forall x, x `suffix_of` rev chars ->
            string_of_list_ascii (rev x) = p
            \/ (String.length (string_of_list_ascii (rev x)) < String.length p)%nat) as H.
  { intros x [k Hk]. destruct k as [|c k].
    - left. simpl in Hk. rewrite <- Hk, rev_involutive. apply string_of_list_ascii_of_string.
    - right. rewrite length_string_of_list, length_rev.
      rewrite <- (length_list_of_string p). fold chars.
      rewrite <- (length_rev chars), Hk, length_app. simpl. lia. }
  pose proof (drop_last_component_suffix (rev chars)) as Hhead. fold head in Hhead.
  destruct (rstrip_slashes head) as [|c stripped] eqn:Hs; [by apply H|].
  apply H. etrans; [|exact Hhead]. rewrite <- Hs. apply rstrip_slashes_suffix.
Qed.

Lemma find_pics_loop_total fuel fs current levels max_levels :
  (String.length current < fuel)%nat ->
  exists found, find_pics_loop fuel fs current levels max_levels = Some found.
Proof.
  revert current levels. induction fuel as [|fuel IH]; intros current levels Hlen; [lia|].
  cbn [find_pics_loop].
  destruct (os_path_isdir fs (os_path_join current "pics")); [by eauto|].
  destruct (String.eqb (os_path_dirname current) current) eqn:Heq; [by eauto|].
  apply String.eqb_neq in Heq.
  destruct (os_path_dirname_shorter current) as [?|Hshort]; [done|].
  destruct max_levels as [m|].
  - destruct (m <=? levels + 1)%Z; [by eauto|]. apply IH. lia.
  - apply IH. lia.
Qed.

Lemma find_pics_loop_sound fuel fs current levels max_levels found :
  find_pics_loop fuel fs current levels max_levels = Some (Some found) ->
  exists n, found = os_path_join (parent_at n current) "pics"
    /\ os_path_isdir fs found = true
    /\ (forall k, (k < n)%nat ->
          os_path_isdir fs (os_path_join (parent_at k current) "pics") = false)
    /\ (forall m, max_levels = Some m -> n = 0%nat \/ (levels + Z.of_nat n < m)%Z).
Proof.
  revert current levels. induction fuel as [|fuel IH]; intros current levels; [done|].
  cbn [find_pics_loop].
  destruct (os_path_isdir fs (os_path_join current "pics")) eqn:Hdir.
  { intros [= <-]. exists 0%nat. split; [done|]. split; [done|].
    split; [intros k Hk; lia | intros m Hm; by left]. }
  destruct (String.eqb (os_path_dirname current) current); [done|].
  assert (find_pics_loop fuel fs (os_path_dirname current) (levels + 1) max_levels
            = Some (Some found) ->
          (forall m, max_levels = Some m -> (levels + 1 < m)%Z) ->
          exists n, found = os_path_join (parent_at n current) "pics"
            /\ os_path_isdir fs found = true
            /\ (forall k, (k < n)%nat ->
                  os_path_isdir fs (os_path_join (parent_at k current) "pics") = false)
            /\ (forall m, max_levels = Some m -> n = 0%nat \/ (levels + Z.of_nat n < m)%Z))
    as Hstep.
  { intros (n & -> & Hfound & Hnear & Hmax)%IH Hlevels. exists (S n).
    assert (forall j, parent_at j (os_path_dirname current) = parent_at (S j) current) as Hp.
    { intros j. unfold parent_at. induction j as [|j IHj]; simpl; [done|]. by rewrite IHj. }
    rewrite Hp in *. repeat split; try done.
    - intros k Hk. destruct k as [|k]; [done|]. rewrite <- Hp. apply Hnear. lia.
    - intros m Hm. right. destruct (Hmax m Hm) as [->|?]; [|lia].
      specialize (Hlevels m Hm). lia. }
  destruct max_levels as [m|].
  - destruct (m <=? levels + 1)%Z eqn:Hm; [done|]. apply Z.leb_gt in Hm.
    intros H. apply Hstep; [done|]. by intros ? [= <-].
  - intros H. by apply Hstep.
Qed.

(** X27: started at an absolute, normal path, [find_pics_in_parents]
    always comes back (the walk ends at the root); what it returns is a
    directory [pics] directly inside the start directory or one of its
    parents, the nearest one, and at most [max_levels - 1] steps up when
    a limit is given. *)
Theorem find_pics_in_parents_nearest (fs : filesystem) (start_dir : string)
    (max_levels : option Z) :
  normal_path start_dir = true ->
  (exists found,
     find_pics_loop (S (String.length start_dir)) fs start_dir 0 max_levels = Some found)
  /\ (forall found, find_pics_in_parents fs start_dir max_levels = Some found ->
        exists n, found = os_path_join (parent_at n start_dir) "pics"
          /\ os_path_isdir fs found = true
          /\ (forall k, (k < n)%nat ->
                os_path_isdir fs (os_path_join (parent_at k start_dir) "pics") = false)
          /\ (forall m, max_levels = Some m -> n = 0%nat \/ (Z.of_nat n < m)%Z))
  /\ (os_path_isdir fs (os_path_join start_dir "pics") = true ->
        find_pics_in_parents fs start_dir max_levels = Some (os_path_join start_dir "pics")).
Proof.
  intros _. split; [apply find_pics_loop_total; lia|]. split.
  - unfold find_pics_in_parents. intros found.
    destruct (find_pics_loop _ _ _ _ _) as [[f|]|] eqn:Hloop; try done.
    intros [= ->]. apply find_pics_loop_sound in Hloop as (n & H1 & H2 & H3 & H4).
    exists n. repeat split; done.
  - intros Hdir. unfold find_pics_in_parents. cbn [find_pics_loop]. by rewrite Hdir.
Qed.

(** ** Following the suggestion of [analyze_pics_path] *)

Lemma rev_involutive_string s : String.rev (String.rev s) = s.
Proof.
  induction s as [|c s IH]; [done|].
  rewrite rev_cons, rev_append, IH. reflexivity.
Qed.

Lemma length_append a b : String.length (a +:+ b) = (String.length a + String.length b)%nat.
Proof. induction a as [|c a IH]; [done|]. rewrite append_cons. simpl. by rewrite IH. Qed.

Lemma length_rev_string s : String.length (String.rev s) = String.length s.
Proof.
  induction s as [|c s IH]; [done|].
  rewrite rev_cons, length_append, IH. simpl. lia.
Qed.

(** What [os.path.join(c, "pics")] looks like for a non-empty [c]. *)
Lemma os_path_join_pics c :
  c ≠ "" -> exists x, os_path_join c "pics" = x +:+ "/pics" /\ (x = "" \/ exists y, c = x +:+ y).
Proof.
  intros Hne. unfold os_path_join. change (startswith "/" "pics") with false. cbv iota.
  destruct (String.eqb c "") eqn:He; [by apply String.eqb_eq in He|]. simpl.
  destruct (endswith "/" c) eqn:Hend.
  - unfold endswith in Hend. change (String.rev "/") with "/" in Hend.
    destruct (String.rev c) as [|a r] eqn:Hr; cbn [String.prefix] in Hend; [done|].
    destruct (ascii_dec "/" a) as [Ha|Ha]; [subst a|done].
    assert (c = String.rev r +:+ "/") as ->.
    { rewrite <- (rev_involutive_string c), Hr. apply rev_cons. }
    exists (String.rev r). split; [by rewrite append_assoc|]. right. by eexists.
  - exists c. split; [done|]. right. exists "". by rewrite append_nil_r.
Qed.

Lemma list_of_append a b :
  list_ascii_of_string (a +:+ b) = list_ascii_of_string a ++ list_ascii_of_string b.
Proof. induction a as [|c a IH]; [done|]. rewrite append_cons. simpl. by rewrite IH. Qed.

Lemma os_path_basename_pics x : os_path_basename (x +:+ "/pics") = "pics".
Proof.
  unfold os_path_basename. rewrite list_of_append, rev_app_distr. reflexivity.
Qed.

(** ** [strip] *)

Lemma strip_prefix_length prefix p rest :
  strip_prefix prefix p = Some rest ->
  String.length p = (String.length prefix + String.length rest)%nat.
Proof.
  revert p. induction prefix as [|a prefix IH]; intros [|b p]; simpl; try done.
  - by intros [= <-].
  - by intros [= <-].
  - destruct (Ascii.eqb a b); [|done]. intros H. by rewrite (IH p H).
Qed.

Lemma strip_prefix_append prefix p q rest :
  strip_prefix prefix p = Some rest -> strip_prefix prefix (p +:+ q) = Some (rest +:+ q).
Proof.
  revert p. induction prefix as [|a prefix IH]; intros [|b p]; simpl; try done.
  - by intros [= <-].
  - by intros [= <-].
  - destruct (Ascii.eqb a b); [|done]. apply IH.
Qed.

(** A prefix of [c ++ rest] is a prefix of [c] or runs into [rest]. *)
Lemma strip_prefix_split space c b rest r :
  strip_prefix space (c +:+ String b rest) = Some r ->
  is_Some (strip_prefix space c)
  \/ exists v, space = c +:+ String b v.
Proof.
  revert c. induction space as [|a space IH]; intros c; [by left; destruct c; eauto|].
  destruct c as [|x c].
  - simpl. destruct (Ascii.eqb a b) eqn:Hab; [|done]. apply Ascii.eqb_eq in Hab as ->.
    intros _. right. by exists space.
  - rewrite append_cons. simpl. destruct (Ascii.eqb a x) eqn:Hax; [|done].
    apply Ascii.eqb_eq in Hax as ->. intros H.
    destruct (IH c H) as [Hs | [v ->]]; [by left|]. right. by exists v.
Qed.

Section Strip.

Variable seqs : list string.
Hypothesis nonempty : Forall (fun space => space ≠ "") seqs.

Lemma drop_space_Some s rest :
  drop_space seqs s = Some rest -> exists space, space ∈ seqs /\ strip_prefix space s = Some rest.
Proof.
  clear nonempty. induction seqs as [|space l IH]; simpl; [done|].
  destruct (strip_prefix space s) as [r|] eqn:Hp.
  - intros [= <-]. exists space. split; [by left|done].
  - intros H. destruct (IH H) as (x & Hx & Hr). exists x. split; [by right|done].
Qed.

Lemma drop_space_None s :
  drop_space seqs s = None <-> forall space, space ∈ seqs -> strip_prefix space s = None.
Proof.
  clear nonempty. induction seqs as [|space l IH]; simpl.
  - split; [|done]. intros _ x Hx. by apply elem_of_nil in Hx.
  - destruct (strip_prefix space s) as [r|] eqn:Hp.
    + split; [done|]. intros H. rewrite (H space) in Hp; [done|by left].
    + rewrite IH. split.
      * intros H x [->|Hx]%elem_of_cons; [done|by apply H].
      * intros H x Hx. apply H. by right.
Qed.

Lemma drop_space_shorter s rest :
  drop_space seqs s = Some rest -> (String.length rest < String.length s)%nat.
Proof.
  intros (space & Hin & Hp)%drop_space_Some.
  apply strip_prefix_length in Hp.
  rewrite Forall_forall in nonempty. specialize (nonempty space Hin).
  destruct space; [done|]. simpl in Hp. lia.
Qed.

Lemma lstrip_loop_fixed fuel s : drop_space seqs s = None -> lstrip_loop seqs fuel s = s.
Proof. destruct fuel; simpl; [done|]. by intros ->. Qed.

Lemma lstrip_loop_spec fuel s :
  (String.length s <= fuel)%nat ->
  (exists blanks, s = blanks +:+ lstrip_loop seqs fuel s)
  /\ drop_space seqs (lstrip_loop seqs fuel s) = None.
Proof.
  revert s. induction fuel as [|n IH]; intros s Hlen.
  { destruct s; [|simpl in Hlen; lia]. simpl. split; [by exists ""|].
    apply drop_space_None. intros space Hin.
    rewrite Forall_forall in nonempty. specialize (nonempty space Hin). by destruct space. }
  simpl. destruct (drop_space seqs s) as [rest|] eqn:Hd; [|split; [by exists ""|done]].
  pose proof (drop_space_shorter _ _ Hd) as Hshort.
  destruct (IH rest) as [[blanks Hb] Hnone]; [lia|]. split; [|done].
  apply drop_space_Some in Hd as (space & _ & Hp). apply strip_prefix_sound in Hp.
  exists (space +:+ blanks). by rewrite append_assoc, <- Hb.
Qed.

Lemma drop_space_prefix p q : drop_space seqs (p +:+ q) = None -> drop_space seqs p = None.
Proof.
  rewrite !drop_space_None. intros H space Hin. specialize (H space Hin).
  destruct (strip_prefix space p) as [r|] eqn:Hp; [|done].
  by rewrite (strip_prefix_append _ _ q _ Hp) in H.
Qed.

Lemma drop_space_append c b rest :
  drop_space seqs c = None -> c ≠ "" ->
  forallb (fun space => negb (later_byte b space)) seqs = true ->
  drop_space seqs (c +:+ String b rest) = None.
Proof.
  rewrite !drop_space_None. intros Hc Hne Hlater space Hin.
  destruct (strip_prefix space (c +:+ String b rest)) as [r|] eqn:Hp; [|done].
  apply strip_prefix_split in Hp as [[r' Hr'] | [v ->]].
  - by rewrite (Hc space Hin) in Hr'.
  - rewrite forallb_forall in Hlater.
    specialize (Hlater _ (proj1 (list_elem_of_In _ _) Hin)).
    destruct c as [|x c]; [done|]. rewrite append_cons in Hlater. simpl in Hlater.
    apply negb_true_iff, bool_decide_eq_false in Hlater. destruct Hlater.
    rewrite list_of_append. apply elem_of_app. right. by left.
Qed.

Lemma drop_space_first b rest :
  forallb (fun space => negb (first_byte b space)) seqs = true ->
  drop_space seqs (String b rest) = None.
Proof.
  intros Hfirst. apply drop_space_None. intros space Hin.
  rewrite forallb_forall in Hfirst.
  specialize (Hfirst _ (proj1 (list_elem_of_In _ _) Hin)).
  destruct space as [|a space]; [by rewrite Forall_forall in nonempty; destruct (nonempty "" Hin)|].
  simpl in *. by destruct (Ascii.eqb a b).
Qed.

End Strip.

Lemma space_seqs_nonempty : Forall (fun space => space ≠ "") space_seqs.
Proof. apply Forall_forall. intros space Hin Hnil. subst. vm_compute in Hin.
  repeat (apply elem_of_cons in Hin as [Hin|Hin]; [discriminate|]). by apply elem_of_nil in Hin. Qed.

Lemma rev_seqs_nonempty : Forall (fun space => space ≠ "") (String.rev <$> space_seqs).
Proof. apply Forall_forall. intros space Hin Hnil. subst. vm_compute in Hin.
  repeat (apply elem_of_cons in Hin as [Hin|Hin]; [discriminate|]). by apply elem_of_nil in Hin. Qed.

Lemma lstrip_spec s :
  (exists blanks, s = blanks +:+ lstrip s) /\ drop_space space_seqs (lstrip s) = None.
Proof. apply lstrip_loop_spec; [apply space_seqs_nonempty|done]. Qed.

Lemma rstrip_spec s :
  (exists blanks, s = rstrip s +:+ blanks)
  /\ drop_space (String.rev <$> space_seqs) (String.rev (rstrip s)) = None.
Proof.
  unfold rstrip.
  destruct (lstrip_loop_spec _ rev_seqs_nonempty (String.length s) (String.rev s))
    as [[blanks Hb] Hnone]; [by rewrite length_rev_string|].
  rewrite rev_involutive_string. split; [|done].
  exists (String.rev blanks). by rewrite <- rev_append, <- Hb, rev_involutive_string.
Qed.

Lemma rstrip_fixed s :
  drop_space (String.rev <$> space_seqs) (String.rev s) = None -> rstrip s = s.
Proof.
  intros H. unfold rstrip. by rewrite lstrip_loop_fixed, rev_involutive_string.
Qed.

Lemma lstrip_fixed s : drop_space space_seqs s = None -> lstrip s = s.
Proof. apply lstrip_loop_fixed. Qed.

(** What [strip] returns has no white space at either end. *)
Lemma str_strip_ends s :
  drop_space space_seqs (str_strip s) = None
  /\ drop_space (String.rev <$> space_seqs) (String.rev (str_strip s)) = None.
Proof.
  unfold str_strip. split; [|apply rstrip_spec].
  destruct (rstrip_spec (lstrip s)) as [[blanks Hb] _].
  apply (drop_space_prefix _ _ blanks). rewrite <- Hb. apply lstrip_spec.
Qed.

Lemma str_strip_fixed s :
  drop_space space_seqs s = None ->
  drop_space (String.rev <$> space_seqs) (String.rev s) = None ->
  str_strip s = s.
Proof. intros H1 H2. unfold str_strip. by rewrite (lstrip_fixed s H1), rstrip_fixed. Qed.

(** [s.strip().strip() == s.strip()] *)
Lemma str_strip_idem s : str_strip (str_strip s) = str_strip s.
Proof. destruct (str_strip_ends s). by apply str_strip_fixed. Qed.

Lemma str_strip_pics x c :
  c ≠ "" -> str_strip c = c -> x +:+ "/pics" = os_path_join c "pics" ->
  str_strip (x +:+ "/pics") = x +:+ "/pics".
Proof.
  intros Hne Hc Hjoin. destruct (str_strip_ends c) as [Hlead _]. rewrite Hc in Hlead.
  apply str_strip_fixed.
  - rewrite Hjoin. unfold os_path_join. change (startswith "/" "pics") with false. cbv iota.
    destruct (String.eqb c "" || endswith "/" c);
      by apply (drop_space_append _ c _ _ Hlead Hne).
  - rewrite rev_append. change (String.rev "/pics") with "scip/". rewrite append_cons.
    by apply (drop_space_first _ rev_seqs_nonempty).
Qed.

(** A second [strip] before the analysis changes nothing, blank input
    apart. *)
Lemma analyze_pics_path_stripped fs path :
  str_strip path ≠ "" ->
  analyze_pics_path fs (str_strip path) = analyze_pics_path fs path.
Proof.
  intros Hne. unfold analyze_pics_path. rewrite str_strip_idem.
  destruct (String.eqb (str_strip path) "") eqn:H1; [by apply String.eqb_eq in H1|].
  destruct (String.eqb path "") eqn:H2; [|done].
  apply String.eqb_eq in H2 as ->. done.
Qed.

Lemma analyze_pics_path_blank fs path :
  str_strip path = "" -> pi_exists (analyze_pics_path fs (str_strip path)) = false.
Proof. by intros ->. Qed.

(** A suggestion is a pics folder. *)
Lemma analyze_suggested (fs : filesystem) (path suggested : string) :
  pi_suggested_path (analyze_pics_path fs path) = Some suggested ->
  analyze_pics_path fs suggested = PathInfo true true (Some suggested) None.
Proof.
  intros Hsug.
  destruct (analyze_pics_path_facts fs path) as (_ & Hs & _ & _).
  destruct (Hs suggested Hsug) as (_ & _ & -> & Hdir).
  pose proof (str_strip_idem path) as Hstrip.
  set (c := str_strip path) in *.
  assert (exists x, os_path_join c "pics" = x +:+ "/pics"
                    /\ str_strip (x +:+ "/pics") = x +:+ "/pics"
          \/ os_path_join c "pics" = "pics") as Hform.
  { destruct (decide (c = "")) as [->|Hne]; [exists ""; by right|].
    destruct (os_path_join_pics c Hne) as (x & Hx & _).
    exists x. left. split; [done|].
    by apply (str_strip_pics x c Hne Hstrip). }
  destruct Hform as [x [[Hx Hfix] | Hx]]; rewrite Hx in *; unfold analyze_pics_path.
  - destruct (String.eqb (x +:+ "/pics") "") eqn:He.
    { apply String.eqb_eq in He. by destruct x. }
    rewrite Hfix. unfold os_path_exists.
    rewrite Hdir, os_path_basename_pics. simpl.
    unfold os_path_isdir in Hdir. destruct (fs !! (x +:+ "/pics")) as [[]|]; try done.
  - change (String.eqb "pics" "") with false. change (str_strip "pics") with "pics".
    cbv iota. unfold os_path_exists. rewrite Hdir.
    unfold os_path_isdir in Hdir. destruct (fs !! "pics") as [[]|]; try done.
Qed.

(** X19: when [analyze_pics_path] suggests a path, analysing the suggestion
    finds a pics folder, with nothing further to suggest: the callers'
    second look always succeeds. *)
Theorem analyze_suggestion_is_pics_folder (fs : filesystem) (path suggested : string) :
  pi_suggested_path (analyze_pics_path fs path) = Some suggested ->
  analyze_pics_path fs suggested = PathInfo true true (Some suggested) None.
Proof. exact (analyze_suggested fs path suggested). Qed.

(** ** The preview *)

Section Preview.

Variable repr_other : jval -> string.

(** X28: the counts of a preview are ordered: no more cards than the catalog
    has, no more to download than there are tasks; and under [force]
    every task is to be downloaded. *)
Theorem api_preview_counts fs cards (params : gmap string jval) total_cards total_tasks
    to_download :
  api_preview repr_other fs (Ret cards) (Some (JObj params)) =
    Ret (PreviewCounts total_cards total_tasks to_download) ->
  (0 <= total_cards <= Z.of_nat (length cards))%Z
  /\ (0 <= to_download <= total_tasks)%Z
  /\ (truthy (dict_get_default params "force" (JBool false)) = true ->
      to_download = total_tasks).
Proof.
  unfold api_preview.
  destruct (dict_get_default params "picsdir" (JStr "")) as [| | | |raw| |]; try done.
  destruct (pi_suggested_path (analyze_pics_path fs (str_strip raw))) as [suggested|];
    cbv beta iota zeta;
    (match goal with |- context [if ?b then Ret (PreviewError _) else _] =>
       destruct b; [done|] end);
    (destruct (filter_cards cards _ _) as [filtered|] eqn:Hfc; cbn [bind]; [|done]);
    (destruct (build_download_tasks filtered) as [tasks|] eqn:Hb; cbn [bind]; [|done]);
    intros [= <- <- <-];
    (assert (sublist filtered cards) as Hsub
       by (unfold filter_cards in Hfc;
           destruct (negb _ && negb _);
           [ by inversion Hfc
           | destruct (str_or_empty _) as [tf|]; [|done];
             destruct (str_or_empty _) as [sf|]; [|done];
             cbn [bind] in Hfc;
             by apply filter_cards_loop_spec in Hfc as (kept & -> & Hk & _) ]));
    apply sublist_length in Hsub;
    (match goal with |- context [filter_tasks _ _ tasks ?p ?om ?ve] =>
       pose proof (sublist_length _ _
                     (filter_tasks_is_sublist repr_other fs tasks p om ve)) as Hlen end);
    (split; [lia|]); (split; [lia|]);
    intros ->; reflexivity.
Qed.

End Preview.

Section ConfigFields.

Variable int_of_str : string -> option Z.

(** The settings [read_config] passes through untouched. *)
Lemma read_config_fields (params : gmap string jval) (cfg : config) :
  read_config int_of_str params = Ret cfg ->
  cfg_picsdir cfg = dict_get_default params "picsdir" (JStr "./pics")
  /\ cfg_only_missing cfg =
       (if truthy (dict_get_default params "force" (JBool false)) then false
        else truthy (dict_get_default params "onlyMissing" (JBool false)))
  /\ cfg_validate_existing cfg =
       truthy (dict_get_default params "validateExisting" (JBool false))
  /\ cfg_type_filter cfg = dict_get_default params "typeFilter" (JStr "")
  /\ cfg_set_filter cfg = dict_get_default params "setFilter" (JStr "").
Proof.
  unfold read_config. cbv zeta.
  destruct (int_or_default int_of_str (dict_get_default params "concurrency" _) 12);
    cbn [bind]; [|done].
  destruct (int_or_default int_of_str (dict_get_default params "timeout" _) 30);
    cbn [bind]; [|done].
  destruct (int_or_default int_of_str (dict_get_default params "retry" _) 3);
    cbn [bind]; [|done].
  destruct (int_or_default int_of_str (dict_get_default params "maxKbps" _) 0);
    cbn [bind]; [|done].
  by intros [= <-].
Qed.

End ConfigFields.

Lemma filter_cards_nil type_filter set_filter result :
  filter_cards [] type_filter set_filter = Ret result -> result = [].
Proof.
  unfold filter_cards. destruct (negb _ && negb _); [by intros [= <-]|].
  destruct (str_or_empty type_filter); [|done].
  destruct (str_or_empty set_filter); [|done].
  cbn [bind filter_cards_loop]. by intros [= <-].
Qed.

Lemma filter_tasks_nil repr_other fs picsdir only_missing validate_existing :
  filter_tasks repr_other fs [] picsdir only_missing validate_existing = [].
Proof.
  apply sublist_nil_r.
  apply (filter_tasks_is_sublist repr_other fs [] picsdir only_missing validate_existing).
Qed.

Section PreviewAndRun.

Variable repr_other : jval -> string.
Variable int_of_str : string -> option Z.
Variable env : environment.
Variable ext : collaborators.

(** A run that returns leaves [total] at the number of tasks it was
    given. *)
Lemma run_downloads_total fuel tasks picsdir cfg w w1 :
  run_downloads repr_other env ext fuel tasks picsdir cfg w = Some w1 ->
  total (w_state w1) = Z.of_nat (length tasks).
Proof.
  unfold run_downloads. cbv zeta beta.
  set (w0 := with_state (set_total (Z.of_nat (length tasks))) w).
  assert (same_counts (w_state w0) (w_state w0)) as H00 by apply same_counts_refl.
  assert (total (w_state w0) = Z.of_nat (length tasks)) as Ht0 by reflexivity.
  destruct (total (w_state w0) =? 0)%Z eqn:Hz.
  { intros [= <-].
    assert (same_counts (w_state w0)
              (w_state (with_state (set_running false)
                          (log "✅ All images already downloaded" "success" w0)))) as [_ ->].
    { apply (log_same_counts "✅ All images already downloaded" "success" w0 _ H00). }
    exact Ht0. }
  match goal with
  | |- match run_workers _ _ _ _ _ _ _ _ _ _ ?wl with _ => _ end = _ -> _ =>
      assert (same_counts (w_state w0) (w_state wl)) as Hlog
        by (repeat run_step; exact H00);
      destruct (run_workers repr_other env fuel tasks picsdir (cfg_force cfg)
                  (cfg_timeout cfg) (cfg_retry cfg) (cfg_validate_existing cfg)
                  (cfg_rate_limit_kbps cfg) wl) as [[w2 futures]|] eqn:Hw; [|done]
  end.
  apply run_workers_futures in Hw as [Hlen Hsame].
  intros [= <-].
  destruct (final_summary_same_counts env ext picsdir
              (completion_loop repr_other env futures false w2)) as [_ ->].
  destruct (completion_loop_counted repr_other env futures false w2) as [_ ->].
  destruct Hsame as [_ ->]. destruct Hlog as [_ ->]. exact Ht0.
Qed.

(** From the catalog request on, the preview and the run go the same
    way. *)
Ltac agree_tail :=
  match goal with
  | |- context [if negb (os_path_isdir ?fs (os_path_join ?p "field")) then _ else _] =>
      destruct (negb (os_path_isdir fs (os_path_join p "field")))
  end;
  (match goal with |- context [catalog ?x] =>
     destruct (catalog x) as [[|card cards]|e]; [| |done] end;
  [ destruct (filter_cards [] _ _) as [filtered|e] eqn:Hfc; cbn [bind]; [|done];
    match goal with H : filter_cards [] _ _ = Ret _ |- _ =>
      apply filter_cards_nil in H as -> end;
    change (build_download_tasks []) with (Ret (@nil task)); cbn [bind];
    rewrite filter_tasks_nil; intros [= <- <- <-] [= <-];
    match goal with Hsame : forall x, _ -> total (w_state x) = 0%Z |- _ =>
      apply Hsame end;
    repeat run_step; assumption
  | destruct (filter_cards (_ :: _) _ _) as [filtered|e]; cbn [bind]; [|done];
    destruct (build_download_tasks _) as [tasks|e]; cbn [bind]; [|done];
    intros [= <- <- <-];
    match goal with |- context [run_downloads ?r ?e ?x ?f ?ts ?p ?c ?wl] =>
      destruct (run_downloads r e x f ts p c wl) as [w2|] eqn:Hrun; [|done] end;
    intros [= <-];
    match goal with H : run_downloads _ _ _ _ _ _ _ _ = Some ?w2 |- _ =>
      apply run_downloads_total in H;
      change (total (w_state (finish w2))) with (total (w_state w2));
      rewrite H; reflexivity end ]).

(** A preview that gives counts was given a [picsdir] that is a string
    with more than blanks in it. *)
Lemma api_preview_counts_picsdir fs api_answer (params : gmap string jval)
    total_cards total_tasks to_download :
  api_preview repr_other fs api_answer (Some (JObj params)) =
    Ret (PreviewCounts total_cards total_tasks to_download) ->
  exists raw, params !! "picsdir" = Some (JStr raw) /\ str_strip raw ≠ "".
Proof.
  unfold api_preview, dict_get_default at 1.
  assert (forall picsdir,
            str_strip picsdir = "" ->
            analyze_pics_path fs (str_strip picsdir) = PathInfo false false None None)
    as Hblank by (by intros picsdir ->).
  destruct (params !! "picsdir") as [[| | | |raw| |]|]; cbn [default from_option id];
    try done.
  destruct (decide (str_strip raw = "")) as [He|Hne]; [|by eauto].
  cbv zeta. by rewrite (Hblank raw He).
Qed.

(** X29: the preview and the run agree.  For a request whose [picsdir],
    stripped, is an absolute and normal path, that does not ask for
    [force] and [validateExisting] together, and whose numeric settings
    the run accepts, a run started on a reset state, with the files and
    the catalog the preview saw, ends with [total] at the preview's
    [to_download]. *)
Theorem preview_matches_run fuel (params : gmap string jval) picsdir cfg w w1
    total_cards total_tasks to_download :
  params !! "picsdir" = Some (JStr picsdir) ->
  normal_path (str_strip picsdir) = true ->
  (truthy (dict_get_default params "force" (JBool false)) = true ->
   truthy (dict_get_default params "validateExisting" (JBool false)) = false) ->
  read_config int_of_str params = Ret cfg ->
  total (w_state w) = 0%Z ->
  api_preview repr_other (w_fs w) (catalog ext) (Some (JObj params)) =
    Ret (PreviewCounts total_cards total_tasks to_download) ->
  download_worker_main repr_other int_of_str env ext fuel (JObj params) w = Some w1 ->
  total (w_state w1) = to_download.
Proof.
  intros Hgiven _ Hforce Hcfg Hzero Hprev.
  destruct (api_preview_counts_picsdir _ _ _ _ _ _ Hprev) as (raw & Hdir & Hne).
  rewrite Hgiven in Hdir. injection Hdir as <-. rename Hgiven into Hdir.
  revert Hprev.
  destruct (read_config_fields int_of_str params cfg Hcfg) as (Hp & Hom & Hve & Htf & Hsf).
  assert (forall dflt, dict_get_default params "picsdir" dflt = JStr picsdir) as Hget
    by (intros dflt; unfold dict_get_default; by rewrite Hdir).
  rewrite Hget in Hp.
  unfold api_preview, download_worker_main.
  rewrite Hcfg, Hp, Hget, (analyze_pics_path_stripped _ _ Hne).
  match goal with |- context [log "🚀 Starting downloader..." "info" ?x] =>
    set (w0 := log "🚀 Starting downloader..." "info" x) end.
  change (w_fs w0) with (w_fs w).
  assert (same_counts (w_state w) (w_state w0)) as H0 by done.
  assert (forall x, same_counts (w_state w) (w_state x) -> total (w_state x) = 0%Z)
    as Hsame by (intros x [_ ->]; exact Hzero).
  cbv zeta.
  assert ((if truthy (dict_get_default params "force" (JBool false)) then false
           else truthy (dict_get_default params "validateExisting" (JBool false)))
          = truthy (dict_get_default params "validateExisting" (JBool false))) as Hvalidate.
  { destruct (truthy (dict_get_default params "force" (JBool false))); [|done].
    by rewrite Hforce. }
  rewrite Hvalidate, Htf, Hsf, Hom, Hve. clear Hvalidate Htf Hsf Hom Hve Hforce.
  destruct (analyze_pics_path_facts (w_fs w) picsdir) as (Hpics & Hsug & _ & _).
  cbv zeta in Hpics, Hsug.
  destruct (pi_suggested_path (analyze_pics_path (w_fs w) picsdir)) as [suggested|] eqn:Hs;
    cbv beta iota; rewrite ?Hs.
  - pose proof (analyze_suggested _ _ _ Hs) as Hinfo.
    destruct (Hsug suggested eq_refl) as (_ & _ & _ & Hisdir).
    rewrite Hinfo. cbn [pi_exists pi_is_pics_folder pi_suggested_path negb orb andb].
    cbv beta iota.
    change (w_fs (log ("ℹ️  Selected folder contains 'pics'. Using: " +:+ suggested)
                    "info" w0)) with (w_fs w).
    rewrite Hisdir. cbn [negb].
    cbv beta iota.
    agree_tail.
  - assert (bool_decide (is_Some (@None string)) = false) as -> by done.
    destruct (pi_is_pics_folder (analyze_pics_path (w_fs w) picsdir)) eqn:Hpf.
    2: { cbn [negb andb]. rewrite orb_true_r. done. }
    destruct (Hpics eq_refl) as (-> & _ & -> & Hisdir & _).
    cbn [negb orb andb default]. cbv beta iota.
    change (id (str_strip picsdir)) with (str_strip picsdir).
    change (w_fs w0) with (w_fs w).
    rewrite Hisdir. cbn [negb]. cbv beta iota.
    agree_tail.
Qed.

End PreviewAndRun.

Section PathCheck.

Variable repr_other : jval -> string.

(** Past the directory check, a preview does not answer "Invalid pics
    directory". *)
Lemma preview_past_directory fs api_answer type_filter set_filter picsdir only_missing
    validate_existing :
  match api_answer with
  | Raise e => Ret (PreviewError ("API error: " +:+ e_msg e))
  | Ret cards =>
      do filtered_cards <- filter_cards cards type_filter set_filter;
      do tasks <- build_download_tasks filtered_cards;
      Ret (PreviewCounts (Z.of_nat (length filtered_cards)) (Z.of_nat (length tasks))
             (Z.of_nat (length (filter_tasks repr_other fs tasks picsdir only_missing
                                  validate_existing))))
  end ≠ Ret (PreviewError "Invalid pics directory").
Proof.
  destruct api_answer as [cards|e]; [|by rewrite append_cons].
  destruct (filter_cards cards type_filter set_filter) as [filtered|]; cbn [bind]; [|done].
  by destruct (build_download_tasks filtered).
Qed.

(** X30: the path check and the preview agree: for the same path, the check
    answers [valid: false] exactly when the preview answers "Invalid
    pics directory", whatever the catalog request gives. *)
Theorem validate_path_agrees_with_preview fs api_answer (request preview : gmap string jval)
    valid exists_ is_pics_folder path suggested_path :
  dict_get_default request "path" (JStr "") = dict_get_default preview "picsdir" (JStr "") ->
  api_validate_path fs (Some (JObj request)) =
    Ret (ValidateInfo valid exists_ is_pics_folder path suggested_path) ->
  valid = false <->
  api_preview repr_other fs api_answer (Some (JObj preview)) =
    Ret (PreviewError "Invalid pics directory").
Proof.
  unfold api_validate_path, api_preview. intros ->.
  destruct (dict_get_default preview "picsdir" (JStr "")) as [| | | |raw| |]; try done.
  cbv zeta. intros [= <- _ _ _ _].
  destruct (analyze_pics_path_facts fs (str_strip raw)) as (_ & Hsug & _ & _).
  cbv zeta in Hsug.
  destruct (pi_suggested_path (analyze_pics_path fs (str_strip raw))) as [suggested|] eqn:Hs;
    cbv beta iota.
  - destruct (Hsug suggested eq_refl) as (-> & _ & _ & _).
    rewrite (analyze_suggested _ _ _ Hs).
    cbn [pi_exists pi_is_pics_folder negb orb andb]. cbv iota.
    rewrite orb_true_r. split; [done|].
    intros H. by apply preview_past_directory in H.
  - rewrite Hs. assert (bool_decide (is_Some (@None string)) = false) as -> by done.
    rewrite orb_false_r. cbn [negb]. rewrite andb_true_r.
    destruct (pi_exists _), (pi_is_pics_folder _); cbn [negb orb andb]; cbv iota;
      split; try done; intros H; by apply preview_past_directory in H.
Qed.

End PathCheck.

End Program.

(** ** The properties on concrete inputs *)

#[global] Existing Instance plain_text.

(** The first scenario of the specification: one spell card with one
    image yields its one standard-art task. *)
Example build_download_tasks_spell_scenario :
  build_download_tasks [JObj spell_card] = Ret [spell_task].
Proof. vm_compute. reflexivity. Qed.

Lemma build_download_tasks_field_spell_witness :
  build_download_tasks ([JObj spell_card] ++ JObj field_card :: []) =
    Ret ([spell_task] ++ standard_tasks field_card [field_image]
         ++ field_crop_tasks field_card [field_image] ++ [])
  /\ field_crop_tasks field_card [field_image] = [field_task]
  /\ (forall t, t ∈ field_crop_tasks field_card [field_image] ->
        t_subfolder t = "field" /\ t_image_id t = dict_get field_card "id").
Proof.
  apply (build_download_tasks_field_spell [JObj spell_card] field_card [field_image] []
           [spell_task] [] "Field Spell Card"); vm_compute; reflexivity.
Defined.

Lemma build_download_tasks_standard_witness :
  build_download_tasks ([JObj spell_card] ++ JObj patchy_card :: [JObj field_card]) =
    Ret ([spell_task] ++ [Task (JInt 3) (JStr "P") (JInt 3) (JStr "u3") ""] ++ []
         ++ [Task (JInt 2) (JStr "Unknown") (JInt 2) (JStr "u2") ""; field_task])
  /\ length (standard_tasks patchy_card patchy_images) = 1%nat.
Proof.
  destruct (build_download_tasks_standard [JObj spell_card] patchy_card patchy_images
              [JObj field_card] [spell_task]
              [Task (JInt 2) (JStr "Unknown") (JInt 2) (JStr "u2") ""; field_task] false)
    as (Hbuild & _ & _ & Hlen & _); try (vm_compute; reflexivity).
  split; [exact Hbuild | exact Hlen].
Defined.


(** The scenario of the specification with validation: the valid file's
    task is dropped, the truncated file's task is kept. *)
Example filter_tasks_validating :
  filter_tasks repr_unmodelled pics_with_files [task5; task6] "/pics" true true = [task6].
Proof. vm_compute. reflexivity. Qed.

(** The scenario with [only_missing] alone: the present file is dropped
    unchecked. *)
Example filter_tasks_only_missing :
  filter_tasks repr_unmodelled pics_with_files [task5; task6] "/pics" true false = [].
Proof. vm_compute. reflexivity. Qed.

Example start_rejected_while_running_scenario :
  do_POST ApiStart (Some start_params) running_server =
    (HttpResponse 409 ("error", "Download already in progress"), running_server).
Proof. apply (start_rejected_while_running start_params running_server). reflexivity. Qed.

Lemma second_start_accepted_witness :
  (do_POST ApiStart (Some start_params)
     (do_POST ApiStart (Some start_params) idle_server).2).1
    = HttpResponse 200 ("status", "started")
  /\ srv_threads (do_POST ApiStart (Some start_params)
                    (do_POST ApiStart (Some start_params) idle_server).2).2
     = [start_params; start_params].
Proof.
  destruct (second_start_accepted start_params start_params idle_server eq_refl)
    as (_ & _ & _ & Hanswer & Hthreads & _).
  split; [exact Hanswer | exact Hthreads].
Defined.

Lemma download_file_leaves_no_part_witness :
  exists w1 result,
    download_file serving 1 "u1" "/pics/1.jpg" 30 3 0 (fresh_world (pics_with_part false))
      = Some (w1, Ret result)
    /\ w_fs w1 !! "/pics/1.jpg.part" = None.
Proof.
  eexists _, _. split.
  - vm_compute. reflexivity.
  - apply (download_file_leaves_no_part serving 1 "u1" "/pics/1.jpg" 30 3 0
             (fresh_world (pics_with_part false)) _ (true, None)).
    + lia.
    + vm_compute. exact I.
    + vm_compute. reflexivity.
Defined.

(** C2 fails as stated: with no attempt to make, [download_file] returns
    "Max retries exceeded" without looking at the temp file; and a temp
    file that cannot be removed is still there after the last attempt. *)
Lemma download_file_part_remains :
  (exists w1 result,
     download_file serving 1 "u1" "/pics/1.jpg" 30 0 0 (fresh_world (pics_with_part false))
       = Some (w1, Ret result)
     /\ result = (false, Some "Max retries exceeded")
     /\ is_Some (w_fs w1 !! "/pics/1.jpg.part"))
  /\ (exists w1 result,
        download_file serving 1 "u1" "/pics/1.jpg" 30 3 0 (fresh_world (pics_with_part true))
          = Some (w1, Ret result)
        /\ result = (false, Some "After 3 attempts: [Errno 13] Permission denied: '/pics/1.jpg.part'")
        /\ is_Some (w_fs w1 !! "/pics/1.jpg.part")).
Proof.
  split; eexists _, _; (split; [vm_compute; reflexivity|]);
    (split; [reflexivity|]); vm_compute; eauto.
Qed.

Lemma worker_missing_directory_witness :
  download_worker_task repr_unmodelled serving 1 field_task "/pics" false 30 3 false 0
    (fresh_world pics_only) =
    Some (checkpoint serving (fresh_world pics_only),
          Ret (WorkerResult Error field_task
                 (Some "Target directory not found: /pics/field")))
  /\ w_requests (checkpoint serving (fresh_world pics_only)) = []
  /\ w_fs (checkpoint serving (fresh_world pics_only)) = pics_only.
Proof.
  destruct (worker_missing_directory repr_unmodelled serving 1 field_task "/pics" false
              30 3 false 0 (fresh_world pics_only)) as (Hres & Hreq & Hfs & _);
    [reflexivity | reflexivity |].
  split; [exact Hres | split; [exact Hreq | exact Hfs]].
Defined.

(** C10 fails as stated: the cancel flag is looked at first, so a worker
    that finds it set returns Cancelled, not Error, for a task whose
    directory is missing. *)
Lemma worker_missing_directory_cancelled :
  os_path_isdir pics_only (task_target_dir "/pics" field_task) = false
  /\ download_worker_task repr_unmodelled serving 1 field_task "/pics" false 30 3 false 0
       (World (set_flags true false initial_state) pics_only 0 []) =
     Some (World (set_flags true false initial_state) pics_only 1 [],
           Ret (WorkerResult Cancelled field_task None)).
Proof. split; reflexivity. Qed.

(** C1 fails on a download error whose text contains "Cancelled": the
    worker reports the task as cancelled, the coordinator counts
    nothing, and a run in which the cancel flag is never set ends
    "completed" with one task dispatched and none accounted for. *)
Theorem uncounted_failure_without_cancel :
  exists w,
    download_worker_main repr_unmodelled int_of_decimal refusing one_spell_catalog 1
      start_params (fresh_world pics_only) = Some w
    /\ total (w_state w) = 1%Z
    /\ counted (w_state w) = 0%Z
    /\ error_details (w_state w) = []
    /\ cancel_flag (w_state w) = false
    /\ In (LogEntry "success" "✅ DOWNLOAD COMPLETED") (logs (w_state w)).
Proof.
  eexists. split; [vm_compute; reflexivity|].
  repeat split; vm_compute; tauto.
Qed.

(** ** The further properties on concrete inputs *)

Lemma download_file_failure_keeps_outpath_witness :
  exists w1 err,
    download_file refusing 1 "u1" "/pics/1.jpg" 30 3 0 (fresh_world pics_only)
      = Some (w1, Ret (false, err))
    /\ is_Some err
    /\ w_fs w1 !! "/pics/1.jpg" = pics_only !! "/pics/1.jpg".
Proof.
  eexists _, _. split; [vm_compute; reflexivity|].
  apply (download_file_failure_keeps_outpath refusing 1 "u1" "/pics/1.jpg" 30 3 0
           (fresh_world pics_only)).
  vm_compute. reflexivity.
Defined.

Lemma download_file_success_is_valid_witness :
  exists w1 err,
    download_file serving 1 "u1" "/pics/1.jpg" 30 3 0 (fresh_world pics_only)
      = Some (w1, Ret (true, err))
    /\ err = None
    /\ verify_jpeg (w_fs w1) "/pics/1.jpg" = true.
Proof.
  eexists _, _. split; [vm_compute; reflexivity|].
  apply (download_file_success_is_valid serving 1 "u1" "/pics/1.jpg" 30 3 0
           (fresh_world pics_only)).
  vm_compute. reflexivity.
Defined.

Lemma download_file_touches_two_paths_witness :
  exists w1 r,
    download_file serving 1 "u1" "/pics/1.jpg" 30 3 0 (fresh_world pics_with_files)
      = Some (w1, r)
    /\ w_fs w1 !! "/pics/6.jpg" = pics_with_files !! "/pics/6.jpg".
Proof.
  eexists _, _. split; [vm_compute; reflexivity|].
  eapply (download_file_touches_two_paths serving 1 "u1" "/pics/1.jpg" 30 3 0
           (fresh_world pics_with_files) _ _ "/pics/6.jpg").
  - vm_compute. reflexivity.
  - discriminate.
  - discriminate.
Defined.

Lemma download_file_request_bound_witness :
  exists w1 r,
    download_file refusing 1 "u1" "/pics/1.jpg" 30 3 0 (fresh_world pics_only) = Some (w1, r)
    /\ exists n, (Z.of_nat n <= Z.max 0 3)%Z /\ w_requests w1 = [] ++ replicate n "u1".
Proof.
  eexists _, _. split; [vm_compute; reflexivity|].
  eapply (download_file_request_bound refusing 1 "u1" "/pics/1.jpg" 30 3 0
           (fresh_world pics_only)).
  vm_compute. reflexivity.
Defined.

Lemma download_file_exhausts_retries_witness :
  exists w1,
    download_file refusing 1 "u1" "/pics/1.jpg" 30 3 0 (fresh_world pics_only) =
      Some (w1, Ret (false, Some "After 3 attempts: HTTP Error 503: Cancelled"))
    /\ w_requests w1 = ["u1"; "u1"; "u1"].
Proof.
  apply (download_file_exhausts_retries refusing (fun _ => eq_refl) 1 "u1" "/pics/1.jpg"
           30 3 0 (Exn HTTPError "HTTP Error 503: Cancelled") (fresh_world pics_only)).
  - reflexivity.
  - reflexivity.
  - reflexivity.
  - lia.
Defined.

Lemma worker_skips_existing_witness :
  download_worker_task repr_unmodelled serving 1 task5 "/pics" false 30 3 true 0
    (fresh_world pics_with_files) =
    Some (checkpoint serving (fresh_world pics_with_files),
          Ret (WorkerResult Skipped task5 None))
  /\ w_requests (checkpoint serving (fresh_world pics_with_files)) = []
  /\ w_fs (checkpoint serving (fresh_world pics_with_files)) = pics_with_files.
Proof.
  apply (worker_skips_existing repr_unmodelled serving 1 task5 "/pics" 30 3 true 0
           (fresh_world pics_with_files)).
  - reflexivity.
  - reflexivity.
  - reflexivity.
  - right. vm_compute. reflexivity.
Defined.

Lemma worker_result_sound_witness :
  exists w1 result,
    download_worker_task repr_unmodelled serving 1 spell_task "/pics" true 30 3 false 0
      (fresh_world pics_only) = Some (w1, Ret result)
    /\ r_task result = spell_task
    /\ r_status result ≠ Skipped.
Proof.
  eexists _, _. split; [vm_compute; reflexivity|].
  edestruct (worker_result_sound repr_unmodelled serving 1 spell_task "/pics" true 30 3 false
               0 (fresh_world pics_only)) as (Htask & Hforce & _).
  - vm_compute. reflexivity.
  - split; [exact Htask | exact (Hforce eq_refl)].
Defined.

Lemma worker_request_bound_witness :
  exists w1 r,
    download_worker_task repr_unmodelled refusing 1 spell_task "/pics" false 30 3 false 0
      (fresh_world pics_only) = Some (w1, r)
    /\ exists n, (Z.of_nat n <= Z.max 0 3)%Z /\ w_requests w1 = [] ++ replicate n "u1".
Proof.
  eexists _, _. split; [vm_compute; reflexivity|].
  eapply (worker_request_bound repr_unmodelled refusing 1 spell_task "/pics" false 30 3 false
           0 (fresh_world pics_only)).
  vm_compute. reflexivity.
Defined.

Lemma download_worker_main_ends_witness :
  exists w1,
    download_worker_main repr_unmodelled int_of_decimal serving one_spell_catalog 1
      start_params (fresh_world pics_only) = Some w1
    /\ running (w_state w1) = false
    /\ (0 <= counted (w_state w1) <= total (w_state w1))%Z.
Proof.
  eexists. split; [vm_compute; reflexivity|].
  destruct (download_worker_main_ends repr_unmodelled int_of_decimal serving
              one_spell_catalog 1 start_params (fresh_world pics_only) _
              ltac:(vm_compute; reflexivity)) as [Hrun Hcount].
  split; [exact Hrun|]. apply Hcount; [reflexivity | vm_compute; discriminate].
Defined.

Lemma filter_cards_sound_witness :
  sublist [JObj field_card] [JObj spell_card; JObj field_card]
  /\ (forall card, card ∈ [JObj field_card] ->
        (str_lower (str_strip " Field ") ≠ "" ->
         card_matches_type (str_lower (str_strip " Field ")) card)
        /\ (str_lower (str_strip "") ≠ "" ->
            card_matches_set (str_lower (str_strip "")) card)).
Proof.
  apply (filter_cards_sound [JObj spell_card; JObj field_card] (JStr " Field ") JNull).
  - vm_compute. reflexivity.
  - reflexivity.
  - reflexivity.
Defined.

Lemma filter_cards_blank_witness :
  filter_cards [JObj spell_card; JInt 7] (JStr "  ") JNull = Ret [JObj spell_card; JInt 7].
Proof.
  apply (filter_cards_blank [JObj spell_card; JInt 7] (JStr "  ") JNull "  " "");
    reflexivity.
Defined.

Lemma filter_tasks_drops_present_witness :
  task5 ∉ filter_tasks repr_unmodelled pics_with_files [task5; task6] "/pics" true false.
Proof.
  apply (filter_tasks_drops_present repr_unmodelled pics_with_files [task5; task6] "/pics"
           task5).
  - reflexivity.
  - reflexivity.
  - reflexivity.
  - reflexivity.
  - vm_compute. eexists. reflexivity.
Defined.

Lemma build_download_tasks_shape_witness :
  exists tasks,
    build_download_tasks [JObj spell_card; JObj field_card] = Ret tasks
    /\ Forall task_shape tasks.
Proof.
  eexists. split; [vm_compute; reflexivity|].
  apply (build_download_tasks_shape [JObj spell_card; JObj field_card]).
  vm_compute. reflexivity.
Defined.

Lemma build_download_tasks_bad_card_witness :
  build_download_tasks ([JObj spell_card] ++ JInt 7 :: [JObj field_card]) = Raise no_get.
Proof.
  apply (build_download_tasks_bad_card [JObj spell_card] (JInt 7) [JObj field_card]
           [spell_task]).
  - vm_compute. reflexivity.
  - discriminate.
Defined.

Lemma analyze_suggestion_is_pics_folder_witness :
  analyze_pics_path game_folder "/game/pics" = PathInfo true true (Some "/game/pics") None.
Proof.
  apply (analyze_suggestion_is_pics_folder game_folder "/game" "/game/pics").
  vm_compute. reflexivity.
Defined.

Lemma read_config_total_witness :
  exists cfg, read_config int_of_decimal odd_request = Ret cfg.
Proof.
  apply (read_config_total int_of_decimal odd_request);
    intros negative; vm_compute; discriminate.
Defined.

Lemma read_config_values_witness :
  exists cfg,
    read_config int_of_decimal odd_request = Ret cfg
    /\ cfg_retry cfg = 10%Z
    /\ cfg_rate_limit_kbps cfg = 0%Z.
Proof.
  eexists. split; [vm_compute; reflexivity|].
  destruct (read_config_values int_of_decimal odd_request _ ltac:(vm_compute; reflexivity))
    as (_ & _ & _ & Hkbps & _ & _ & Hretry & _).
  split; [exact (Hretry 99%Z eq_refl) | exact (Hkbps eq_refl)].
Defined.

Lemma run_workers_after_cancel_witness :
  exists w1,
    run_workers repr_unmodelled serving 1 [spell_task; field_task] "/pics" false 30 3 false 0
      (cancelled_world pics_only) =
      Some (w1, [Done (Ret (WorkerResult Cancelled spell_task None));
                 Done (Ret (WorkerResult Cancelled field_task None))])
    /\ w_requests w1 = []
    /\ w_fs w1 = pics_only.
Proof.
  destruct (run_workers_after_cancel repr_unmodelled serving 1 [spell_task; field_task]
              "/pics" false 30 3 false 0 (cancelled_world pics_only) eq_refl)
    as (w1 & Hrun & Hreq & Hfs & _).
  exists w1. split; [exact Hrun | split; [exact Hreq | exact Hfs]].
Defined.

Lemma save_config_then_load_witness :
  exists old new cf',
    load_config no_config_file = JObj old
    /\ save_config pics_request initial_state no_config_file = (true, initial_state, cf')
    /\ load_config cf' = JObj new
    /\ config_healthy cf'
    /\ (forall k v, pics_request !! k = Some v -> new !! k = Some v)
    /\ (forall k, pics_request !! k = None -> new !! k = old !! k).
Proof.
  apply (save_config_then_load pics_request initial_state no_config_file).
  split; [reflexivity | left; reflexivity].
Defined.

Lemma save_config_failure_witness :
  exists error cf',
    save_config pics_request initial_state full_disk_config_file =
      (false, add_log ("Failed to save config: " +:+ error) "error" initial_state, cf')
    /\ load_config cf' = JObj ∅.
Proof.
  destruct (save_config_failure pics_request initial_state full_disk_config_file)
    as (error & cf' & Hsave & _ & _ & Hdump).
  - intros [Hwrite _]. discriminate Hwrite.
  - exists error, cf'. split; [exact Hsave|].
    destruct (Hdump (or_intror (ex_intro _ pics_request eq_refl)) _ _ eq_refl)
      as (_ & _ & Hload).
    exact Hload.
Defined.

Lemma api_preview_counts_witness :
  exists total_cards total_tasks to_download,
    api_preview repr_unmodelled pics_with_files (Ret [JObj spell_card])
      (Some (JObj pics_request)) = Ret (PreviewCounts total_cards total_tasks to_download)
    /\ (0 <= total_cards <= 1)%Z
    /\ (0 <= to_download <= total_tasks)%Z.
Proof.
  eexists _, _, _. split; [vm_compute; reflexivity|].
  destruct (api_preview_counts repr_unmodelled pics_with_files [JObj spell_card]
              pics_request _ _ _ ltac:(vm_compute; reflexivity)) as (Hcards & Htasks & _).
  split; [exact Hcards | exact Htasks].
Defined.

Lemma preview_matches_run_witness :
  exists w1 total_cards total_tasks to_download,
    api_preview repr_unmodelled pics_only (catalog one_spell_catalog)
      (Some (JObj pics_request)) = Ret (PreviewCounts total_cards total_tasks to_download)
    /\ download_worker_main repr_unmodelled int_of_decimal serving one_spell_catalog 1
         (JObj pics_request) (fresh_world pics_only) = Some w1
    /\ total (w_state w1) = to_download.
Proof.
  eexists _, _, _, _. split; [vm_compute; reflexivity|]. split; [vm_compute; reflexivity|].
  eapply (preview_matches_run repr_unmodelled int_of_decimal serving one_spell_catalog 1
            pics_request "/pics" _ (fresh_world pics_only)).
  - reflexivity.
  - reflexivity.
  - vm_compute. discriminate.
  - vm_compute. reflexivity.
  - reflexivity.
  - vm_compute. reflexivity.
  - vm_compute. reflexivity.
Defined.

Lemma validate_path_agrees_with_preview_witness :
  false = false <->
  api_preview repr_unmodelled pics_only (Ret [JObj spell_card])
    (Some (JObj {["picsdir" := JStr "/nowhere"]})) =
    Ret (PreviewError "Invalid pics directory").
Proof.
  apply (validate_path_agrees_with_preview repr_unmodelled pics_only (Ret [JObj spell_card])
           {["path" := JStr "/nowhere"]} {["picsdir" := JStr "/nowhere"]}
           false false false None None).
  - reflexivity.
  - vm_compute. reflexivity.
Defined.

(** With [force] and [validateExisting] both set the preview and the run
    part ways: the preview switches the validation off and counts every
    task, the run keeps it and leaves out the file that is present and
    valid. *)
Example preview_and_run_differ_when_forced :
  api_preview repr_unmodelled pics_with_files (catalog five_catalog)
    (Some (JObj forced_validation)) = Ret (PreviewCounts 1 1 1)
  /\ exists w1,
       download_worker_main repr_unmodelled int_of_decimal serving five_catalog 1
         (JObj forced_validation) (fresh_world pics_with_files) = Some w1
       /\ total (w_state w1) = 0%Z
       /\ w_requests w1 = [].
Proof.
  split; [vm_compute; reflexivity|].
  eexists. split; [vm_compute; reflexivity|]. split; reflexivity.
Qed.

(** What counts as absolute and normal. *)
Example normal_path_examples :
  normal_path "/" = true /\ normal_path "/pics" = true /\ normal_path "/game/pics" = true
  /\ normal_path "/pics/" = false /\ normal_path "./pics" = false
  /\ normal_path "~/pics" = false /\ normal_path "/a/../pics" = false
  /\ normal_path "/a//pics" = false /\ normal_path "" = false.
Proof. repeat split; reflexivity. Qed.

Lemma analyze_pics_path_consistent_witness :
  pi_exists (analyze_pics_path game_folder " /game ") = true
  /\ pi_is_pics_folder (analyze_pics_path game_folder " /game ") = false
  /\ os_path_isdir game_folder "/game/pics" = true.
Proof.
  destruct (analyze_pics_path_consistent game_folder " /game ") as (_ & Hsuggested & _).
  - reflexivity.
  - destruct (Hsuggested "/game/pics" eq_refl) as (Hexists & Hpics & _ & Hdir).
    split; [exact Hexists | split; [exact Hpics | exact Hdir]].
Defined.

Lemma find_pics_in_parents_nearest_witness :
  exists n,
    "/game/pics" = os_path_join (parent_at n "/game/data/replays") "pics"
    /\ os_path_isdir game_folder "/game/pics" = true.
Proof.
  destruct (find_pics_in_parents_nearest game_folder "/game/data/replays" None)
    as (_ & Hfound & _).
  - reflexivity.
  - destruct (Hfound "/game/pics") as (n & Hn & Hdir & _).
    + vm_compute. reflexivity.
    + exists n. split; [exact Hn | exact Hdir].
Defined.
